(** * WFDB annotation codec (wfdb/io/annotation.py): shallow embedding

    The embedding follows the functions of [annotation.py] that make up the
    binary annotation codec:

    - the reader: [proc_core_fields], [proc_extra_field],
      [update_extra_fields], [rm_last], [extract_ann_data], [get_info_inds],
      [extract_ann_info], [rm_empty_indices] and, chained as [rdann] chains
      them, the fall-back of [rdann] on the header for [fs];
    - the writer: [field2bytes], [compact_carry_field],
      [Annotation._compact_fields], [isblank], [Annotation.calc_core_bytes],
      [Annotation.calc_fs_bytes], [custom_triplet_bytes],
      [Annotation.calc_cl_bytes], [Annotation.wr_ann_file];
    - [Annotation.apply_range];
    - the checks of [Annotation.check_field], branch by branch, and
      [Annotation.check_fields];
    - [Annotation._create_label_map] with [_custom_labels_to_df].

    Conventions.

    - numpy integers are [Z].  A [uint8] cell is a [Z] in 0..255,
      [astype('u1')] is reduction modulo 256 and [astype('i1')] the signed
      reading of a byte.  Sums and products of a [uint8] cell with a Python
      integer are carried out on 64 bits (numpy before 2.0); none of those
      of the codec leaves that range, so they are the sums and products of
      [Z].  The test [fs_bytes == []] of [wr_ann_file] on an array that is
      not empty is false, as it is in the versions of numpy of the time of
      the file (before 1.25).
    - A Python [str] is the list of its code points ([pystr]).  The strings
      that the reader builds have code points below 256; the classes of
      [re] are given on that range.
    - A Python list that a function appends to in place is passed to it and
      returned by it.  A Python set of indices is a list without
      duplicates.
    - A raised exception is [Raise e].  A [while] loop runs on fuel; it
      raises [Diverges] when the fuel is used up or when a pass leaves the
      state of the loop as it found it.
    - [None] for an attribute of the object is the attribute holding
      [None].
    - Python floats are not modelled: the few operations that
      [extract_ann_info], [calc_fs_bytes] and [check_field] apply to one
      are the fields of a [float_model].
    - The object is given in two parts: [Annotation] has the six fields
      that the writer reads and [label_store], [Annotation_rest] the five
      other attributes.  Two things that [check_field] uses are not in the
      file and are taken as given ([outside_file]): the tuple
      [_header.float_types], and what [re] counts as a letter or digit
      beyond ASCII.
    - File access ([load_byte_pairs], the [open] of [wr_ann_file]) and the
      header reader [record.rdheader] are outside the file: the reader
      starts from the rows of bytes, the writer ends with the list of bytes,
      and the header reader is a parameter.
    - The entry points [rdann] and [Annotation.wrann] are not embedded as
      wholes, only the steps named above.  Around them [rdann] checks its
      arguments ([check_read_inputs]), unpacks the arrays of
      [lists_to_arrays], calls [apply_range] and selects the fields to
      hand back ([_set_data_fields]); [wrann] converts labels and calls
      [check_field_cohesion].  In this version of the file the unpacking
      in [rdann] names five of the six arrays of [lists_to_arrays], and
      [wrann] takes the truth value of the DataFrame of custom labels that
      [check_fields] has asked for; neither returns.  What is proved of
      reading and of writing is therefore stated on the steps
      ([rdann_steps]; [check_field], [wr_ann_file]) and not on a call of
      [rdann] or [wrann]. *)

From Stdlib Require Import ZArith String Ascii List ListSet Bool Lia Arith.
From Stdlib Require Import DecimalString.
From Stdlib Require DecimalZ DecimalPos.
Import ListNotations.
Open Scope Z_scope.

(** ** Exceptions *)

Inductive exn : Type :=
| IndexError
| TypeError
| ValueError
| UnboundLocalError
| Diverges.

Inductive result (A : Type) : Type :=
| Ok (a : A)
| Raise (e : exn).

Arguments Ok {A} a.
Arguments Raise {A} e.

Definition bind {A B : Type} (m : result A) (k : A -> result B) : result B :=
  match m with
  | Ok a => k a
  | Raise e => Raise e
  end.

Notation "x <- m ;; k" := (bind m (fun x => k))
  (at level 61, m at next level, right associativity).
Notation "' pat <- m ;; k" := (bind m (fun x => match x with pat => k end))
  (at level 61, pat pattern, m at next level, right associativity).

(** ** Strings *)

Abbreviation pystr := (list Z) (only parsing).

Definition ord (a : ascii) : Z := Z.of_N (N_of_ascii a).

(** A string literal of the source, as code points. *)
Definition str (s : string) : pystr := map ord (list_ascii_of_string s).

Fixpoint pystr_eqb (a b : pystr) : bool :=
  match a, b with
  | [], [] => true
  | x :: a', y :: b' => (x =? y) && pystr_eqb a' b'
  | _, _ => false
  end.

(** ** The byte pairs of a file

    [load_byte_pairs] reads the file as [uint8] and reshapes it to rows of
    two cells; [reshape] fails on an odd number of cells. *)

Definition byte_pairs : Type := list (Z * Z).

Fixpoint reshape_pairs (bs : list Z) : result byte_pairs :=
  match bs with
  | [] => Ok []
  | [_] => Raise ValueError
  | a :: b :: bs' => ps <- reshape_pairs bs' ;; Ok ((a, b) :: ps)
  end.

Definition flatten (ps : byte_pairs) : list Z :=
  flat_map (fun p => [fst p; snd p]) ps.

(** [file_bytes[i, _]]: numpy raises IndexError past the last row. *)
Definition row (file_bytes : byte_pairs) (i : nat) : result (Z * Z) :=
  match nth_error file_bytes i with
  | Some r => Ok r
  | None => Raise IndexError
  end.

(** [x.astype('i1')] of a [uint8] cell. *)
Definition astype_i1 (b : Z) : Z := (b + 128) mod 256 - 128.

(** [x.astype('u1')]. *)
Definition astype_u1 (b : Z) : Z := b mod 256.

(** ** The reader *)

(** The six lists that [extract_ann_data] fills. *)
Record ann_data : Type := mk_ann_data {
  sample : list Z;
  label_store : list Z;
  subtype : list Z;
  chan : list Z;
  num : list Z;
  aux_note : list pystr
}.

Definition no_data : ann_data := mk_ann_data [] [] [] [] [] [].

(** The [update] dict: which extra fields still need a value. *)
Record update_flags : Type := mk_update {
  upd_subtype : bool;
  upd_chan : bool;
  upd_num : bool;
  upd_aux_note : bool
}.

Definition update_all : update_flags := mk_update true true true true.

Definition proc_core_fields (file_bytes : byte_pairs) (bpi : nat)
  : result (Z * Z * nat) :=
  r0 <- row file_bytes bpi ;;
  let label_store_v := Z.shiftr (snd r0) 2 in
  if negb (label_store_v =? 59) then
    let sample_diff := fst r0 + 256 * Z.land (snd r0) 3 in
    Ok (sample_diff, label_store_v, (bpi + 1)%nat)
  else
    r1 <- row file_bytes (bpi + 1) ;;
    r2 <- row file_bytes (bpi + 2) ;;
    let sample_diff :=
      65536 * fst r1 + 16777216 * snd r1 + fst r2 + 256 * snd r2 in
    let sample_diff :=
      if sample_diff >? 2147483647 then sample_diff - 4294967296
      else sample_diff in
    r3 <- row file_bytes (bpi + 3) ;;
    let sample_diff := sample_diff + fst r3 + 256 * Z.land (snd r3) 3 in
    let label_store_v := Z.shiftr (snd r3) 2 in
    Ok (sample_diff, label_store_v, (bpi + 4)%nat).

Definition proc_extra_field (label_store_v : Z) (file_bytes : byte_pairs)
    (bpi : nat) (d : ann_data) (update : update_flags)
  : result (ann_data * update_flags * nat) :=
  if label_store_v =? 61 then
    r <- row file_bytes bpi ;;
    Ok (mk_ann_data (sample d) (label_store d)
          (subtype d ++ [astype_i1 (fst r)]) (chan d) (num d) (aux_note d),
        mk_update false (upd_chan update) (upd_num update)
          (upd_aux_note update),
        (bpi + 1)%nat)
  else if label_store_v =? 62 then
    r <- row file_bytes bpi ;;
    Ok (mk_ann_data (sample d) (label_store d)
          (subtype d) (chan d ++ [fst r]) (num d) (aux_note d),
        mk_update (upd_subtype update) false (upd_num update)
          (upd_aux_note update),
        (bpi + 1)%nat)
  else if label_store_v =? 60 then
    r <- row file_bytes bpi ;;
    Ok (mk_ann_data (sample d) (label_store d)
          (subtype d) (chan d) (num d ++ [astype_i1 (fst r)]) (aux_note d),
        mk_update (upd_subtype update) (upd_chan update) false
          (upd_aux_note update),
        (bpi + 1)%nat)
  else if label_store_v =? 63 then
    r <- row file_bytes bpi ;;
    let aux_notelen := fst r in
    (* int(np.ceil(aux_notelen / 2.)) *)
    let nrows := Z.to_nat ((aux_notelen + 1) / 2) in
    let aux_notebytes := flatten (firstn nrows (skipn (bpi + 1) file_bytes)) in
    let aux_notebytes :=
      if Z.odd aux_notelen then removelast aux_notebytes else aux_notebytes in
    Ok (mk_ann_data (sample d) (label_store d)
          (subtype d) (chan d) (num d) (aux_note d ++ [aux_notebytes]),
        mk_update (upd_subtype update) (upd_chan update) (upd_num update)
          false,
        (bpi + 1 + nrows)%nat)
  else Ok (d, update, bpi).

Definition update_extra_fields (d : ann_data) (update : update_flags)
  : ann_data :=
  mk_ann_data (sample d) (label_store d)
    (if upd_subtype update then subtype d ++ [0] else subtype d)
    (if upd_chan update then chan d ++ [last (chan d) 0] else chan d)
    (if upd_num update then num d ++ [last (num d) 0] else num d)
    (if upd_aux_note update then aux_note d ++ [[]] else aux_note d).

(** [a.pop()]. *)
Definition pop {A : Type} (a : list A) : result (list A) :=
  match a with
  | [] => Raise IndexError
  | _ => Ok (removelast a)
  end.

Definition rm_last (d : ann_data) : result ann_data :=
  s <- pop (sample d) ;;
  l <- pop (label_store d) ;;
  st <- pop (subtype d) ;;
  c <- pop (chan d) ;;
  n <- pop (num d) ;;
  a <- pop (aux_note d) ;;
  Ok (mk_ann_data s l st c n a).

(** The inner loop of [extract_ann_data]:
    [while current_label_store > 59: ...]. *)
Fixpoint extra_fields_loop (fuel : nat) (file_bytes : byte_pairs)
    (current_label_store : Z) (bpi : nat) (d : ann_data)
    (update : update_flags) : result (ann_data * update_flags * nat) :=
  if current_label_store >? 59 then
    match fuel with
    | O => Raise Diverges
    | S fuel' =>
        '(d', update', bpi') <-
          proc_extra_field current_label_store file_bytes bpi d update ;;
        r <- row file_bytes bpi' ;;
        extra_fields_loop fuel' file_bytes (Z.shiftr (snd r) 2) bpi' d' update'
    end
  else Ok (d, update, bpi).

(** One pass of the body of the outer loop, up to and including
    [update_extra_fields]. *)
Definition ann_body (file_bytes : byte_pairs) (sample_total : Z) (bpi : nat)
    (d : ann_data) : result (Z * nat * ann_data) :=
  '(sample_diff, current_label_store, bpi) <- proc_core_fields file_bytes bpi ;;
  let sample_total := sample_total + sample_diff in
  let d := mk_ann_data (sample d ++ [sample_total])
             (label_store d ++ [current_label_store])
             (subtype d) (chan d) (num d) (aux_note d) in
  r <- row file_bytes bpi ;;
  '(d, update, bpi) <-
    extra_fields_loop (length file_bytes) file_bytes (Z.shiftr (snd r) 2)
      bpi d update_all ;;
  Ok (sample_total, bpi, update_extra_fields d update).

(** The truth value of [sampto]: [None] and [0] are false. *)
Definition sampto_truthy (sampto : option Z) : bool :=
  match sampto with
  | None => false
  | Some s => negb (s =? 0)
  end.

(** [if sampto and sampto < sample_total]. *)
Definition past_sampto (sampto : option Z) (sample_total : Z) : bool :=
  match sampto with
  | None => false
  | Some s => sampto_truthy sampto && (s <? sample_total)
  end.

Fixpoint ann_loop (fuel : nat) (file_bytes : byte_pairs) (sampto : option Z)
    (sample_total : Z) (bpi : nat) (d : ann_data) : result ann_data :=
  if Z.of_nat bpi <? Z.of_nat (length file_bytes) - 1 then
    match fuel with
    | O => Raise Diverges
    | S fuel' =>
        '(sample_total, bpi, d) <- ann_body file_bytes sample_total bpi d ;;
        if past_sampto sampto sample_total then rm_last d
        else ann_loop fuel' file_bytes sampto sample_total bpi d
    end
  else Ok d.

Definition extract_ann_data (file_bytes : byte_pairs) (sampto : option Z)
  : result ann_data :=
  ann_loop (length file_bytes) file_bytes sampto 0 0%nat no_data.


(** *** Definition annotations

    [np.where(l == v)[0]]: the indices of the cells equal to [v], in
    ascending order. *)
Fixpoint where_eq_from (i : nat) (l : list Z) (v : Z) : list nat :=
  match l with
  | [] => []
  | x :: l' =>
      if x =? v then i :: where_eq_from (S i) l' v
      else where_eq_from (S i) l' v
  end.

Definition where_eq (l : list Z) (v : Z) : list nat := where_eq_from 0 l v.

(** The index sets are Python sets; they are kept as duplicate-free lists. *)
Definition get_info_inds (sample label_store : list Z)
    (aux_note : list pystr) : set nat * set nat :=
  let s0_inds := where_eq sample 0 in
  let note_inds := where_eq label_store 22 in
  let potential_info_inds := set_inter Nat.eq_dec s0_inds note_inds in
  let notann_inds := where_eq label_store 0 in
  let rm_inds := set_union Nat.eq_dec potential_info_inds notann_inds in
  (potential_info_inds, rm_inds).

(** [[a[i] for i in keep_inds]]. *)
Fixpoint pick {A : Type} (a : list A) (inds : list nat) : result (list A) :=
  match inds with
  | [] => Ok []
  | i :: inds' =>
      match nth_error a i with
      | None => Raise IndexError
      | Some x => xs <- pick a inds' ;; Ok (x :: xs)
      end
  end.

Definition rm_empty_indices (rm_inds : set nat) (d : ann_data)
  : result ann_data :=
  match rm_inds with
  | [] => Ok d
  | _ =>
      let keep_inds :=
        filter (fun i => negb (set_mem Nat.eq_dec i rm_inds))
          (seq 0 (length (sample d))) in
      s <- pick (sample d) keep_inds ;;
      l <- pick (label_store d) keep_inds ;;
      st <- pick (subtype d) keep_inds ;;
      c <- pick (chan d) keep_inds ;;
      n <- pick (num d) keep_inds ;;
      a <- pick (aux_note d) keep_inds ;;
      Ok (mk_ann_data s l st c n a)
  end.

(** Character classes of [re] on code points below 256. *)
Definition is_digit (c : Z) : bool := (48 <=? c) && (c <=? 57).

Definition is_space (c : Z) : bool :=
  ((9 <=? c) && (c <=? 13)) || ((28 <=? c) && (c <=? 32))
  || (c =? 133) || (c =? 160).

Fixpoint span {A : Type} (p : A -> bool) (l : list A) : list A * list A :=
  match l with
  | [] => ([], [])
  | x :: l' =>
      if p x then let (a, b) := span p l' in (x :: a, b) else ([], l)
  end.

(** [s] without the prefix [p], when it starts with it. *)
Fixpoint strip_prefix (p s : pystr) : option pystr :=
  match p, s with
  | [], _ => Some s
  | c :: p', x :: s' => if x =? c then strip_prefix p' s' else None
  | _ :: _, [] => None
  end.

Definition startswith (s p : pystr) : bool :=
  match strip_prefix p s with
  | Some _ => true
  | None => false
  end.

(** [rx_fs] matched at the head of [s]: the text [## time resolution: ],
    then the group [fs]: one or more digits, an optional dot, any number of
    digits.  Each piece is greedy and none can give back, so the group is
    the longest such text. *)
Definition rx_fs_at (s : pystr) : option pystr :=
  match strip_prefix (str "## time resolution: ") s with
  | None => None
  | Some rest =>
      let (d1, rest1) := span is_digit rest in
      match d1 with
      | [] => None
      | _ =>
          match rest1 with
          | 46 :: rest2 =>
              let (d2, _) := span is_digit rest2 in Some (d1 ++ 46 :: d2)
          | _ => Some d1
          end
      end
  end.

(** [rx_fs.findall(s)[0]], when [findall] finds a match. *)
Fixpoint rx_fs_findall_0 (s : pystr) : option pystr :=
  match rx_fs_at s with
  | Some g => Some g
  | None =>
      match s with
      | [] => None
      | _ :: s' => rx_fs_findall_0 s'
      end
  end.

(** [rx_custom_label] matched at the head of [s]: the group [label_store]
    (one or more digits), a space, the group [symbol] (one or more
    characters that are not whitespace), a space, the group [description]
    (one or more characters other than a newline). *)
Definition rx_custom_label_at (s : pystr) : option (pystr * pystr * pystr) :=
  let (d, r1) := span is_digit s in
  match d, r1 with
  | _ :: _, 32 :: r2 =>
      let (sym, r3) := span (fun c => negb (is_space c)) r2 in
      match sym, r3 with
      | _ :: _, 32 :: r4 =>
          let (desc, _) := span (fun c => negb (c =? 10)) r4 in
          match desc with
          | [] => None
          | _ => Some (d, sym, desc)
          end
      | _, _ => None
      end
  | _, _ => None
  end.

Fixpoint rx_custom_label_findall_0 (s : pystr)
  : option (pystr * pystr * pystr) :=
  match rx_custom_label_at s with
  | Some g => Some g
  | None =>
      match s with
      | [] => None
      | _ :: s' => rx_custom_label_findall_0 s'
      end
  end.

(** [int(s)] for a string of decimal digits. *)
Definition int_of_digits (s : pystr) : Z :=
  fold_left (fun acc c => 10 * acc + (c - 48)) s 0.

(** [str(n)] for an integer. *)
Definition str_of_int (n : Z) : pystr :=
  str (NilZero.string_of_int (Z.to_int n)).

(** Python floats are not modelled.  What the file does with one is taken
    as given: reading a decimal literal, the test
    [round(x, 8) == float(int(x))], [int(x)], [not x], [str(x)] and the
    test [x <= 0]. *)
Record float_model : Type := mk_float_model {
  pyfloat : Type;
  float_of_str : pystr -> pyfloat;
  float_is_int8 : pyfloat -> bool;
  int_of_float : pyfloat -> Z;
  float_is_zero : pyfloat -> bool;
  str_of_float : pyfloat -> pystr;
  float_le_0 : pyfloat -> bool
}.

(** The value of the [fs] attribute: an [int] or a [float]. *)
Inductive fs_value (F : float_model) : Type :=
| FsInt (n : Z)
| FsFloat (x : pyfloat F).

Arguments FsInt {F} n.
Arguments FsFloat {F} x.

(** [not fs]. *)
Definition not_fs {F : float_model} (fs : option (fs_value F)) : bool :=
  match fs with
  | None => true
  | Some (FsInt n) => n =? 0
  | Some (FsFloat x) => float_is_zero F x
  end.

Definition custom_label : Type := (Z * pystr * pystr)%type.

(** The inner loop of [extract_ann_info]:
    [while aux_note[i] != '## end of definitions']; [rest] is
    [aux_note[i:]]. *)
Fixpoint definitions_loop (rest : list pystr) (i : nat)
    (custom_labels : list custom_label) : result (nat * list custom_label) :=
  match rest with
  | [] => Raise IndexError
  | note :: rest' =>
      if negb (pystr_eqb note (str "## end of definitions")) then
        match rx_custom_label_findall_0 note with
        | None => Raise IndexError
        | Some (label_store_v, symbol, description) =>
            definitions_loop rest' (S i)
              (custom_labels
                 ++ [(int_of_digits label_store_v, symbol, description)])
        end
      else Ok (i, custom_labels)
  end.

(** The outer loop of [extract_ann_info].  A pass that takes neither the
    [continue] nor the definitions branch leaves [i], [fs] and
    [custom_labels] as they were, so the loop repeats it for ever. *)
Fixpoint info_loop {F : float_model} (fuel : nat) (n_info : nat)
    (aux_note : list pystr) (i : nat) (fs : option (fs_value F))
    (custom_labels : list custom_label)
  : result (option (fs_value F) * list custom_label) :=
  if (i <? n_info)%nat then
    match nth_error aux_note i with
    | None => Raise IndexError
    | Some note =>
        match fuel with
        | O => Raise Diverges
        | S fuel' =>
            if startswith note (str "## ") then
              match (if not_fs fs then rx_fs_findall_0 note else None) with
              | Some search_fs_0 =>
                  let x := float_of_str F search_fs_0 in
                  let fs' :=
                    if float_is_int8 F x then FsInt (int_of_float F x)
                    else FsFloat x in
                  info_loop fuel' n_info aux_note (S i) (Some fs')
                    custom_labels
              | None =>
                  if pystr_eqb note (str "## annotation type definitions")
                  then
                    '(i', custom_labels') <-
                      definitions_loop (skipn (S i) aux_note) (S i)
                        custom_labels ;;
                    info_loop fuel' n_info aux_note (S i') fs custom_labels'
                  else Raise Diverges
              end
            else info_loop fuel' n_info aux_note (S i) fs custom_labels
        end
    end
  else Ok (fs, custom_labels).

Definition extract_ann_info {F : float_model} (potential_info_inds : set nat)
    (aux_note : list pystr)
  : result (option (fs_value F) * option (list custom_label)) :=
  '(fs, custom_labels) <-
    info_loop (S (length aux_note)) (length potential_info_inds) aux_note
      0%nat None [] ;;
  match custom_labels with
  | [] => Ok (fs, None)
  | _ => Ok (fs, Some custom_labels)
  end.

(** *** The steps of [rdann] *)

(** What the steps of [rdann] make: the six data fields, [fs],
    [custom_labels]; [header_reads] counts the calls made to
    [record.rdheader]. *)
Record read_annotation (F : float_model) : Type := mk_read_annotation {
  rd_data : ann_data;
  rd_fs : option (fs_value F);
  rd_custom_labels : option (list custom_label);
  header_reads : nat
}.

Arguments mk_read_annotation {F}.
Arguments rd_data {F}.
Arguments rd_fs {F}.
Arguments rd_custom_labels {F}.
Arguments header_reads {F}.

(** [record.rdheader] is not part of the file: [rdheader tt] is what a call
    gives, the header's [fs] ([None] when the header has none) or an
    exception. *)
Definition header_reader (F : float_model) : Type :=
  unit -> result (option (fs_value F)).

(** The [try: ... except: pass] of [rdann]. *)
Definition fs_from_header {F : float_model} (rdheader : header_reader F)
    (fs : option (fs_value F)) : option (fs_value F) * nat :=
  match fs with
  | None =>
      match rdheader tt with
      | Ok rec_fs => (rec_fs, 1%nat)
      | Raise _ => (None, 1%nat)
      end
  | Some _ => (fs, 0%nat)
  end.

(** The steps of [rdann] from the byte pairs of the file to the values
    that the [Annotation] is made of: [extract_ann_data], [get_info_inds],
    [extract_ann_info], [rm_empty_indices] and the fall-back on the header
    for [fs]. *)
Definition rdann_steps {F : float_model} (rdheader : header_reader F)
    (file_bytes : byte_pairs) (sampto : option Z)
  : result (read_annotation F) :=
  d <- extract_ann_data file_bytes sampto ;;
  let '(potential_info_inds, rm_inds) :=
    get_info_inds (sample d) (label_store d) (aux_note d) in
  '(fs, custom_labels) <- extract_ann_info potential_info_inds (aux_note d) ;;
  d <- rm_empty_indices rm_inds d ;;
  let '(fs, reads) := fs_from_header rdheader fs in
  Ok (mk_read_annotation d fs custom_labels reads).

(** ** The label table *)

(** [LABEL_RANGE]. *)
Definition LABEL_RANGE : Z * Z := (1, 49).

(** [ANN_LABELS]: the rows [(label_store, symbol, description)] of the
    standard label map.  The symbol of store value 22 is the double quote,
    code point 34. *)
Definition ANN_LABELS : list custom_label :=
  [
    (1, str "N", str "Normal beat");
    (2, str "L", str "Left bundle branch block beat");
    (3, str "R", str "Right bundle branch block beat");
    (4, str "a", str "Aberrated atrial premature beat");
    (5, str "V", str "Premature ventricular contraction");
    (6, str "F", str "Fusion of ventricular and normal beat");
    (7, str "J", str "Nodal (junctional) premature beat");
    (8, str "A", str "Atrial premature contraction");
    (9, str "S", str "Premature or ectopic supraventricular beat");
    (10, str "E", str "Ventricular escape beat");
    (11, str "j", str "Nodal (junctional) escape beat");
    (12, str "/", str "Paced beat");
    (13, str "Q", str "Unclassifiable beat");
    (14, str "~", str "Signal quality change");
    (16, str "|", str "Isolated QRS-like artifact");
    (18, str "s", str "ST change");
    (19, str "T", str "T-wave change");
    (20, str "*", str "Systole");
    (21, str "D", str "Diastole");
    (22, [34], str "Comment annotation");
    (23, str "=", str "Measurement annotation");
    (24, str "p", str "P-wave peak");
    (25, str "B", str "Left or right bundle branch block");
    (26, str "^", str "Non-conducted pacer spike");
    (27, str "t", str "T-wave peak");
    (28, str "+", str "Rhythm change");
    (29, str "u", str "U-wave peak");
    (30, str "?", str "Learning");
    (31, str "!", str "Ventricular flutter wave");
    (32, str "[", str "Start of ventricular flutter/fibrillation");
    (33, str "]", str "End of ventricular flutter/fibrillation");
    (34, str "e", str "Atrial escape beat");
    (35, str "n", str "Supraventricular escape beat");
    (36, str "@", str "Link to external data (aux_note contains URL)");
    (37, str "x", str "Non-conducted P-wave (blocked APB)");
    (38, str "f", str "Fusion of paced and normal beat");
    (39, str "(", str "Waveform onset");
    (40, str ")", str "Waveform end");
    (41, str "r", str "R-on-T premature ventricular contraction")
  ].

Definition row_label_store (r : custom_label) : Z := fst (fst r).
Definition row_symbol (r : custom_label) : pystr := snd (fst r).
Definition row_description (r : custom_label) : pystr := snd r.

(** ** The writer *)

(** The attributes of an [Annotation] that the writer reads.  [None] is an
    attribute that is [None]. *)
Record Annotation : Type := mk_Annotation {
  ann_sample : list Z;
  ann_symbol : option (list pystr);
  ann_subtype : option (list Z);
  ann_chan : option (list Z);
  ann_num : option (list Z);
  ann_aux_note : option (list pystr);
  ann_label_store : option (list Z)
}.

(** The two arguments of [field2bytes]: the name of the field and its
    value. *)
Inductive field_value : Type :=
| samptype (sd : Z) (sym : pystr)
| f_num (value : Z)
| f_subtype (value : Z)
| f_chan (value : Z)
| f_aux_note (value : pystr).

(** [ANN_LABELS.loc[ANN_LABELS['symbol']==sym, 'label_store'].values[0]]. *)
Definition typecode_of (sym : pystr) : result Z :=
  match find (fun r => pystr_eqb (row_symbol r) sym) ANN_LABELS with
  | Some r => Ok (row_label_store r)
  | None => Raise IndexError
  end.

Definition field2bytes (fv : field_value) : result (list Z) :=
  match fv with
  | samptype sd sym =>
      typecode <- typecode_of sym ;;
      if sd >? 1023 then
        Ok [0; 236; Z.shiftr (Z.land sd 16711680) 16;
            Z.shiftr (Z.land sd 4278190080) 24; Z.land sd 255;
            Z.shiftr (Z.land sd 65280) 8; 0; 4 * typecode]
      else
        Ok [Z.land sd 255; Z.shiftr (Z.land sd 768) 8 + 4 * typecode]
  | f_num value => Ok [value; 240]
  | f_subtype value => Ok [value; 244]
  | f_chan value => Ok [value; 248]
  | f_aux_note value =>
      Ok ([Z.of_nat (length value); 252] ++ value
            ++ (if Nat.odd (length value) then [0] else []))
  end.

Definition is_None {A : Type} (x : option A) : bool :=
  match x with
  | None => true
  | Some _ => false
  end.

(** The loop of [compact_carry_field]. *)
Fixpoint compact_carry (prev_field : Z) (full_field : list Z)
  : list (option Z) :=
  match full_field with
  | [] => []
  | current_field :: rest =>
      if negb (current_field =? prev_field)
      then Some current_field :: compact_carry current_field rest
      else None :: compact_carry prev_field rest
  end.

Definition compact_carry_field (full_field : option (list Z))
  : option (list (option Z)) :=
  match full_field with
  | None => None
  | Some full =>
      let compact_field := compact_carry 0 full in
      (* np.array_equal(compact_field, [None]*len(full_field)) *)
      if forallb is_None compact_field then None else Some compact_field
  end.

(** The fields of the compact copy of [calc_core_bytes]. *)
Record compact_fields : Type := mk_compact_fields {
  c_num : option (list (option Z));
  c_subtype : option (list (option Z));
  c_chan : option (list (option Z));
  c_aux_note : option (list (option pystr))
}.

(** [_compact_fields], for [subtype] an array as [check_field] asks and
    [aux_note] a list of strings. *)
Definition _compact_fields (self : Annotation) : result compact_fields :=
  let n_annots := length (ann_sample self) in
  let chan := compact_carry_field (ann_chan self) in
  let num := compact_carry_field (ann_num self) in
  let subtype :=
    match ann_subtype self with
    | None => None
    | Some st =>
        let zero_inds := where_eq st 0 in
        if (length zero_inds =? n_annots)%nat then None
        else Some (map (fun v => if v =? 0 then None else Some v) st)
    end in
  aux_note <-
    match ann_aux_note self with
    | None => Ok None
    | Some notes =>
        if (length notes <? n_annots)%nat then Raise IndexError
        else
          let notes' :=
            map (fun s => match s with [] => None | _ => Some s end)
              (firstn n_annots notes)
            ++ map Some (skipn n_annots notes) in
          (* np.array_equal(self.aux_note, [None]*n_annots) *)
          if (length notes' =? n_annots)%nat && forallb is_None notes'
          then Ok None else Ok (Some notes')
    end ;;
  Ok (mk_compact_fields num subtype chan aux_note).

(** [isblank]: [None], or a list whose set of cells is [{None}]. *)
Definition isblank {A : Type} (x : option (list (option A))) : bool :=
  match x with
  | None => true
  | Some [] => false
  | Some l => forallb is_None l
  end.

Inductive extra_field : Type := x_num | x_subtype | x_chan | x_aux_note.

Definition extra_isblank (c : compact_fields) (f : extra_field) : bool :=
  match f with
  | x_num => isblank (c_num c)
  | x_subtype => isblank (c_subtype c)
  | x_chan => isblank (c_chan c)
  | x_aux_note => isblank (c_aux_note c)
  end.

(** [a[i]] where [a] may be [None]. *)
Definition item {A : Type} (a : option (list A)) (i : nat) : result A :=
  match a with
  | None => Raise TypeError
  | Some l =>
      match nth_error l i with
      | Some x => Ok x
      | None => Raise IndexError
      end
  end.

(** [getattr(compact_annotation, field)[i]], ready for [field2bytes]. *)
Definition extra_value (c : compact_fields) (f : extra_field) (i : nat)
  : result (option field_value) :=
  match f with
  | x_num => v <- item (c_num c) i ;; Ok (option_map f_num v)
  | x_subtype => v <- item (c_subtype c) i ;; Ok (option_map f_subtype v)
  | x_chan => v <- item (c_chan c) i ;; Ok (option_map f_chan v)
  | x_aux_note => v <- item (c_aux_note c) i ;; Ok (option_map f_aux_note v)
  end.

(** [for field in extra_write_fields: ...] for annotation [i]. *)
Fixpoint extra_bytes (c : compact_fields) (fields : list extra_field)
    (i : nat) : result (list (list Z)) :=
  match fields with
  | [] => Ok []
  | f :: fields' =>
      value <- extra_value c f i ;;
      match value with
      | None => extra_bytes c fields' i
      | Some fv =>
          b <- field2bytes fv ;;
          rest <- extra_bytes c fields' i ;;
          Ok (b :: rest)
      end
  end.

(** [np.concatenate(([sample[0]], np.diff(sample)))]. *)
Fixpoint diffs (prev : Z) (l : list Z) : list Z :=
  match l with
  | [] => []
  | x :: l' => (x - prev) :: diffs x l'
  end.

Definition sampdiffs (sample : list Z) : result (list Z) :=
  match sample with
  | [] => Raise IndexError
  | _ => Ok (diffs 0 sample)
  end.

(** The main loop of [calc_core_bytes], from annotation [i] on: one list of
    bytes per call of [field2bytes]. *)
Fixpoint core_loop (self : Annotation) (c : compact_fields)
    (extra_write_fields : list extra_field) (i : nat) (sampdiff : list Z)
  : result (list (list Z)) :=
  match sampdiff with
  | [] => Ok []
  | sd :: sampdiff' =>
      sym <- item (ann_symbol self) i ;;
      b <- field2bytes (samptype sd sym) ;;
      xs <- extra_bytes c extra_write_fields i ;;
      rest <- core_loop self c extra_write_fields (S i) sampdiff' ;;
      Ok (b :: xs ++ rest)
  end.

(** [data_bytes] of [calc_core_bytes] before it is flattened. *)
Definition core_data_bytes (self : Annotation) : result (list (list Z)) :=
  sampdiff <- sampdiffs (ann_sample self) ;;
  c <- _compact_fields self ;;
  let extra_write_fields :=
    filter (fun f => negb (extra_isblank c f))
      [x_num; x_subtype; x_chan; x_aux_note] in
  core_loop self c extra_write_fields 0 sampdiff.

Definition calc_core_bytes (self : Annotation) : result (list Z) :=
  data_bytes <- core_data_bytes self ;;
  Ok (map astype_u1 (concat data_bytes)).

(** [wr_ann_file]: the bytes written to the file.  [fs_bytes] and
    [cl_bytes] are what [calc_fs_bytes] (or [[]] without [write_fs]) and
    [calc_cl_bytes] give; both are [[]] when [fs] is not written and there
    are no custom labels. *)
Definition wr_ann_file (self : Annotation) (fs_bytes cl_bytes : list Z)
  : result (list Z) :=
  core_bytes <- calc_core_bytes self ;;
  let end_special_bytes :=
    match fs_bytes, cl_bytes with
    | [], [] => []
    | _, _ => [0; 236; 255; 255; 255; 255; 1; 0]
    end in
  Ok (map astype_u1
        (fs_bytes ++ cl_bytes ++ end_special_bytes ++ core_bytes ++ [0; 0])).

(** ** The checks of the fields *)

(** [min(a)] and [max(a)]: ValueError on an empty sequence. *)
Definition py_min (a : list Z) : result Z :=
  match a with
  | [] => Raise ValueError
  | x :: a' => Ok (fold_left Z.min a' x)
  end.

Definition py_max (a : list Z) : result Z :=
  match a with
  | [] => Raise ValueError
  | x :: a' => Ok (fold_left Z.max a' x)
  end.

(** [if min(a) < lo or max(a) > hi: raise ValueError]. *)
Definition check_range (lo hi : Z) (a : list Z) : result unit :=
  mn <- py_min a ;;
  if mn <? lo then Raise ValueError
  else
    mx <- py_max a ;;
    if mx >? hi then Raise ValueError else Ok tt.

(** The branch [field == 'sample'] of [check_field]. *)
Definition check_field_sample (sample : list Z) : result unit :=
  sampdiffs <-
    match sample with
    | [] => Raise ValueError
    | _ => Ok (diffs 0 sample)
    end ;;
  mn <- py_min sample ;;
  if mn <? 0 then Raise ValueError
  else
    mnd <- py_min sampdiffs ;;
    if mnd <? 0 then Raise ValueError
    else
      mxd <- py_max sampdiffs ;;
      if mxd >? 2147483648 then Raise ValueError else Ok tt.

(** The class of space, tab, newline, carriage return, form feed and
    vertical tab that [check_field] searches a symbol for. *)
Definition is_blank_char (c : Z) : bool :=
  (c =? 32) || (c =? 9) || (c =? 10) || (c =? 13) || (c =? 12) || (c =? 11).

(** The same class without the space, for [description] and [aux_note]. *)
Definition is_tab_or_newline (c : Z) : bool :=
  (c =? 9) || (c =? 10) || (c =? 13) || (c =? 12) || (c =? 11).

Fixpoint check_each {A : Type} (check : A -> result unit) (l : list A)
  : result unit :=
  match l with
  | [] => Ok tt
  | x :: l' => _ <- check x ;; check_each check l'
  end.

Definition check_symbol_element (e : pystr) : result unit :=
  if negb ((1 <=? length e)%nat && (length e <=? 3)%nat) then Raise ValueError
  else if existsb is_blank_char e then Raise ValueError
  else Ok tt.

Definition check_note_element (e : pystr) : result unit :=
  if existsb is_tab_or_newline e then Raise ValueError else Ok tt.

(** The names of the fields of [ANN_FIELDS] that the codec reads and
    writes. *)
Inductive ann_field : Type :=
| fld_sample
| fld_symbol
| fld_subtype
| fld_chan
| fld_num
| fld_aux_note
| fld_label_store.

(** [isinstance(item, ALLOWED_TYPES[field])] fails on [None]. *)
Definition typed {A : Type} (item : option A) : result A :=
  match item with
  | Some x => Ok x
  | None => Raise TypeError
  end.

Definition check_field (self : Annotation) (field : ann_field) : result unit :=
  match field with
  | fld_sample => check_field_sample (ann_sample self)
  | fld_symbol =>
      item <- typed (ann_symbol self) ;; check_each check_symbol_element item
  | fld_aux_note =>
      item <- typed (ann_aux_note self) ;; check_each check_note_element item
  | fld_label_store =>
      item <- typed (ann_label_store self) ;; check_range 1 49 item
  | fld_subtype => item <- typed (ann_subtype self) ;; check_range 0 127 item
  | fld_chan => item <- typed (ann_chan self) ;; check_range 0 255 item
  | fld_num => item <- typed (ann_num self) ;; check_range 0 127 item
  end.

(** ** The label map *)

(** The [custom_labels] attribute: a list or tuple of pairs
    [(symbol, description)], of triplets
    [(label_store, symbol, description)], a DataFrame that has the columns
    [symbol] and [description], with or without the [label_store] column,
    or a DataFrame that lacks one of these two.  The columns of a DataFrame
    have one length, its number of rows. *)
Inductive custom_labels_value : Type :=
| cl_pairs (l : list (pystr * pystr))
| cl_triplets (l : list custom_label)
| cl_dataframe (label_store : option (list Z))
    (symbol description : list pystr)
| cl_dataframe_other.

(** The truth value of [self.custom_labels]; that of a DataFrame is a
    ValueError. *)
Definition custom_labels_truthy (cl : option custom_labels_value)
  : result bool :=
  match cl with
  | None => Ok false
  | Some (cl_pairs []) => Ok false
  | Some (cl_triplets []) => Ok false
  | Some (cl_pairs _) => Ok true
  | Some (cl_triplets _) => Ok true
  | Some (cl_dataframe _ _ _) => Raise ValueError
  | Some cl_dataframe_other => Raise ValueError
  end.

Fixpoint has_duplicate (l : list pystr) : bool :=
  match l with
  | [] => false
  | x :: l' => existsb (pystr_eqb x) l' || has_duplicate l'
  end.

Fixpoint has_duplicate_Z (l : list Z) : bool :=
  match l with
  | [] => false
  | x :: l' => existsb (Z.eqb x) l' || has_duplicate_Z l'
  end.

(** The checks of the values of [custom_labels], once the store values
    (if any) and the symbols are taken out of it:
    [if label_store:] the store values are distinct and within 1..49; the
    symbols are distinct; each symbol has one to three characters and no
    whitespace.  All of them raise ValueError. *)
Definition check_custom_labels_values (label_store : option (list Z))
    (symbol : list pystr) : result unit :=
  _ <-
    match label_store with
    | Some (v :: ls) =>
        if has_duplicate_Z (v :: ls) then Raise ValueError
        else check_range 1 49 (v :: ls)
    | _ => Ok tt
    end ;;
  if has_duplicate symbol then Raise ValueError
  else check_each check_symbol_element symbol.

(** The branch [field == 'custom_labels'] of [check_field].  For a list,
    [set([len(i) for i in item])] is neither [{2}] nor [{3}] when the list
    is empty; for a DataFrame the columns [symbol] and [description] are
    asked for. *)
Definition check_field_custom_labels (cl : custom_labels_value)
  : result unit :=
  match cl with
  | cl_pairs [] => Raise ValueError
  | cl_pairs l => check_custom_labels_values None (map fst l)
  | cl_triplets [] => Raise ValueError
  | cl_triplets l =>
      check_custom_labels_values (Some (map row_label_store l))
        (map row_symbol l)
  | cl_dataframe label_store symbol _ =>
      check_custom_labels_values label_store symbol
  | cl_dataframe_other => Raise ValueError
  end.

(** [_custom_labels_to_df]: the attribute as a DataFrame. *)
Definition _custom_labels_to_df (cl : option custom_labels_value)
  : result (option custom_labels_value) :=
  truthy <- custom_labels_truthy cl ;;
  if negb truthy then Ok cl
  else
    match cl with
    | Some (cl_pairs l) =>
        _ <- check_field_custom_labels (cl_pairs l) ;;
        Ok (Some (cl_dataframe None (map fst l) (map snd l)))
    | Some (cl_triplets l) =>
        _ <- check_field_custom_labels (cl_triplets l) ;;
        Ok (Some (cl_dataframe (Some (map row_label_store l))
                    (map row_symbol l) (map row_description l)))
    | _ => Ok cl
    end.

(** A name that is assigned somewhere in the body of a function is local
    to it; reading it before the assignment raises UnboundLocalError. *)
Definition read_local {A : Type} (value : option A) : result A :=
  match value with
  | Some v => Ok v
  | None => Raise UnboundLocalError
  end.

(** [_create_label_map]: the label map it stores in [__label_map__].  The
    name [custom_labels] is assigned in the body, after the test
    ['label_store' not in list(custom_labels)] that reads it; at the test it
    has no value yet, whatever the attribute [self.custom_labels] holds.
    The statements after the test are therefore never reached. *)
Definition _create_label_map (self_custom_labels : option custom_labels_value)
  : result (list custom_label) :=
  let label_map := ANN_LABELS in
  let custom_labels : option custom_labels_value := None in
  truthy <- custom_labels_truthy self_custom_labels ;;
  if truthy then
    _ <- _custom_labels_to_df self_custom_labels ;;
    _ <- read_local custom_labels ;;
    Ok label_map
  else Ok label_map.

(** ** The other attributes of the object, and [check_fields] *)

(** What the checks take from outside the file: the tuple
    [_header.float_types] of the types allowed for [fs], by whether it
    holds [int] and whether it holds [float]; and the characters beyond
    ASCII that the class [\w] of [re] takes for a letter or a digit, which
    is for the tables of Unicode to say. *)
Record outside_file : Type := mk_outside_file {
  float_types_has_int : bool;
  float_types_has_float : bool;
  unicode_alnum : Z -> bool
}.

(** The attributes of the object besides those of [Annotation]. *)
Record Annotation_rest (F : float_model) : Type := mk_Annotation_rest {
  ann_description : option (list pystr);
  ann_record_name : option pystr;
  ann_extension : option pystr;
  ann_fs : option (fs_value F);
  ann_custom_labels : option custom_labels_value
}.

Arguments mk_Annotation_rest {F}.
Arguments ann_description {F}.
Arguments ann_record_name {F}.
Arguments ann_extension {F}.
Arguments ann_fs {F}.
Arguments ann_custom_labels {F}.

Inductive rest_field : Type :=
| fld_description
| fld_record_name
| fld_extension
| fld_fs
| fld_custom_labels.

(** The class [\w]: the letters and digits, and the underscore. *)
Definition is_word_char (o : outside_file) (c : Z) : bool :=
  if c <? 128 then
    ((48 <=? c) && (c <=? 57)) || ((65 <=? c) && (c <=? 90))
    || ((97 <=? c) && (c <=? 122)) || (c =? 95)
  else unicode_alnum o c.

(** The class [a-zA-Z]. *)
Definition is_ascii_letter (c : Z) : bool :=
  ((65 <=? c) && (c <=? 90)) || ((97 <=? c) && (c <=? 122)).

(** [isinstance(item, _header.float_types)], then [if self.fs <= 0]. *)
Definition check_field_fs (o : outside_file) {F : float_model}
    (item : option (fs_value F)) : result unit :=
  match item with
  | None => Raise TypeError
  | Some (FsInt n) =>
      if negb (float_types_has_int o) then Raise TypeError
      else if n <=? 0 then Raise ValueError else Ok tt
  | Some (FsFloat x) =>
      if negb (float_types_has_float o) then Raise TypeError
      else if float_le_0 F x then Raise ValueError else Ok tt
  end.

(** [check_field] for the five other names of [ANN_FIELDS]:
    [description] goes with [aux_note]; [re.search('[^-\w]', ...)] on
    [record_name] and [re.search('[^a-zA-Z]', ...)] on [extension]. *)
Definition check_field_rest (o : outside_file) {F : float_model}
    (rest : Annotation_rest F) (field : rest_field) : result unit :=
  match field with
  | fld_description =>
      item <- typed (ann_description rest) ;;
      check_each check_note_element item
  | fld_record_name =>
      item <- typed (ann_record_name rest) ;;
      if existsb (fun c => negb ((c =? 45) || is_word_char o c)) item
      then Raise ValueError else Ok tt
  | fld_extension =>
      item <- typed (ann_extension rest) ;;
      if existsb (fun c => negb (is_ascii_letter c)) item
      then Raise ValueError else Ok tt
  | fld_fs => check_field_fs o (ann_fs rest)
  | fld_custom_labels =>
      item <- typed (ann_custom_labels rest) ;;
      check_field_custom_labels item
  end.

(** [ANN_FIELDS = ANN_DATA_FIELDS + ANN_INFO_FIELDS]. *)
Definition ANN_FIELDS : list (ann_field + rest_field) :=
  [inl fld_sample; inl fld_symbol; inl fld_subtype; inl fld_chan;
   inl fld_num; inl fld_aux_note; inl fld_label_store; inr fld_description;
   inr fld_record_name; inr fld_extension; inr fld_fs;
   inr fld_custom_labels].

(** [check_fields]: [check_field] on every name of [ANN_FIELDS], in that
    order.  The test [hasattr(self, field)] holds for each of them: the
    initializer sets all twelve attributes, to [None] when the caller gives
    nothing. *)
Definition check_fields (o : outside_file) {F : float_model}
    (self : Annotation) (rest : Annotation_rest F) : result unit :=
  check_each
    (fun field =>
       match field with
       | inl f => check_field self f
       | inr f => check_field_rest o rest f
       end)
    ANN_FIELDS.

(** ** Statement vocabulary

    The definitions below are not functions of the file; they name what the
    theorems are about. *)

(** The six lists have one length. *)
Definition same_length (d : ann_data) : Prop :=
  length (label_store d) = length (sample d)
  /\ length (subtype d) = length (sample d)
  /\ length (chan d) = length (sample d)
  /\ length (num d) = length (sample d)
  /\ length (aux_note d) = length (sample d).

(** Each of the six lists without its last cell. *)
Definition without_last (d : ann_data) : ann_data :=
  mk_ann_data (removelast (sample d)) (removelast (label_store d))
    (removelast (subtype d)) (removelast (chan d)) (removelast (num d))
    (removelast (aux_note d)).

(** How one extra field (its list [proj], its flag, its tag) stands after
    [extra_fields_loop] went through the words of tags [tags]. *)
Definition field_follows {A : Type} (proj : ann_data -> list A)
    (flag : update_flags -> bool) (tag : Z) (tags : list Z)
    (d : ann_data) (u : update_flags) (d' : ann_data) (u' : update_flags)
  : Prop :=
  length (proj d') = (length (proj d) + count_occ Z.eq_dec tags tag)%nat
  /\ (~ In tag tags -> proj d' = proj d /\ flag u' = flag u)
  /\ (In tag tags -> flag u' = false).

(** The tags of the extra-field words that [extra_fields_loop] goes through
    from row [bpi] on, [current_label_store] being the tag of that row. *)
Fixpoint extra_tags (fuel : nat) (file_bytes : byte_pairs)
    (current_label_store : Z) (bpi : nat) : list Z :=
  if current_label_store >? 59 then
    match fuel with
    | O => []
    | S fuel' =>
        match proc_extra_field current_label_store file_bytes bpi no_data
                update_all with
        | Ok (_, _, bpi') =>
            match row file_bytes bpi' with
            | Ok r =>
                current_label_store
                  :: extra_tags fuel' file_bytes (Z.shiftr (snd r) 2) bpi'
            | Raise _ => [current_label_store]
            end
        | Raise _ => []
        end
    end
  else [].

(** The tags of the extra-field words that follow the annotation whose
    first row is [bpi]. *)
Definition event_extra_tags (file_bytes : byte_pairs) (bpi : nat) : list Z :=
  match proc_core_fields file_bytes bpi with
  | Ok (_, _, bpi1) =>
      match row file_bytes bpi1 with
      | Ok r =>
          extra_tags (length file_bytes) file_bytes (Z.shiftr (snd r) 2) bpi1
      | Raise _ => []
      end
  | Raise _ => []
  end.

(** The running sample totals and the rows at which the outer loop of
    [extract_ann_data] starts a pass. *)
Inductive visits (fb : byte_pairs) (sampto : option Z) : Z -> nat -> Prop :=
| visits_start : visits fb sampto 0 0%nat
| visits_next (total : Z) (bpi : nat) (d : ann_data) (total' : Z)
    (bpi' : nat) (d' : ann_data) :
    visits fb sampto total bpi ->
    (Z.of_nat bpi <? Z.of_nat (length fb) - 1) = true ->
    ann_body fb total bpi d = Ok (total', bpi', d') ->
    past_sampto sampto total' = false ->
    visits fb sampto total' bpi'.

(** The one word of an annotation whose sample difference is [d] and whose
    store value is [store_code], and the skip form: the skip word, the four
    bytes of [d] modulo 2^32 as two 16-bit halves, high half first, each
    half low byte first, and the word of the annotation with difference 0. *)
Definition event_word (d store_code : Z) : list Z :=
  [Z.land d 255; Z.lor (Z.land (Z.shiftr d 8) 3) (Z.shiftl store_code 2)].

Definition skip_words (d store_code : Z) : list Z :=
  let u := d mod 4294967296 in
  let hi := u / 65536 in
  let lo := u mod 65536 in
  [0; Z.shiftl 59 2; hi mod 256; hi / 256; lo mod 256; lo / 256]
    ++ event_word 0 store_code.

(** What the writer puts in the file for one annotation: the sample
    difference, the store value, and the extra fields that get a word. *)
Record emitted : Type := mk_emitted {
  e_sd : Z;
  e_code : Z;
  e_num : option Z;
  e_subtype : option Z;
  e_chan : option Z;
  e_aux_note : option pystr
}.

Definition core_group (sd typecode : Z) : list Z :=
  if sd >? 1023 then
    [0; 236; Z.shiftr (Z.land sd 16711680) 16;
     Z.shiftr (Z.land sd 4278190080) 24; Z.land sd 255;
     Z.shiftr (Z.land sd 65280) 8; 0; 4 * typecode]
  else [Z.land sd 255; Z.shiftr (Z.land sd 768) 8 + 4 * typecode].

Definition aux_group (value : pystr) : list Z :=
  [Z.of_nat (length value); 252] ++ value
    ++ (if Nat.odd (length value) then [0] else []).

Definition opt_list {A : Type} (v : option A) : list A :=
  match v with
  | None => []
  | Some x => [x]
  end.

(** The extra fields of an annotation that get a word, in the order in
    which they are written. *)
Definition emitted_extras (e : emitted) : list field_value :=
  map f_num (opt_list (e_num e))
    ++ map f_subtype (opt_list (e_subtype e))
    ++ map f_chan (opt_list (e_chan e))
    ++ map f_aux_note (opt_list (e_aux_note e)).

(** The bytes of the word of an extra field. *)
Definition field_word (fv : field_value) : list Z :=
  match fv with
  | samptype _ _ => []
  | f_num value => [value; 240]
  | f_subtype value => [value; 244]
  | f_chan value => [value; 248]
  | f_aux_note value => aux_group value
  end.

Definition emitted_groups (e : emitted) : list (list Z) :=
  core_group (e_sd e) (e_code e) :: map field_word (emitted_extras e).

(** The cell [i] of a carried field gets a word when it differs from the
    cell before it, or from 0 for the first cell. *)
Definition carried_word (full_field : option (list Z)) (i : nat) : option Z :=
  match full_field with
  | None => None
  | Some full =>
      let v := nth i full 0 in
      if v =? nth i (0 :: full) 0 then None else Some v
  end.

Definition subtype_word (full_field : option (list Z)) (i : nat) : option Z :=
  match full_field with
  | None => None
  | Some full => let v := nth i full 0 in if v =? 0 then None else Some v
  end.

Definition aux_note_word (full_field : option (list pystr)) (i : nat)
  : option pystr :=
  match full_field with
  | None => None
  | Some full =>
      match nth i full [] with
      | [] => None
      | s => Some s
      end
  end.

(** The store value of a symbol of the standard table, 0 for any other. *)
Definition code_of (sym : pystr) : Z :=
  match typecode_of sym with
  | Ok c => c
  | Raise _ => 0
  end.

Definition symbols (self : Annotation) : list pystr :=
  match ann_symbol self with
  | Some l => l
  | None => []
  end.

Definition emitted_at (self : Annotation) (i : nat) : emitted :=
  mk_emitted (nth i (diffs 0 (ann_sample self)) 0)
    (code_of (nth i (symbols self) []))
    (carried_word (ann_num self) i)
    (subtype_word (ann_subtype self) i)
    (carried_word (ann_chan self) i)
    (aux_note_word (ann_aux_note self) i).

Definition emitted_of (self : Annotation) : list emitted :=
  map (emitted_at self) (seq 0 (length (ann_sample self))).

(** The six lists that reading back should give: the samples, the store
    values of the symbols, and each extra field as it is, or filled with its
    default when the object has none. *)
Definition field_or {A : Type} (dflt : A) (n : nat) (f : option (list A))
  : list A :=
  match f with
  | Some l => l
  | None => repeat dflt n
  end.

Definition data_of (self : Annotation) : ann_data :=
  let n := length (ann_sample self) in
  mk_ann_data (ann_sample self) (map code_of (symbols self))
    (field_or 0 n (ann_subtype self)) (field_or 0 n (ann_chan self))
    (field_or 0 n (ann_num self)) (field_or [] n (ann_aux_note self)).

(** Every field that the object has is as long as [sample]. *)
Definition lengths_agree (self : Annotation) : Prop :=
  let n := length (ann_sample self) in
  length (symbols self) = n
  /\ (forall l, ann_subtype self = Some l -> length l = n)
  /\ (forall l, ann_chan self = Some l -> length l = n)
  /\ (forall l, ann_num self = Some l -> length l = n)
  /\ (forall l, ann_aux_note self = Some l -> length l = n).

(** The header reader of a record that has no header file. *)
Definition no_header (F : float_model) : header_reader F :=
  fun _ => Raise ValueError.

(** A float model to run examples with: decimal literals without a
    fraction, read as integers. *)
Definition int_floats : float_model :=
  mk_float_model Z int_of_digits (fun _ => true) (fun x => x)
    (fun x => x =? 0) str_of_int (fun x => x <=? 0).

(** The rows of a list of bytes, two by two. *)
Fixpoint pairs_of (bs : list Z) : byte_pairs :=
  match bs with
  | a :: b :: bs' => (a, b) :: pairs_of bs'
  | _ => []
  end.

Definition emitted_pairs (e : emitted) : byte_pairs :=
  pairs_of (concat (emitted_groups e)).

(** The rows of the words of a list of extra fields. *)
Definition words_pairs (xs : list field_value) : byte_pairs :=
  concat (map (fun fv => pairs_of (field_word fv)) xs).

(** The rows of a file: the words of the annotations [es], then the two
    zero bytes that close it. *)
Definition stream_of (es : list emitted) : byte_pairs :=
  concat (map emitted_pairs es) ++ [(0, 0)].

(** What reading the words of one annotation adds to the six lists and to
    the running sample total. *)
Definition or_else {A : Type} (v : option A) (dflt : A) : A :=
  match v with
  | Some x => x
  | None => dflt
  end.

Definition read_emitted (st : ann_data * Z) (e : emitted) : ann_data * Z :=
  let (d, total) := st in
  (mk_ann_data (sample d ++ [total + e_sd e]) (label_store d ++ [e_code e])
     (subtype d ++ [or_else (e_subtype e) 0])
     (chan d ++ [or_else (e_chan e) (last (chan d) 0)])
     (num d ++ [or_else (e_num e) (last (num d) 0)])
     (aux_note d ++ [or_else (e_aux_note e) []]),
   total + e_sd e).

(** What reading one extra-field word adds. *)
Definition read_extra (st : ann_data * update_flags) (fv : field_value)
  : ann_data * update_flags :=
  let (d, u) := st in
  match fv with
  | samptype _ _ => (d, u)
  | f_num value =>
      (mk_ann_data (sample d) (label_store d) (subtype d) (chan d)
         (num d ++ [value]) (aux_note d),
       mk_update (upd_subtype u) (upd_chan u) false (upd_aux_note u))
  | f_subtype value =>
      (mk_ann_data (sample d) (label_store d) (subtype d ++ [value]) (chan d)
         (num d) (aux_note d),
       mk_update false (upd_chan u) (upd_num u) (upd_aux_note u))
  | f_chan value =>
      (mk_ann_data (sample d) (label_store d) (subtype d) (chan d ++ [value])
         (num d) (aux_note d),
       mk_update (upd_subtype u) false (upd_num u) (upd_aux_note u))
  | f_aux_note value =>
      (mk_ann_data (sample d) (label_store d) (subtype d) (chan d) (num d)
         (aux_note d ++ [value]),
       mk_update (upd_subtype u) (upd_chan u) (upd_num u) false)
  end.

(** The values that a word holds as they are: a [num] or [subtype] in
    0..127, a [chan] in 0..255, a note of at most 255 characters, each a
    code point in 0..255. *)
Definition valid_note (s : pystr) : Prop :=
  (length s <= 255)%nat /\ Forall (fun c => 0 <= c <= 255) s.

Definition valid_extra (fv : field_value) : Prop :=
  match fv with
  | samptype _ _ => False
  | f_num value => 0 <= value <= 127
  | f_subtype value => 0 <= value <= 127
  | f_chan value => 0 <= value <= 255
  | f_aux_note value => valid_note value
  end.

Definition valid_emitted (e : emitted) : Prop :=
  0 <= e_sd e <= 2147483647
  /\ 1 <= e_code e <= 41
  /\ Forall valid_extra (emitted_extras e).

(** A [uint8] cell. *)
Definition is_byte (b : Z) : Prop := 0 <= b <= 255.

(** A file whose cells are all [uint8]. *)
Definition rows_of_bytes (fb : byte_pairs) : Prop :=
  Forall (fun r => is_byte (fst r) /\ is_byte (snd r)) fb.

(** The tag of the first row, 0 when there is none. *)
Definition head_tag (fb : byte_pairs) : Z :=
  match fb with
  | r :: _ => Z.shiftr (snd r) 2
  | [] => 0
  end.

(** What [extra_bytes] gives for one field of [extra_write_fields]. *)
Definition extra_group (c : compact_fields) (f : extra_field) (i : nat)
  : result (list (list Z)) :=
  if extra_isblank c f then Ok []
  else
    value <- extra_value c f i ;;
    match value with
    | None => Ok []
    | Some fv => b <- field2bytes fv ;; Ok [b]
    end.

(** The words of one field for annotation [i]. *)
Definition field_groups (self : Annotation) (i : nat) (f : extra_field)
  : list (list Z) :=
  match f with
  | x_num => map field_word (map f_num (opt_list (carried_word (ann_num self) i)))
  | x_subtype =>
      map field_word
        (map f_subtype (opt_list (subtype_word (ann_subtype self) i)))
  | x_chan =>
      map field_word (map f_chan (opt_list (carried_word (ann_chan self) i)))
  | x_aux_note =>
      map field_word
        (map f_aux_note (opt_list (aux_note_word (ann_aux_note self) i)))
  end.

(** Every symbol of the object is in the standard table. *)
Definition symbols_known (self : Annotation) : Prop :=
  Forall (fun sym => exists c, typecode_of sym = Ok c) (symbols self).

(** No annotation at sample 0 has the comment symbol, the double quote;
    the reader takes such an annotation for a definition of the file. *)
Definition no_comment_at_0 (self : Annotation) : Prop :=
  forall i,
    (i < length (ann_sample self))%nat ->
    nth i (ann_sample self) 0 = 0 ->
    nth i (symbols self) [] <> [34].

(** The values of the extra fields are those that [check_field] accepts,
    and the notes fit a word. *)
Definition fields_in_range (self : Annotation) : Prop :=
  (forall l, ann_num self = Some l -> Forall (fun v => 0 <= v <= 127) l)
  /\ (forall l, ann_subtype self = Some l ->
                Forall (fun v => 0 <= v <= 127) l)
  /\ (forall l, ann_chan self = Some l -> Forall (fun v => 0 <= v <= 255) l)
  /\ (forall l, ann_aux_note self = Some l -> Forall valid_note l).

(** The sample differences, the first sample counted as one, lie in
    0 .. 2^31 - 1. *)
Definition diffs_in_range (self : Annotation) : Prop :=
  Forall (fun sd => 0 <= sd <= 2147483647) (diffs 0 (ann_sample self)).

(** The first [i] annotations of the six lists. *)
Definition first_annotations (i : nat) (d : ann_data) : ann_data :=
  mk_ann_data (firstn i (sample d)) (firstn i (label_store d))
    (firstn i (subtype d)) (firstn i (chan d)) (firstn i (num d))
    (firstn i (aux_note d)).

(** ** The sample range and the definitions of a file *)

(** *** [Annotation.apply_range] *)

(** [np.where(cond)[0]] for a test on the cells: the indices of the cells
    that pass it, in ascending order. *)
Fixpoint where_from (test : Z -> bool) (i : nat) (l : list Z) : list nat :=
  match l with
  | [] => []
  | x :: l' =>
      if test x then i :: where_from test (S i) l'
      else where_from test (S i) l'
  end.

(** [np.intersect1d] of two arrays of indices as [np.where] gives them:
    the indices that are in both, in ascending order. *)
Definition intersect1d (a b : list nat) : list nat :=
  filter (fun i => existsb (Nat.eqb i) b) a.

(** [a[-1]]. *)
Definition last_item (a : list Z) : result Z :=
  match a with
  | [] => Raise IndexError
  | _ => Ok (last a 0)
  end.

(** [apply_range], on the six data fields of the object. *)
Definition apply_range (d : ann_data) (sampfrom : Z) (sampto : option Z)
  : result ann_data :=
  sampto <-
    match sampto with
    | Some s => if s =? 0 then last_item (sample d) else Ok s
    | None => last_item (sample d)
    end ;;
  let kept_inds :=
    intersect1d (where_from (fun x => x >=? sampfrom) 0 (sample d))
      (where_from (fun x => x <=? sampto) 0 (sample d)) in
  s <- pick (sample d) kept_inds ;;
  l <- pick (label_store d) kept_inds ;;
  st <- pick (subtype d) kept_inds ;;
  c <- pick (chan d) kept_inds ;;
  n <- pick (num d) kept_inds ;;
  a <- pick (aux_note d) kept_inds ;;
  Ok (mk_ann_data s l st c n a).

(** *** [Annotation.calc_fs_bytes] *)

(** [data_bytes[i] = v], for an index of the list. *)
Fixpoint setitem {A : Type} (l : list A) (i : nat) (v : A) : list A :=
  match l, i with
  | [], _ => []
  | _ :: l', O => v :: l'
  | x :: l', S i' => x :: setitem l' i' v
  end.

(** [str(fs)]. *)
Definition str_of_fs {F : float_model} (fs : fs_value F) : pystr :=
  match fs with
  | FsInt n => str_of_int n
  | FsFloat x => str_of_float F x
  end.

(** [calc_fs_bytes]: the [fs] attribute as the call leaves it, and the
    bytes. *)
Definition calc_fs_bytes {F : float_model} (fs : option (fs_value F))
  : option (fs_value F) * list Z :=
  match fs with
  | None => (None, [])
  | Some v =>
      let data_bytes :=
        [0; 88; 0; 252; 35; 35; 32; 116; 105; 109; 101; 32; 114;
         101; 115; 111; 108; 117; 116; 105; 111; 110; 58; 32] in
      let v :=
        match v with
        | FsFloat x =>
            if float_is_int8 F x then FsInt (int_of_float F x) else v
        | FsInt _ => v
        end in
      let fschars := str_of_fs v in
      let ndigits := length fschars in
      let data_bytes := data_bytes ++ fschars in
      let data_bytes := setitem data_bytes 2 (Z.of_nat ndigits + 20) in
      let data_bytes :=
        data_bytes ++ (if Nat.odd ndigits then [0] else []) in
      (Some v, map astype_u1 data_bytes)
  end.

(** *** [custom_triplet_bytes] and [Annotation.calc_cl_bytes] *)

(** [ord] of the symbol is a TypeError unless the symbol is one
    character. *)
Definition custom_triplet_bytes (custom_triplet : custom_label)
  : result (list Z) :=
  let '(label_store_v, symbol, description) := custom_triplet in
  let head :=
    [0; 88;
     Z.of_nat (length description) + 3
       + Z.of_nat (length (str_of_int label_store_v));
     252] ++ str_of_int label_store_v ++ [32] in
  match symbol with
  | [c] =>
      let annbytes := head ++ [c] ++ [32] ++ description in
      Ok (annbytes ++ (if Nat.odd (length annbytes) then [0] else []))
  | _ => Raise TypeError
  end.

Fixpoint custom_bytes (rows : list custom_label) : result (list Z) :=
  match rows with
  | [] => Ok []
  | r :: rows' =>
      b <- custom_triplet_bytes r ;;
      rest <- custom_bytes rows' ;;
      Ok (b ++ rest)
  end.

(** [calc_cl_bytes], for [custom_labels] that is [None] or the DataFrame
    with the three columns that [_custom_labels_to_df] makes, given by its
    rows. *)
Definition calc_cl_bytes (custom_labels : option (list custom_label))
  : result (list Z) :=
  match custom_labels with
  | None => Ok []
  | Some rows =>
      let headbytes :=
        [0; 88; 30; 252; 35; 35; 32; 97; 110; 110; 111; 116; 97; 116; 105;
         111; 110; 32; 116; 121; 112; 101; 32; 100; 101; 102; 105; 110; 105;
         116; 105; 111; 110; 115] in
      let tailbytes :=
        [0; 88; 21; 252; 35; 35; 32; 101; 110; 100; 32; 111; 102; 32; 100;
         101; 102; 105; 110; 105; 116; 105; 111; 110; 115; 0] in
      b <- custom_bytes rows ;;
      Ok (map astype_u1 (headbytes ++ b ++ tailbytes))
  end.

(** ** More statement vocabulary *)

(** The cells of [l] whose flag in [keep] is set. *)
Fixpoint select {A : Type} (keep : list bool) (l : list A) : list A :=
  match keep, l with
  | b :: keep', x :: l' =>
      if b then x :: select keep' l' else select keep' l'
  | _, _ => []
  end.

Definition select_rows (keep : list bool) (d : ann_data) : ann_data :=
  mk_ann_data (select keep (sample d)) (select keep (label_store d))
    (select keep (subtype d)) (select keep (chan d)) (select keep (num d))
    (select keep (aux_note d)).

(** An annotation that the reader keeps: its store value is not 0, and it
    is not a comment (store value 22) at sample 0. *)
Definition is_kept (s l : Z) : bool :=
  negb (l =? 0) && negb ((s =? 0) && (l =? 22)).

Definition kept_flags (d : ann_data) : list bool :=
  map (fun sl => is_kept (fst sl) (snd sl))
    (combine (sample d) (label_store d)).

(** The last cell of the samples, which stands for [sampto] when there is
    none. *)
Definition range_end (d : ann_data) (sampto : option Z) : Z :=
  match sampto with
  | Some s => if s =? 0 then last (sample d) 0 else s
  | None => last (sample d) 0
  end.

Definition in_range (lo hi : Z) (s : Z) : bool := (lo <=? s) && (s <=? hi).

(** A numeric field that is set and not empty, with every cell in
    [lo .. hi]. *)
Definition cells_within (lo hi : Z) (item : option (list Z)) : Prop :=
  exists l, item = Some l /\ l <> [] /\ Forall (fun v => lo <= v <= hi) l.

(** A symbol that [check_field] accepts: one to three characters, none of
    them a space, a tab, a newline, a carriage return, a form feed or a
    vertical tab. *)
Definition symbol_ok (e : pystr) : Prop :=
  (1 <= length e <= 3)%nat /\ Forall (fun c => is_blank_char c = false) e.

(** A note that [check_field] accepts: no tab, newline, carriage return,
    form feed or vertical tab in it. *)
Definition note_ok (e : pystr) : Prop :=
  Forall (fun c => is_tab_or_newline c = false) e.

(** A field of strings that is set, with every cell as [ok] asks. *)
Definition strings_all (ok : pystr -> Prop) (item : option (list pystr))
  : Prop :=
  exists l, item = Some l /\ Forall ok l.

(** The notes of the comment annotations that define the file: the note
    for [fs], and the notes for the custom labels, one per label between
    the two lines that open and close the definitions. *)
Definition fs_note (n : Z) : pystr :=
  str "## time resolution: " ++ str_of_int n.

Definition label_note (r : custom_label) : pystr :=
  str_of_int (row_label_store r) ++ [32] ++ row_symbol r ++ [32]
    ++ row_description r.

Definition labels_notes (rows : list custom_label) : list pystr :=
  str "## annotation type definitions" :: map label_note rows
    ++ [str "## end of definitions"].

Definition definition_notes (fs : option Z)
    (custom_labels : option (list custom_label)) : list pystr :=
  match fs with
  | Some n => [fs_note n]
  | None => []
  end
  ++ match custom_labels with
     | Some rows => labels_notes rows
     | None => []
     end.

(** A comment annotation at the sample of the annotation before it. *)
Definition comment (note : pystr) : emitted :=
  mk_emitted 0 22 None None None (Some note).

(** What the reader makes of [m] comment annotations at sample 0 that
    have no other extra field. *)
Definition comments_data (notes : list pystr) : ann_data :=
  let m := length notes in
  mk_ann_data (repeat 0 m) (repeat 22 m) (repeat 0 m) (repeat 0 m)
    (repeat 0 m) notes.

(** The six lists of [a] followed by those of [b]. *)
Definition app_data (a b : ann_data) : ann_data :=
  mk_ann_data (sample a ++ sample b) (label_store a ++ label_store b)
    (subtype a ++ subtype b) (chan a ++ chan b) (num a ++ num b)
    (aux_note a ++ aux_note b).

(** What the reader makes of the eight bytes that close the definitions,
    a skip of -1 and a word of sample difference 1 and store value 0: an
    annotation with store value 0 at the sample before it. *)
Definition end_mark (total : Z) : ann_data :=
  mk_ann_data [total] [0] [0] [0] [0] [[]].

(** [fs] as [extract_ann_info] makes it from the decimal text of an
    integer. *)
Definition fs_as_read (F : float_model) (n : Z) : fs_value F :=
  let x := float_of_str F (str_of_int n) in
  if float_is_int8 F x then FsInt (int_of_float F x) else FsFloat x.

(** A custom label that the file can hold and the reader can parse: a
    store value that is not negative, a symbol of one character that is
    not whitespace, a description that is not empty and has no newline,
    bytes for all the characters, and a note of at most 255 characters. *)
Definition label_fits (r : custom_label) : Prop :=
  0 <= row_label_store r
  /\ (exists c, row_symbol r = [c] /\ is_space c = false /\ 0 <= c <= 255)
  /\ row_description r <> []
  /\ Forall (fun c => c <> 10 /\ 0 <= c <= 255) (row_description r)
  /\ (length (label_note r) <= 255)%nat.

(** The custom labels as the reader returns them: [None] when there is
    none. *)
Definition labels_as_read (custom_labels : option (list custom_label))
  : option (list custom_label) :=
  match custom_labels with
  | Some (r :: rows) => Some (r :: rows)
  | _ => None
  end.

(** The rows of the eight bytes that close the definitions. *)
Definition end_special_pairs : byte_pairs :=
  [(0, 236); (255, 255); (255, 255); (1, 0)].

(** The number of cells at the head of [l] that are at most [b]. *)
Fixpoint leading (b : Z) (l : list Z) : nat :=
  match l with
  | [] => 0%nat
  | x :: l' => if x <=? b then S (leading b l') else 0%nat
  end.

(** What the reading loop with the bound [b] makes of the words of the
    annotations [es]: it stops at the first annotation whose sample is
    past [b], and drops that one. *)
Fixpoint read_upto (b : Z) (es : list emitted) (st : ann_data * Z)
  : ann_data :=
  match es with
  | [] => fst st
  | e :: es' =>
      let st' := read_emitted st e in
      if b <? snd st' then fst st else read_upto b es' st'
  end.

(** The fields of the object that the writer reads. *)
Definition written_fields : list ann_field :=
  [fld_sample; fld_symbol; fld_subtype; fld_chan; fld_num; fld_aux_note].


(** * Proofs *)

(** ** The result monad *)

Lemma bind_Ok {A B : Type} (m : result A) (k : A -> result B) (b : B) :
  bind m k = Ok b -> exists a, m = Ok a /\ k a = Ok b.
Proof.
  destruct m as [a | e]; simpl; intros H.
  - exists a. split; [reflexivity | exact H].
  - discriminate H.
Qed.

Ltac bind_inv H :=
  let a := fresh "a" in
  let Ha := fresh "Ha" in
  apply bind_Ok in H; destruct H as [a [Ha H]].

(** ** Bytes and bits *)

Lemma land_255 (d : Z) : Z.land d 255 = d mod 256.
Proof. change 255 with (Z.ones 8). rewrite Z.land_ones by lia. reflexivity. Qed.

Lemma land_3 (d : Z) : Z.land d 3 = d mod 4.
Proof. change 3 with (Z.ones 2). rewrite Z.land_ones by lia. reflexivity. Qed.

Lemma mod_mul_div (a b c : Z) :
  0 < b -> 0 < c -> (a mod (b * c)) / b = (a / b) mod c.
Proof.
  intros Hb Hc.
  rewrite Z.rem_mul_r by lia.
  rewrite (Z.mul_comm b), Z.div_add by lia.
  rewrite Z.div_small by (apply Z.mod_pos_bound; lia).
  reflexivity.
Qed.

Lemma mod_mul_mod (a b c : Z) :
  0 < b -> 0 < c -> (a mod (b * c)) mod b = a mod b.
Proof.
  intros Hb Hc.
  rewrite Z.rem_mul_r by lia.
  rewrite (Z.mul_comm b), Z.mod_add by lia.
  apply Z.mod_mod. lia.
Qed.

Lemma masked_byte_1 (d : Z) :
  Z.shiftr (Z.land d 65280) 8 = (d / 256) mod 256.
Proof.
  rewrite Z.shiftr_land. change (Z.shiftr 65280 8) with 255.
  rewrite land_255, Z.shiftr_div_pow2 by lia. reflexivity.
Qed.

Lemma masked_byte_2 (d : Z) :
  Z.shiftr (Z.land d 16711680) 16 = (d / 65536) mod 256.
Proof.
  rewrite Z.shiftr_land. change (Z.shiftr 16711680 16) with 255.
  rewrite land_255, Z.shiftr_div_pow2 by lia. reflexivity.
Qed.

Lemma masked_byte_3 (d : Z) :
  Z.shiftr (Z.land d 4278190080) 24 = (d / 16777216) mod 256.
Proof.
  rewrite Z.shiftr_land. change (Z.shiftr 4278190080 24) with 255.
  rewrite land_255, Z.shiftr_div_pow2 by lia. reflexivity.
Qed.

Lemma masked_high_bits (d : Z) :
  Z.shiftr (Z.land d 768) 8 = (d / 256) mod 4.
Proof.
  rewrite Z.shiftr_land. change (Z.shiftr 768 8) with 3.
  rewrite land_3, Z.shiftr_div_pow2 by lia. reflexivity.
Qed.

(** Two bits below a value shifted by two places: the sum is the
    bitwise or. *)
Lemma add_tag_lor (x c : Z) :
  0 <= x < 4 -> x + 4 * c = Z.lor x (Z.shiftl c 2).
Proof.
  intros Hx.
  assert (Hd : Z.land x (Z.shiftl c 2) = 0).
  { apply Z.bits_inj'. intros n Hn.
    rewrite Z.land_spec, Z.bits_0.
    destruct (Z.ltb_spec n 2) as [Hlt | Hge].
    - rewrite (Z.shiftl_spec_low c 2 n) by lia. apply andb_false_r.
    - rewrite <- (Z.mod_small x (2 ^ 2)) by (simpl; lia).
      rewrite Z.mod_pow2_bits_high by lia. reflexivity. }
  rewrite <- Z.lxor_lor by exact Hd.
  rewrite <- Z.add_nocarry_lxor by exact Hd.
  rewrite Z.shiftl_mul_pow2 by lia. change (2 ^ 2) with 4. lia.
Qed.

Lemma event_word_eq (d c : Z) :
  [Z.land d 255; Z.shiftr (Z.land d 768) 8 + 4 * c] = event_word d c.
Proof.
  unfold event_word. f_equal. f_equal.
  rewrite masked_high_bits.
  rewrite land_3, Z.shiftr_div_pow2 by lia.
  apply add_tag_lor. apply Z.mod_pos_bound. lia.
Qed.

Lemma skip_words_eq (d c : Z) :
  [0; 236; Z.shiftr (Z.land d 16711680) 16;
   Z.shiftr (Z.land d 4278190080) 24; Z.land d 255;
   Z.shiftr (Z.land d 65280) 8; 0; 4 * c] = skip_words d c.
Proof.
  unfold skip_words, event_word.
  rewrite masked_byte_1, masked_byte_2, masked_byte_3, land_255.
  change 4294967296 with (65536 * 65536).
  rewrite mod_mul_div, mod_mul_mod by lia.
  change 65536 with (256 * 256).
  rewrite !mod_mul_div, !mod_mul_mod by lia.
  rewrite Z.div_div by lia.
  change (Z.shiftl 59 2) with 236.
  change (Z.land 0 255) with 0.
  change (Z.land (Z.shiftr 0 8) 3) with 0.
  rewrite Z.lor_0_l, Z.shiftl_mul_pow2 by lia.
  change (2 ^ 2) with 4. simpl app.
  change (256 * 256) with 65536. rewrite (Z.mul_comm c 4). reflexivity.
Qed.

(** ** [field2bytes] *)

(** C3, as amended.  For an annotation whose symbol has store value
    [store_code] in the standard table, [field2bytes] gives the one word
    [[d & 0xFF, (d >> 8 & 3) | (store_code << 2)]] whenever [d <= 1023], and
    for [d > 1023] the skip word [[0, 59 << 2]], the four bytes of [d] as an
    unsigned 32-bit value in two 16-bit halves, and the word of the
    annotation with difference 0.  The test is [sd > 1023] alone: a negative
    [d] takes the one-word branch. *)
Theorem field2bytes_samptype (d : Z) (sym : pystr) (store_code : Z) :
  typecode_of sym = Ok store_code ->
  field2bytes (samptype d sym)
  = Ok (if d >? 1023 then skip_words d store_code
        else event_word d store_code).
Proof.
  intros Hsym. unfold field2bytes. rewrite Hsym. cbn [bind].
  destruct (d >? 1023).
  - rewrite skip_words_eq. reflexivity.
  - rewrite event_word_eq. reflexivity.
Qed.

Lemma field2bytes_samptype_witness :
  typecode_of (str "N") = Ok 1
  /\ field2bytes (samptype 2000 (str "N"))
     = Ok (if 2000 >? 1023 then skip_words 2000 1 else event_word 2000 1).
Proof.
  split; [reflexivity |].
  apply (field2bytes_samptype 2000 (str "N") 1). reflexivity.
Defined.

(** C3 as it is written fails for a negative difference: for [d = -1] and
    the symbol [N] the writer gives the one word [[255, 7]], not the skip
    form. *)
Lemma field2bytes_negative_diff_no_skip :
  typecode_of (str "N") = Ok 1
  /\ field2bytes (samptype (-1) (str "N")) = Ok [255; 7]
  /\ field2bytes (samptype (-1) (str "N")) <> Ok (skip_words (-1) 1).
Proof.
  split; [reflexivity |]. split; [reflexivity |].
  vm_compute. discriminate.
Qed.


(** ** The checks of the fields *)

Lemma fold_min_ge (lo : Z) (a : list Z) (x : Z) :
  lo <= fold_left Z.min a x <-> lo <= x /\ Forall (fun y => lo <= y) a.
Proof.
  revert x. induction a as [| y a IH]; intros x; simpl.
  - split; [intros H; split; [exact H | constructor] | intros [H _]; exact H].
  - rewrite IH. split.
    + intros [Hm Ha]. split; [lia |]. constructor; [lia | exact Ha].
    + intros [Hx Ha]. inversion Ha; subst. split; [lia | assumption].
Qed.

Lemma fold_max_le (hi : Z) (a : list Z) (x : Z) :
  fold_left Z.max a x <= hi <-> x <= hi /\ Forall (fun y => y <= hi) a.
Proof.
  revert x. induction a as [| y a IH]; intros x; simpl.
  - split; [intros H; split; [exact H | constructor] | intros [H _]; exact H].
  - rewrite IH. split.
    + intros [Hm Ha]. split; [lia |]. constructor; [lia | exact Ha].
    + intros [Hx Ha]. inversion Ha; subst. split; [lia | assumption].
Qed.

Lemma check_range_Ok (lo hi : Z) (a : list Z) :
  check_range lo hi a = Ok tt
  <-> a <> [] /\ Forall (fun x => lo <= x <= hi) a.
Proof.
  unfold check_range. destruct a as [| x a]; simpl.
  - split; [discriminate | intros [H _]; congruence].
  - destruct (Z.ltb_spec (fold_left Z.min a x) lo) as [Hlo | Hlo].
    + split; [discriminate |]. intros [_ H].
      assert (lo <= fold_left Z.min a x); [| lia].
      apply fold_min_ge. inversion H; subst. split; [lia |].
      eapply Forall_impl; [| eassumption]. simpl. intros; lia.
    + apply fold_min_ge in Hlo. destruct Hlo as [Hx Ha].
      destruct (Z.gtb_spec (fold_left Z.max a x) hi) as [Hhi | Hhi].
      * split; [discriminate |]. intros [_ H].
        assert (fold_left Z.max a x <= hi); [| lia].
        apply fold_max_le. inversion H; subst. split; [lia |].
        eapply Forall_impl; [| eassumption]. simpl. intros; lia.
      * apply fold_max_le in Hhi. destruct Hhi as [Hx' Ha'].
        split; [intros _ | reflexivity]. split; [discriminate |].
        constructor; [lia |].
        rewrite Forall_forall in *. intros y Hy.
        specialize (Ha y Hy). specialize (Ha' y Hy). lia.
Qed.

(** What the check of [sample] accepts: a sample array that is not empty,
    has no negative cell, and whose differences (the first cell counted as
    one) lie between 0 and 2^31, both included. *)
Lemma check_field_sample_Ok (s : list Z) :
  check_field_sample s = Ok tt
  <-> s <> []
      /\ Forall (fun x => 0 <= x) s
      /\ Forall (fun x => 0 <= x <= 2147483648) (diffs 0 s).
Proof.
  unfold check_field_sample. destruct s as [| x s].
  - simpl. split; [discriminate | intros [H _]; congruence].
  - cbn [bind py_min]. set (ds := diffs 0 (x :: s)).
    destruct (Z.ltb_spec (fold_left Z.min s x) 0) as [Hlo | Hlo].
    + split; [discriminate |]. intros [_ [H _]].
      assert (0 <= fold_left Z.min s x); [| lia].
      apply fold_min_ge. inversion H; subst. split; assumption.
    + apply fold_min_ge in Hlo.
      assert (Hs : Forall (fun y => 0 <= y) (x :: s))
        by (constructor; tauto).
      assert (Hds : ds = (x - 0) :: diffs x s) by reflexivity.
      rewrite Hds. cbn [bind py_min py_max].
      destruct (Z.ltb_spec (fold_left Z.min (diffs x s) (x - 0)) 0)
        as [Hd | Hd].
      * split; [discriminate |]. intros [_ [_ H]].
        assert (0 <= fold_left Z.min (diffs x s) (x - 0)); [| lia].
        apply fold_min_ge. inversion H; subst. split; [lia |].
        eapply Forall_impl; [| eassumption]. simpl. intros; lia.
      * apply fold_min_ge in Hd. destruct Hd as [Hd0 Hd].
        destruct (Z.gtb_spec (fold_left Z.max (diffs x s) (x - 0)) 2147483648)
          as [Hm | Hm].
        -- split; [discriminate |]. intros [_ [_ H]].
           assert (fold_left Z.max (diffs x s) (x - 0) <= 2147483648);
             [| lia].
           apply fold_max_le. inversion H; subst. split; [lia |].
           eapply Forall_impl; [| eassumption]. simpl. intros; lia.
        -- apply fold_max_le in Hm. destruct Hm as [Hm0 Hm].
           split; [intros _ | reflexivity].
           split; [discriminate |]. split; [exact Hs |].
           constructor; [lia |].
           rewrite Forall_forall in *. intros y Hy.
           specialize (Hd y Hy). specialize (Hm y Hy). lia.
Qed.

(** C6.  The check of [sample] lets a sample difference of exactly 2^31
    through, although it is above 2^31 - 1: the array [[0, 2147483648]] is
    accepted, and the file written for it reads back with the second sample
    at -2147483648. *)
Theorem check_field_sample_accepts_2_31 :
  let self :=
    mk_Annotation [0; 2147483648] (Some [str "N"; str "N"]) None None None
      None None in
  check_field_sample (ann_sample self) = Ok tt
  /\ diffs 0 (ann_sample self) = [0; 2147483648]
  /\ (bs <- wr_ann_file self [] [] ;;
      fb <- reshape_pairs bs ;;
      extract_ann_data fb None)
     = Ok (mk_ann_data [0; -2147483648] [1; 1] [0; 0] [0; 0] [0; 0]
             [[]; []]).
Proof. repeat split; vm_compute; reflexivity. Qed.

(** ** The label map *)

(** No list of pairs that passes the check of [custom_labels] gets store
    values: [_create_label_map] stops at the read of its local name. *)
Lemma create_label_map_pairs (l : list (pystr * pystr)) :
  l <> [] ->
  check_field_custom_labels (cl_pairs l) = Ok tt ->
  _create_label_map (Some (cl_pairs l)) = Raise UnboundLocalError.
Proof.
  intros Hl Hc. unfold _create_label_map, _custom_labels_to_df.
  destruct l as [| p l]; [congruence |].
  cbn [custom_labels_truthy bind negb]. rewrite Hc. reflexivity.
Qed.

(** C2.  For the custom label [('#', 'Custom label')], given without a
    store value, [_create_label_map] raises UnboundLocalError: it allocates
    no store value at all. *)
Theorem create_label_map_allocates_nothing :
  _create_label_map (Some (cl_pairs [(str "#", str "Custom label")]))
  = Raise UnboundLocalError.
Proof. vm_compute. reflexivity. Qed.

(** ** The frequency of the header *)


(** ** Definition annotations *)

(** The custom labels that [extract_ann_info] hands back are [None] or a
    list that is not empty. *)
Lemma extract_ann_info_labels_not_empty (F : float_model)
    (potential_info_inds : set nat) (notes : list pystr)
    (fs : option (fs_value F)) (cl : option (list custom_label)) :
  extract_ann_info potential_info_inds notes = Ok (fs, cl) -> cl <> Some [].
Proof.
  unfold extract_ann_info. intros H. bind_inv H. destruct a as [fs' l].
  destruct l; injection H as _ <-; discriminate.
Qed.

(** C7.  A comment annotation at sample 0 whose text is
    [## time resolution: 360] does not set [fs] when another annotation
    comes before it: [extract_ann_info] is given the index set [{1}] but
    looks at the notes 0 .. len - 1, here the empty note of annotation 0.
    The file below holds the annotations (0, N), (0, comment with that
    text), (10, N). *)
Theorem extract_ann_info_misses_later_comment (F : float_model) :
  let fb :=
    [(0, 4); (0, 88); (23, 252); (35, 35); (32, 116); (105, 109); (101, 32);
     (114, 101); (115, 111); (108, 117); (116, 105); (111, 110); (58, 32);
     (51, 54); (48, 0); (10, 4); (0, 0)] in
  extract_ann_data fb None
  = Ok (mk_ann_data [0; 0; 10] [1; 22; 1] [0; 0; 0] [0; 0; 0] [0; 0; 0]
          [[]; str "## time resolution: 360"; []])
  /\ get_info_inds [0; 0; 10] [1; 22; 1]
       [[]; str "## time resolution: 360"; []]
     = ([1%nat], [1%nat])
  /\ @extract_ann_info F [1%nat] [[]; str "## time resolution: 360"; []]
     = Ok (None, None)
  /\ rdann_steps (no_header F) fb None
     = Ok (mk_read_annotation
             (mk_ann_data [0; 10] [1; 1] [0; 0] [0; 0] [0; 0] [[]; []])
             None None 1%nat).
Proof. repeat split; vm_compute; reflexivity. Qed.


(** ** The extra fields of one annotation *)

Lemma row_Ok_lt (fb : byte_pairs) (i : nat) (r : Z * Z) :
  row fb i = Ok r -> (i < length fb)%nat.
Proof.
  unfold row. destruct (nth_error fb i) eqn:E; [| discriminate].
  intros _. apply nth_error_Some. congruence.
Qed.

(** Where the reader stands after an extra-field word does not depend on
    the lists nor on the flags. *)
Lemma proc_extra_field_bpi (cls : Z) (fb : byte_pairs) (bpi : nat)
    (d d1 d0 : ann_data) (u u1 u0 : update_flags) (bpi1 : nat) :
  proc_extra_field cls fb bpi d u = Ok (d1, u1, bpi1) ->
  exists d2 u2, proc_extra_field cls fb bpi d0 u0 = Ok (d2, u2, bpi1).
Proof.
  unfold proc_extra_field.
  destruct (cls =? 61); [| destruct (cls =? 62); [| destruct (cls =? 60);
    [| destruct (cls =? 63)]]];
    try (destruct (row fb bpi) as [r | e]; cbn [bind];
         [| discriminate]);
    intros H; injection H as _ _ <-; eauto.
Qed.

Ltac proc_extra_field_cases cls fb bpi H :=
  unfold proc_extra_field in H;
  destruct (Z.eqb_spec cls 61);
    [| destruct (Z.eqb_spec cls 62);
       [| destruct (Z.eqb_spec cls 60); [| destruct (Z.eqb_spec cls 63)]]];
  try (destruct (row fb bpi) as [? | ?]; cbn [bind] in H; [| discriminate H]);
  injection H as <- <- <-.

Lemma proc_extra_field_core (cls : Z) (fb : byte_pairs) (bpi : nat)
    (d d1 : ann_data) (u u1 : update_flags) (bpi1 : nat) :
  proc_extra_field cls fb bpi d u = Ok (d1, u1, bpi1) ->
  sample d1 = sample d /\ label_store d1 = label_store d.
Proof. intros H. proc_extra_field_cases cls fb bpi H; split; reflexivity. Qed.

Section ExtraField.

(** One of the four extra fields: its list, its flag and its tag. *)
Variable A : Type.
Variable proj : ann_data -> list A.
Variable flag : update_flags -> bool.
Variable tag : Z.

Hypothesis step_hit :
  forall fb bpi d u d1 u1 bpi1,
    proc_extra_field tag fb bpi d u = Ok (d1, u1, bpi1) ->
    (exists x, proj d1 = proj d ++ [x]) /\ flag u1 = false.

Hypothesis step_miss :
  forall cls fb bpi d u d1 u1 bpi1,
    cls <> tag ->
    proc_extra_field cls fb bpi d u = Ok (d1, u1, bpi1) ->
    proj d1 = proj d /\ flag u1 = flag u.

Lemma extra_fields_loop_field (fuel : nat) (fb : byte_pairs) :
  forall cls bpi d u d' u' bpi',
    extra_fields_loop fuel fb cls bpi d u = Ok (d', u', bpi') ->
    field_follows proj flag tag (extra_tags fuel fb cls bpi) d u d' u'.
Proof.
  unfold field_follows.
  induction fuel as [| fuel IH]; intros cls bpi d u d' u' bpi' H;
    simpl in H |- *.
  - destruct (cls >? 59); [discriminate |].
    injection H as <- <- <-. simpl.
    split; [lia |]. split; [auto | tauto].
  - destruct (cls >? 59).
    2:{ injection H as <- <- <-. simpl.
        split; [lia |]. split; [auto | tauto]. }
    bind_inv H. destruct a as [[d1 u1] bpi1].
    bind_inv H. rename a into r.
    destruct (proc_extra_field_bpi _ _ _ _ _ no_data _ _ update_all _ Ha)
      as [d2 [u2 E]].
    rewrite E, Ha0.
    specialize (IH _ _ _ _ _ _ _ H).
    destruct IH as [IHlen [IHmiss IHhit]].
    set (tags := extra_tags fuel fb (Z.shiftr (snd r) 2) bpi1) in *.
    destruct (Z.eq_dec cls tag) as [-> | Hne].
    + destruct (step_hit _ _ _ _ _ _ _ Ha) as [[x Hx] Hf].
      cbn [count_occ]. destruct (Z.eq_dec tag tag) as [_ | C];
        [| congruence].
      split; [| split].
      * rewrite IHlen, Hx, length_app. simpl. lia.
      * intros Hn. exfalso. apply Hn. left. reflexivity.
      * intros _. destruct (in_dec Z.eq_dec tag tags) as [Hi | Hi].
        -- apply IHhit. exact Hi.
        -- destruct (IHmiss Hi) as [_ ->]. exact Hf.
    + destruct (step_miss _ _ _ _ _ _ _ _ Hne Ha) as [Hp Hf].
      cbn [count_occ]. destruct (Z.eq_dec cls tag) as [C | _];
        [congruence |].
      split; [| split].
      * rewrite IHlen, Hp. reflexivity.
      * intros Hn. rewrite <- Hp, <- Hf. apply IHmiss.
        intros Hi. apply Hn. right. exact Hi.
      * intros [C | Hi]; [congruence |]. apply IHhit. exact Hi.
Qed.

(** The inner loop only adds cells at the end of the list. *)
Lemma extra_fields_loop_extends (fuel : nat) (fb : byte_pairs) :
  forall cls bpi d u d' u' bpi',
    extra_fields_loop fuel fb cls bpi d u = Ok (d', u', bpi') ->
    exists ext, proj d' = proj d ++ ext.
Proof.
  induction fuel as [| fuel IH]; intros cls bpi d u d' u' bpi' H;
    simpl in H.
  - destruct (cls >? 59); [discriminate |].
    injection H as <- <- <-. exists []. symmetry. apply app_nil_r.
  - destruct (cls >? 59).
    2:{ injection H as <- <- <-. exists []. symmetry. apply app_nil_r. }
    bind_inv H. destruct a as [[d1 u1] bpi1].
    bind_inv H. rename a into r.
    destruct (IH _ _ _ _ _ _ _ H) as [ext Hext].
    destruct (Z.eq_dec cls tag) as [-> | Hne].
    + destruct (step_hit _ _ _ _ _ _ _ Ha) as [[x Hx] _].
      exists (x :: ext). rewrite Hext, Hx, <- app_assoc. reflexivity.
    + destruct (step_miss _ _ _ _ _ _ _ _ Hne Ha) as [Hp _].
      exists ext. rewrite Hext, Hp. reflexivity.
Qed.

End ExtraField.

Lemma extra_fields_loop_core (fuel : nat) (fb : byte_pairs) :
  forall cls bpi d u d' u' bpi',
    extra_fields_loop fuel fb cls bpi d u = Ok (d', u', bpi') ->
    sample d' = sample d /\ label_store d' = label_store d.
Proof.
  induction fuel as [| fuel IH]; intros cls bpi d u d' u' bpi' H;
    simpl in H.
  - destruct (cls >? 59); [discriminate |].
    injection H as <- <- <-. split; reflexivity.
  - destruct (cls >? 59).
    2:{ injection H as <- <- <-. split; reflexivity. }
    bind_inv H. destruct a as [[d1 u1] bpi1]. bind_inv H.
    destruct (proc_extra_field_core _ _ _ _ _ _ _ _ Ha) as [<- <-].
    eapply IH. eassumption.
Qed.

Ltac step_hit_tac :=
  let H := fresh "H" in
  let xfb := fresh "xfb" in
  let xbpi := fresh "xbpi" in
  intros xfb xbpi ? ? ? ? ? H;
  unfold proc_extra_field in H; cbn [Z.eqb Pos.eqb] in H;
  destruct (row xfb xbpi) as [? | ?]; cbn [bind] in H; [| discriminate H];
  injection H as <- <- <-; simpl; eauto.

Ltac step_miss_tac :=
  let H := fresh "H" in
  let Hne := fresh "Hne" in
  let xcls := fresh "xcls" in
  let xfb := fresh "xfb" in
  let xbpi := fresh "xbpi" in
  intros xcls xfb xbpi ? ? ? ? ? Hne H;
  proc_extra_field_cases xcls xfb xbpi H; simpl; solve [auto | congruence].

(** The four extra fields after the inner loop. *)
Lemma extra_fields_loop_lists (fuel : nat) (fb : byte_pairs) (cls : Z)
    (bpi : nat) (d : ann_data) (u : update_flags) (d' : ann_data)
    (u' : update_flags) (bpi' : nat) :
  extra_fields_loop fuel fb cls bpi d u = Ok (d', u', bpi') ->
  let tags := extra_tags fuel fb cls bpi in
  field_follows subtype upd_subtype 61 tags d u d' u'
  /\ field_follows chan upd_chan 62 tags d u d' u'
  /\ field_follows num upd_num 60 tags d u d' u'
  /\ field_follows aux_note upd_aux_note 63 tags d u d' u'.
Proof.
  intros H tags. subst tags. split; [| split; [| split]].
  - eapply (extra_fields_loop_field Z subtype upd_subtype 61);
      [step_hit_tac | step_miss_tac | exact H].
  - eapply (extra_fields_loop_field Z chan upd_chan 62);
      [step_hit_tac | step_miss_tac | exact H].
  - eapply (extra_fields_loop_field Z num upd_num 60);
      [step_hit_tac | step_miss_tac | exact H].
  - eapply (extra_fields_loop_field pystr aux_note upd_aux_note 63);
      [step_hit_tac | step_miss_tac | exact H].
Qed.

(** ** One pass of the outer loop *)

Lemma ann_body_inv (fb : byte_pairs) (total : Z) (bpi : nat) (d : ann_data)
    (total' : Z) (bpi' : nat) (d' : ann_data) :
  ann_body fb total bpi d = Ok (total', bpi', d') ->
  exists sd cls d1 u1,
    let d0 :=
      mk_ann_data (sample d ++ [total + sd]) (label_store d ++ [cls])
        (subtype d) (chan d) (num d) (aux_note d) in
    total' = total + sd
    /\ d' = update_extra_fields d1 u1
    /\ sample d1 = sample d0 /\ label_store d1 = label_store d0
    /\ (let tags := event_extra_tags fb bpi in
        field_follows subtype upd_subtype 61 tags d0 update_all d1 u1
        /\ field_follows chan upd_chan 62 tags d0 update_all d1 u1
        /\ field_follows num upd_num 60 tags d0 update_all d1 u1
        /\ field_follows aux_note upd_aux_note 63 tags d0 update_all d1 u1).
Proof.
  unfold ann_body, event_extra_tags. intros H.
  bind_inv H. destruct a as [[sd cls] bpi1]. rewrite Ha.
  bind_inv H. rename a into r. rewrite Ha0.
  bind_inv H. destruct a as [[d1 u1] bpi2].
  injection H as <- <- <-.
  exists sd, cls, d1, u1. cbv zeta.
  split; [reflexivity |]. split; [reflexivity |].
  destruct (extra_fields_loop_core _ _ _ _ _ _ _ _ _ Ha1) as [Hs Hl].
  split; [exact Hs |]. split; [exact Hl |].
  exact (extra_fields_loop_lists _ _ _ _ _ _ _ _ _ Ha1).
Qed.

(** A field gets exactly one cell in a pass when its tag comes at most
    once. *)
Lemma field_one_more {A : Type} (proj : ann_data -> list A)
    (flag : update_flags -> bool) (tag : Z) (tags : list Z)
    (d0 d1 : ann_data) (u1 : update_flags) (x : A) :
  flag update_all = true ->
  field_follows proj flag tag tags d0 update_all d1 u1 ->
  NoDup tags ->
  length (if flag u1 then proj d1 ++ [x] else proj d1)
  = S (length (proj d0)).
Proof.
  intros Hall [Hlen [Hmiss Hhit]] Hnd.
  destruct (in_dec Z.eq_dec tag tags) as [Hi | Hi].
  - rewrite (Hhit Hi), Hlen.
    pose proof (proj1 (NoDup_count_occ Z.eq_dec tags) Hnd tag) as Hle.
    pose proof (proj1 (count_occ_In Z.eq_dec tags tag) Hi) as Hge.
    lia.
  - destruct (Hmiss Hi) as [-> ->]. rewrite Hall, length_app. simpl. lia.
Qed.

(** A field has at least one cell after a pass. *)
Lemma field_not_empty {A : Type} (proj : ann_data -> list A)
    (flag : update_flags -> bool) (tag : Z) (tags : list Z)
    (d0 d1 : ann_data) (u1 : update_flags) (x : A) :
  flag update_all = true ->
  field_follows proj flag tag tags d0 update_all d1 u1 ->
  (if flag u1 then proj d1 ++ [x] else proj d1) <> [].
Proof.
  intros Hall [Hlen [Hmiss Hhit]].
  destruct (in_dec Z.eq_dec tag tags) as [Hi | Hi].
  - rewrite (Hhit Hi).
    pose proof (proj1 (count_occ_In Z.eq_dec tags tag) Hi) as Hge.
    intros E. rewrite E in Hlen. simpl in Hlen. lia.
  - destruct (Hmiss Hi) as [_ ->]. rewrite Hall.
    intros E. apply app_eq_nil in E. destruct E as [_ E]. discriminate.
Qed.

(** A field whose tag does not come gets the default cell. *)
Lemma field_default {A : Type} (proj : ann_data -> list A)
    (flag : update_flags -> bool) (tag : Z) (tags : list Z)
    (d0 d1 : ann_data) (u1 : update_flags) (x : A) :
  flag update_all = true ->
  field_follows proj flag tag tags d0 update_all d1 u1 ->
  ~ In tag tags ->
  proj d1 = proj d0
  /\ (if flag u1 then proj d1 ++ [x] else proj d1) = proj d0 ++ [x].
Proof.
  intros Hall [_ [Hmiss _]] Hi.
  destruct (Hmiss Hi) as [-> ->]. rewrite Hall. split; reflexivity.
Qed.

Lemma ann_body_sample (fb : byte_pairs) (total : Z) (bpi : nat)
    (d : ann_data) (total' : Z) (bpi' : nat) (d' : ann_data) :
  ann_body fb total bpi d = Ok (total', bpi', d') ->
  sample d' = sample d ++ [total']
  /\ exists cls, label_store d' = label_store d ++ [cls].
Proof.
  intros H. apply ann_body_inv in H.
  destruct H as [sd [cls [d1 [u1 [-> [-> [Hs [Hl _]]]]]]]].
  simpl in *. split; [exact Hs | exists cls; exact Hl].
Qed.

Lemma pop_Ok {A : Type} (a : list A) :
  a <> [] -> pop a = Ok (removelast a).
Proof. destruct a; [congruence | reflexivity]. Qed.

Lemma pop_inv {A : Type} (a b : list A) :
  pop a = Ok b -> b = removelast a.
Proof. destruct a; [discriminate |]. intros H. injection H as <-. reflexivity. Qed.

Lemma length_removelast {A : Type} (a : list A) :
  length (removelast a) = pred (length a).
Proof.
  rewrite removelast_firstn_len, length_firstn. lia.
Qed.

Lemma ann_body_rm_last (fb : byte_pairs) (total : Z) (bpi : nat)
    (d : ann_data) (total' : Z) (bpi' : nat) (d' : ann_data) :
  ann_body fb total bpi d = Ok (total', bpi', d') ->
  rm_last d' = Ok (without_last d').
Proof.
  intros H. apply ann_body_inv in H.
  destruct H as [sd [cls [d1 [u1 [_ [-> [Hs [Hl Hf]]]]]]]].
  cbv zeta in Hf. destruct Hf as [Hst [Hc [Hn Ha]]].
  unfold rm_last, without_last, update_extra_fields.
  cbn [sample label_store subtype chan num aux_note].
  rewrite Hs, Hl. cbn [sample label_store].
  rewrite (pop_Ok (sample d ++ _)), (pop_Ok (label_store d ++ _));
    try (intros E; apply app_eq_nil in E; destruct E; discriminate).
  cbn [bind].
  rewrite (pop_Ok _ (field_not_empty subtype upd_subtype 61 _ _ _ _ 0
                       eq_refl Hst)).
  rewrite (pop_Ok _ (field_not_empty chan upd_chan 62 _ _ _ _
                       (last (chan d1) 0) eq_refl Hc)).
  rewrite (pop_Ok _ (field_not_empty num upd_num 60 _ _ _ _
                       (last (num d1) 0) eq_refl Hn)).
  cbn [bind].
  rewrite pop_Ok
    by exact (field_not_empty aux_note upd_aux_note 63 _ _ _ _ [] eq_refl Ha).
  reflexivity.
Qed.

(** ** Carry-over *)

(** C4.  In every pass of the reading loop, a field for which the
    annotation has no extra-field word gets its carried or default cell:
    [chan] (tag 62) and [num] (tag 60) repeat the last cell read so far, 0
    when there is none; [subtype] (tag 61) gets 0 and [aux_note] (tag 63)
    the empty string.  A file with [chan] given as 3 for the first of three
    annotations reads as [chan = [3, 3, 3]]; with [subtype] given as 5 for
    the first, as [subtype = [5, 0, 0]]. *)
Theorem extra_fields_carry_or_reset :
  (forall fb total bpi d total' bpi' d',
      ann_body fb total bpi d = Ok (total', bpi', d') ->
      let tags := event_extra_tags fb bpi in
      (~ In 62 tags -> chan d' = chan d ++ [last (chan d) 0])
      /\ (~ In 60 tags -> num d' = num d ++ [last (num d) 0])
      /\ (~ In 61 tags -> subtype d' = subtype d ++ [0])
      /\ (~ In 63 tags -> aux_note d' = aux_note d ++ [[]]))
  /\ extract_ann_data [(5, 4); (3, 248); (5, 4); (5, 4); (0, 0)] None
     = Ok (mk_ann_data [5; 10; 15] [1; 1; 1] [0; 0; 0] [3; 3; 3] [0; 0; 0]
             [[]; []; []])
  /\ extract_ann_data [(5, 4); (5, 244); (5, 4); (5, 4); (0, 0)] None
     = Ok (mk_ann_data [5; 10; 15] [1; 1; 1] [5; 0; 0] [0; 0; 0] [0; 0; 0]
             [[]; []; []]).
Proof.
  split; [| split; reflexivity].
  intros fb total bpi d total' bpi' d' H tags.
  apply ann_body_inv in H.
  destruct H as [sd [cls [d1 [u1 [_ [-> [_ [_ Hf]]]]]]]].
  cbv zeta in Hf. fold tags in Hf. destruct Hf as [Hst [Hc [Hn Ha]]].
  unfold update_extra_fields.
  cbn [sample label_store subtype chan num aux_note].
  repeat split; intros Hi.
  - destruct (field_default chan upd_chan 62 _ _ _ _ (last (chan d1) 0)
                eq_refl Hc Hi) as [E ->].
    rewrite E. reflexivity.
  - destruct (field_default num upd_num 60 _ _ _ _ (last (num d1) 0)
                eq_refl Hn Hi) as [E ->].
    rewrite E. reflexivity.
  - destruct (field_default subtype upd_subtype 61 _ _ _ _ 0
                eq_refl Hst Hi) as [_ ->].
    reflexivity.
  - destruct (field_default aux_note upd_aux_note 63 _ _ _ _ []
                eq_refl Ha Hi) as [_ E].
    exact E.
Qed.

Lemma extra_fields_carry_or_reset_witness :
  ann_body [(5, 4); (3, 248); (5, 4); (0, 0)] 5 2%nat
    (mk_ann_data [5] [1] [0] [3] [0] [[]])
  = Ok (10, 3%nat, mk_ann_data [5; 10] [1; 1] [0; 0] [3; 3] [0; 0] [[]; []])
  /\ ~ In 62 (event_extra_tags [(5, 4); (3, 248); (5, 4); (0, 0)] 2%nat)
  /\ [3; 3] = [3] ++ [last [3] 0].
Proof.
  assert (Hb : ann_body [(5, 4); (3, 248); (5, 4); (0, 0)] 5 2%nat
                 (mk_ann_data [5] [1] [0] [3] [0] [[]])
               = Ok (10, 3%nat,
                     mk_ann_data [5; 10] [1; 1] [0; 0] [3; 3] [0; 0]
                       [[]; []])) by reflexivity.
  assert (Hn : ~ In 62 (event_extra_tags [(5, 4); (3, 248); (5, 4); (0, 0)]
                          2%nat)) by (simpl; tauto).
  split; [exact Hb |]. split; [exact Hn |].
  exact (proj1 (proj1 extra_fields_carry_or_reset _ _ _ _ _ _ _ Hb) Hn).
Defined.

(** ** Equal lengths *)

(** A pass of the reading loop over an annotation with at most one
    extra-field word of each tag adds one cell to each list. *)
Lemma ann_body_same_length (fb : byte_pairs) (total : Z) (bpi : nat)
    (d : ann_data) (total' : Z) (bpi' : nat) (d' : ann_data) :
  same_length d ->
  NoDup (event_extra_tags fb bpi) ->
  ann_body fb total bpi d = Ok (total', bpi', d') ->
  same_length d' /\ length (sample d') = S (length (sample d)).
Proof.
  intros [Hl [Hst [Hc [Hn Ha]]]] Hnd H.
  apply ann_body_inv in H.
  destruct H as [sd [cls [d1 [u1 [_ [-> [Hs1 [Hl1 Hf]]]]]]]].
  cbv zeta in Hf. destruct Hf as [Fst [Fc [Fn Fa]]].
  unfold same_length, update_extra_fields.
  cbn [sample label_store subtype chan num aux_note].
  rewrite Hs1, Hl1. cbn [sample label_store].
  rewrite (field_one_more subtype upd_subtype 61 _ _ _ _ 0 eq_refl Fst Hnd).
  rewrite (field_one_more chan upd_chan 62 _ _ _ _ (last (chan d1) 0)
             eq_refl Fc Hnd).
  rewrite (field_one_more num upd_num 60 _ _ _ _ (last (num d1) 0)
             eq_refl Fn Hnd).
  rewrite (field_one_more aux_note upd_aux_note 63 _ _ _ _ [] eq_refl
             Fa Hnd).
  cbn [sample label_store subtype chan num aux_note].
  rewrite !length_app. simpl. repeat split; lia.
Qed.

Lemma rm_last_same_length (d d' : ann_data) :
  same_length d -> rm_last d = Ok d' -> same_length d'.
Proof.
  intros [Hl [Hst [Hc [Hn Ha]]]] H. unfold rm_last in H.
  repeat (let a := fresh "a" in
          let E := fresh "E" in
          apply bind_Ok in H; destruct H as [a [E H]];
          apply pop_inv in E; subst a).
  injection H as <-.
  unfold same_length. cbn [sample label_store subtype chan num aux_note].
  rewrite !length_removelast. repeat split; lia.
Qed.

(** C10.  The six lists start with one length; a pass of the reading loop
    over an annotation that has at most one extra-field word of each tag
    adds exactly one cell to each of them; and dropping the last annotation
    keeps the lengths equal. *)
Theorem reading_loop_same_length :
  same_length no_data
  /\ (forall fb total bpi d total' bpi' d',
         same_length d ->
         NoDup (event_extra_tags fb bpi) ->
         ann_body fb total bpi d = Ok (total', bpi', d') ->
         same_length d'
         /\ length (sample d') = S (length (sample d)))
  /\ (forall d d', same_length d -> rm_last d = Ok d' -> same_length d').
Proof.
  split; [| split].
  - repeat split.
  - intros fb total bpi d total' bpi' d' Hs Hnd H.
    exact (ann_body_same_length fb total bpi d total' bpi' d' Hs Hnd H).
  - intros d d' Hs H. exact (rm_last_same_length d d' Hs H).
Qed.

Lemma reading_loop_same_length_witness :
  same_length (mk_ann_data [5] [1] [0] [3] [0] [[]])
  /\ NoDup (event_extra_tags
              [(5, 4); (3, 248); (5, 4); (7, 248); (9, 244); (0, 0)] 2%nat)
  /\ same_length
       (mk_ann_data [5; 10] [1; 1] [0; 9] [3; 7] [0; 0] [[]; []]).
Proof.
  assert (Hs : same_length (mk_ann_data [5] [1] [0] [3] [0] [[]]))
    by (repeat split).
  assert (Hn : NoDup (event_extra_tags
              [(5, 4); (3, 248); (5, 4); (7, 248); (9, 244); (0, 0)] 2%nat)).
  { change (NoDup [62; 61]).
    repeat constructor; simpl; intros H; decompose [or] H;
      try discriminate; tauto. }
  split; [exact Hs |]. split; [exact Hn |].
  refine (proj1 (proj1 (proj2 reading_loop_same_length)
                   [(5, 4); (3, 248); (5, 4); (7, 248); (9, 244); (0, 0)]
                   5 2%nat _ 10 5%nat _ Hs Hn _)).
  reflexivity.
Defined.

(** The lists that [extract_ann_data] returns have one length when every
    annotation that the loop reads has at most one extra-field word of each
    tag. *)
Lemma extract_ann_data_same_length (fb : byte_pairs) (sampto : option Z)
    (d : ann_data) :
  (forall total bpi,
      visits fb sampto total bpi -> NoDup (event_extra_tags fb bpi)) ->
  extract_ann_data fb sampto = Ok d ->
  same_length d.
Proof.
  intros Hwf. unfold extract_ann_data.
  assert (Hloop : forall fuel total bpi d0,
             visits fb sampto total bpi ->
             same_length d0 ->
             ann_loop fuel fb sampto total bpi d0 = Ok d ->
             same_length d).
  { induction fuel as [| fuel IH]; intros total bpi d0 Hv Hs H;
      cbn [ann_loop] in H;
      destruct (Z.of_nat bpi <? Z.of_nat (length fb) - 1) eqn:Hc;
      try discriminate; try (injection H as <-; exact Hs).
    bind_inv H. destruct a as [[t1 bpi1] d1].
    destruct (ann_body_same_length _ _ _ _ _ _ _ Hs (Hwf _ _ Hv) Ha)
      as [Hs1 _].
    destruct (past_sampto sampto t1) eqn:Hp.
    - exact (rm_last_same_length _ _ Hs1 H).
    - apply (IH t1 bpi1 d1); [| exact Hs1 | exact H].
      exact (visits_next fb sampto _ _ _ _ _ _ Hv Hc Ha Hp). }
  apply Hloop; [constructor |]. repeat split.
Qed.


(** ** The upper sample bound *)

Lemma ann_loop_below_sampto (fb : byte_pairs) (b : Z) (fuel : nat) :
  b <> 0 ->
  forall total bpi d d',
    Forall (fun s => s <= b) (sample d) ->
    ann_loop fuel fb (Some b) total bpi d = Ok d' ->
    Forall (fun s => s <= b) (sample d').
Proof.
  intros Hb. induction fuel as [| fuel IH]; intros total bpi d d' Hd H;
    simpl in H.
  - destruct (Z.of_nat bpi <? Z.of_nat (length fb) - 1); [discriminate |].
    injection H as <-. exact Hd.
  - destruct (Z.of_nat bpi <? Z.of_nat (length fb) - 1).
    2:{ injection H as <-. exact Hd. }
    bind_inv H. destruct a as [[total1 bpi1] d1].
    destruct (ann_body_sample _ _ _ _ _ _ _ Ha) as [Hs _].
    destruct (negb (b =? 0) && (b <? total1)) eqn:Hp.
    + rewrite (ann_body_rm_last _ _ _ _ _ _ _ Ha) in H.
      injection H as <-. simpl. rewrite Hs, removelast_last. exact Hd.
    + apply (IH _ _ _ _) in H; [exact H |].
      rewrite Hs. apply Forall_app. split; [exact Hd |].
      constructor; [| constructor].
      apply andb_false_iff in Hp. destruct Hp as [Hp | Hp].
      * apply negb_false_iff, Z.eqb_eq in Hp. congruence.
      * apply Z.ltb_ge in Hp. exact Hp.
Qed.

Lemma extra_fields_loop_extend_lists (fuel : nat) (fb : byte_pairs)
    (cls : Z) (bpi : nat) (d : ann_data) (u : update_flags) (d' : ann_data)
    (u' : update_flags) (bpi' : nat) :
  extra_fields_loop fuel fb cls bpi d u = Ok (d', u', bpi') ->
  (exists e, subtype d' = subtype d ++ e)
  /\ (exists e, chan d' = chan d ++ e)
  /\ (exists e, num d' = num d ++ e)
  /\ (exists e, aux_note d' = aux_note d ++ e).
Proof.
  intros H. split; [| split; [| split]].
  - eapply (extra_fields_loop_extends Z subtype upd_subtype 61);
      [step_hit_tac | step_miss_tac | exact H].
  - eapply (extra_fields_loop_extends Z chan upd_chan 62);
      [step_hit_tac | step_miss_tac | exact H].
  - eapply (extra_fields_loop_extends Z num upd_num 60);
      [step_hit_tac | step_miss_tac | exact H].
  - eapply (extra_fields_loop_extends pystr aux_note upd_aux_note 63);
      [step_hit_tac | step_miss_tac | exact H].
Qed.

(** What a pass of the reading loop leaves: each of the four lists of
    extra fields is the list before the pass with cells added at its end,
    as many as [field_follows] says. *)
Lemma ann_body_extends (fb : byte_pairs) (total : Z) (bpi : nat)
    (d : ann_data) (total' : Z) (bpi' : nat) (d' : ann_data) :
  ann_body fb total bpi d = Ok (total', bpi', d') ->
  exists sd cls d1 u1,
    let d0 :=
      mk_ann_data (sample d ++ [total + sd]) (label_store d ++ [cls])
        (subtype d) (chan d) (num d) (aux_note d) in
    d' = update_extra_fields d1 u1
    /\ sample d1 = sample d0 /\ label_store d1 = label_store d0
    /\ (let tags := event_extra_tags fb bpi in
        field_follows subtype upd_subtype 61 tags d0 update_all d1 u1
        /\ field_follows chan upd_chan 62 tags d0 update_all d1 u1
        /\ field_follows num upd_num 60 tags d0 update_all d1 u1
        /\ field_follows aux_note upd_aux_note 63 tags d0 update_all d1 u1)
    /\ (exists e, subtype d1 = subtype d ++ e)
    /\ (exists e, chan d1 = chan d ++ e)
    /\ (exists e, num d1 = num d ++ e)
    /\ (exists e, aux_note d1 = aux_note d ++ e).
Proof.
  unfold ann_body, event_extra_tags. intros H.
  bind_inv H. destruct a as [[sd cls] bpi1]. rewrite Ha.
  bind_inv H. rename a into r. rewrite Ha0.
  bind_inv H. destruct a as [[d1 u1] bpi2].
  injection H as <- <- <-.
  exists sd, cls, d1, u1. cbv zeta.
  split; [reflexivity |].
  destruct (extra_fields_loop_core _ _ _ _ _ _ _ _ _ Ha1) as [Hs Hl].
  split; [exact Hs |]. split; [exact Hl |].
  split; [exact (extra_fields_loop_lists _ _ _ _ _ _ _ _ _ Ha1) |].
  exact (extra_fields_loop_extend_lists _ _ _ _ _ _ _ _ _ Ha1).
Qed.

Lemma removelast_one_more {A : Type} (l l' ext : list A) :
  l' = l ++ ext -> length l' = S (length l) -> removelast l' = l.
Proof.
  intros -> Hlen. rewrite length_app in Hlen.
  destruct ext as [| x [| y ext]]; simpl in Hlen; try lia.
  apply removelast_last.
Qed.

(** One extra field after a pass in which its tag comes at most once:
    without its last cell it is as it was. *)
Lemma field_without_last {A : Type} (proj : ann_data -> list A)
    (flag : update_flags -> bool) (tag : Z) (tags : list Z)
    (d0 d1 : ann_data) (u1 : update_flags) (x : A) (l : list A) :
  flag update_all = true ->
  field_follows proj flag tag tags d0 update_all d1 u1 ->
  NoDup tags ->
  proj d0 = l ->
  (exists e, proj d1 = l ++ e) ->
  removelast (if flag u1 then proj d1 ++ [x] else proj d1) = l.
Proof.
  intros Hall Hf Hnd H0 [e He].
  pose proof (field_one_more proj flag tag tags d0 d1 u1 x Hall Hf Hnd)
    as Hlen.
  rewrite H0 in Hlen.
  destruct (flag u1).
  - apply (removelast_one_more l _ (e ++ [x])); [| exact Hlen].
    rewrite He, <- app_assoc. reflexivity.
  - apply (removelast_one_more l _ e); assumption.
Qed.

(** A pass over an annotation with at most one extra-field word of each
    tag, then [rm_last]: the six lists are as they were before the pass. *)
Lemma ann_body_without_last (fb : byte_pairs) (total : Z) (bpi : nat)
    (d : ann_data) (total' : Z) (bpi' : nat) (d' : ann_data) :
  NoDup (event_extra_tags fb bpi) ->
  ann_body fb total bpi d = Ok (total', bpi', d') ->
  without_last d' = d.
Proof.
  intros Hnd H. apply ann_body_extends in H.
  destruct H as [sd [cls [d1 [u1 [-> [Hs [Hl [Hf [Est [Ec [En Ea]]]]]]]]]]].
  cbv zeta in Hf. destruct Hf as [Fst [Fc [Fn Fa]]].
  unfold without_last, update_extra_fields.
  cbn [sample label_store subtype chan num aux_note].
  rewrite Hs, Hl. cbn [sample label_store]. rewrite !removelast_last.
  rewrite (field_without_last subtype upd_subtype 61 _ _ _ _ 0 (subtype d)
             eq_refl Fst Hnd eq_refl Est).
  rewrite (field_without_last chan upd_chan 62 _ _ _ _ (last (chan d1) 0)
             (chan d) eq_refl Fc Hnd eq_refl Ec).
  rewrite (field_without_last num upd_num 60 _ _ _ _ (last (num d1) 0)
             (num d) eq_refl Fn Hnd eq_refl En).
  rewrite (field_without_last aux_note upd_aux_note 63 _ _ _ _ []
             (aux_note d) eq_refl Fa Hnd eq_refl Ea).
  destruct d; reflexivity.
Qed.

(** A [sampto] of 0 is no bound. *)
Lemma ann_loop_sampto_0 (file_bytes : byte_pairs) (fuel : nat) :
  forall total bpi d,
    ann_loop fuel file_bytes (Some 0) total bpi d
    = ann_loop fuel file_bytes None total bpi d.
Proof.
  induction fuel as [| fuel IH]; intros total bpi d; cbn [ann_loop];
    [reflexivity |].
  destruct (Z.of_nat bpi <? Z.of_nat (length file_bytes) - 1);
    [| reflexivity].
  destruct (ann_body file_bytes total bpi d) as [[[t' bpi'] d'] | x];
    [| reflexivity].
  cbn [bind]. change (past_sampto (Some 0) t') with false.
  change (past_sampto None t') with false. cbn iota. apply IH.
Qed.

(** C8, as amended.  For an upper sample bound [b] other than 0: the pass
    of the reading loop whose running sample total gets above [b] ends the
    loop, and what is returned is the six lists of that pass, each without
    its last cell; when the annotation of that pass has at most one
    extra-field word of each tag, that is the six lists as they were
    before the pass, with nothing left of the annotation.  A pass whose
    total stays at or below [b] goes on to the next one; so every sample
    that [extract_ann_data] returns is at most [b].  A bound of 0 is
    taken as no bound: the file is read as it is without one. *)
Theorem extract_ann_data_sampto :
  (forall fuel fb b total bpi d total' bpi' d',
      b <> 0 ->
      Z.of_nat bpi < Z.of_nat (length fb) - 1 ->
      ann_body fb total bpi d = Ok (total', bpi', d') ->
      (b < total' ->
       ann_loop (S fuel) fb (Some b) total bpi d = Ok (without_last d')
       /\ (NoDup (event_extra_tags fb bpi) ->
           ann_loop (S fuel) fb (Some b) total bpi d = Ok d))
      /\ (total' <= b ->
          ann_loop (S fuel) fb (Some b) total bpi d
          = ann_loop fuel fb (Some b) total' bpi' d'))
  /\ (forall fb b d,
         b <> 0 ->
         extract_ann_data fb (Some b) = Ok d ->
         Forall (fun s => s <= b) (sample d))
  /\ (forall fb, extract_ann_data fb (Some 0) = extract_ann_data fb None).
Proof.
  split; [| split; [| intros fb; apply ann_loop_sampto_0]].
  - intros fuel fb b total bpi d total' bpi' d' Hb Hlt H.
    cbn [ann_loop]. apply Z.ltb_lt in Hlt. rewrite Hlt, H. cbn [bind].
    unfold past_sampto, sampto_truthy.
    apply Z.eqb_neq in Hb. rewrite Hb. cbn [negb andb].
    split; intros Hc.
    + apply Z.ltb_lt in Hc. rewrite Hc.
      rewrite (ann_body_rm_last _ _ _ _ _ _ _ H).
      split; [reflexivity |]. intros Hnd.
      rewrite (ann_body_without_last _ _ _ _ _ _ _ Hnd H). reflexivity.
    + apply Z.ltb_ge in Hc. rewrite Hc. reflexivity.
  - intros fb b d Hb H. unfold extract_ann_data in H.
    eapply ann_loop_below_sampto; [exact Hb | | exact H].
    constructor.
Qed.

Lemma extract_ann_data_sampto_witness :
  let fb := [(5, 4); (5, 4); (3, 248); (5, 4); (0, 0)] in
  let d := mk_ann_data [5] [1] [0] [0] [0] [[]] in
  ann_body fb 5 1%nat d
  = Ok (10, 3%nat, mk_ann_data [5; 10] [1; 1] [0; 0] [0; 3] [0; 0] [[]; []])
  /\ NoDup (event_extra_tags fb 1%nat)
  /\ ann_loop 3 fb (Some 7) 5 1%nat d = Ok d
  /\ extract_ann_data fb (Some 7) = Ok d
  /\ Forall (fun s => s <= 7) (sample d).
Proof.
  intros fb d.
  assert (Hb : ann_body fb 5 1%nat d
               = Ok (10, 3%nat,
                     mk_ann_data [5; 10] [1; 1] [0; 0] [0; 3] [0; 0]
                       [[]; []])) by reflexivity.
  assert (Hn : NoDup (event_extra_tags fb 1%nat)).
  { change (NoDup [62]). repeat constructor. simpl. tauto. }
  assert (Hr : extract_ann_data fb (Some 7) = Ok d) by reflexivity.
  assert (H7 : 7 <> 0) by discriminate.
  assert (Hlt : Z.of_nat 1 < Z.of_nat (length fb) - 1) by (simpl; lia).
  assert (Hgt : 7 < 10) by lia.
  split; [exact Hb |]. split; [exact Hn |].
  split.
  - exact (proj2 (proj1 (proj1 extract_ann_data_sampto 2%nat fb 7 5 1%nat d
                           10 3%nat _ H7 Hlt Hb) Hgt) Hn).
  - split; [exact Hr |].
    exact (proj1 (proj2 extract_ann_data_sampto) fb 7 d H7 Hr).
Defined.

(** C8 as it is written fails in two ways.  For the bound 0 the
    annotation at sample 5 is above it and is kept.  And for a bound that
    is not 0, an annotation past the bound that has two [chan] words is
    not discarded from every list: it has put two cells in [chan], and
    [rm_last] takes one cell from each list, so the 3 of its first [chan]
    word stays while the five other lists are empty. *)
Lemma extract_ann_data_sampto_not_discarded :
  (extract_ann_data [(5, 4); (0, 0)] (Some 0)
   = Ok (mk_ann_data [5] [1] [0] [0] [0] [[]])
   /\ ~ Forall (fun s => s <= 0) [5])
  /\ extract_ann_data [(5, 4); (3, 248); (4, 248); (0, 0)] (Some 3)
     = Ok (mk_ann_data [] [] [] [3] [] []).
Proof.
  split; [split; [reflexivity |] | reflexivity].
  intros H. inversion H; subst. lia.
Qed.


(** ** Compaction *)

Lemma compact_carry_nth (full : list Z) :
  forall (p : Z) (i : nat),
    (i < length full)%nat ->
    nth_error (compact_carry p full) i
    = Some (let v := nth i full 0 in
            if v =? nth i (p :: full) 0 then None else Some v).
Proof.
  induction full as [| x full IH]; intros p i Hi; simpl in Hi; [lia |].
  cbn [compact_carry]. destruct i as [| i].
  - cbn [nth]. destruct (x =? p); reflexivity.
  - destruct (Z.eqb_spec x p) as [-> | Hne]; cbn [negb nth_error];
      rewrite IH by lia; reflexivity.
Qed.

Lemma compact_carry_length (full : list Z) :
  forall p, length (compact_carry p full) = length full.
Proof.
  induction full as [| x full IH]; intros p; simpl; [reflexivity |].
  destruct (x =? p); simpl; rewrite IH; reflexivity.
Qed.

Lemma forallb_nth_error {A : Type} (p : A -> bool) (l : list A) (i : nat)
    (x : A) :
  forallb p l = true -> nth_error l i = Some x -> p x = true.
Proof.
  intros H E. rewrite forallb_forall in H. apply H.
  eapply nth_error_In. exact E.
Qed.

Lemma isblank_not_all_None {A : Type} (l : list (option A)) :
  forallb is_None l = false -> isblank (Some l) = false.
Proof. destruct l; [discriminate | intros H; exact H]. Qed.

Lemma item_Some {A : Type} (l : list A) (i : nat) (x : A) :
  nth_error l i = Some x -> item (Some l) i = Ok x.
Proof. intros E. unfold item. rewrite E. reflexivity. Qed.

(** The word of a carried field ([chan], [num]) for annotation [i]. *)
Lemma carried_group (full_field : option (list Z)) (i : nat)
    (mk : Z -> field_value) (w : Z) :
  (forall l, full_field = Some l -> (i < length l)%nat) ->
  (forall v, field2bytes (mk v) = Ok [v; w]) ->
  (if isblank (compact_carry_field full_field) then Ok []
   else
     value <- (v <- item (compact_carry_field full_field) i ;;
               Ok (option_map mk v)) ;;
     match value with
     | None => Ok []
     | Some fv => b <- field2bytes fv ;; Ok [b]
     end)
  = Ok (map (fun v => [v; w]) (opt_list (carried_word full_field i))).
Proof.
  intros Hlen Hmk. destruct full_field as [full |]; [| reflexivity].
  specialize (Hlen full eq_refl).
  pose proof (compact_carry_nth full 0 i Hlen) as Hn. cbv zeta in Hn.
  unfold compact_carry_field, carried_word.
  destruct (forallb is_None (compact_carry 0 full)) eqn:Hall.
  - cbn [isblank].
    pose proof (forallb_nth_error _ _ _ _ Hall Hn) as Hv.
    destruct (nth i full 0 =? nth i (0 :: full) 0); [reflexivity |].
    discriminate Hv.
  - rewrite (isblank_not_all_None _ Hall).
    rewrite (item_Some _ _ _ Hn). cbn [bind].
    destruct (nth i full 0 =? nth i (0 :: full) 0); cbn [option_map bind].
    + reflexivity.
    + rewrite Hmk. reflexivity.
Qed.

Lemma where_eq_from_length (l : list Z) (v : Z) :
  forall k,
    (length (where_eq_from k l v) <= length l)%nat
    /\ (length (where_eq_from k l v) = length l -> Forall (fun x => x = v) l).
Proof.
  induction l as [| x l IH]; intros k; simpl.
  - split; [lia | constructor].
  - destruct (IH (S k)) as [Hle Heq].
    destruct (Z.eqb_spec x v) as [-> | Hne]; simpl.
    + split; [lia |]. intros H. constructor; [reflexivity |].
      apply Heq. lia.
    + split; [lia |]. intros H. lia.
Qed.

Lemma where_eq_from_all (l : list Z) (v : Z) :
  forall k,
    Forall (fun x => x = v) l -> length (where_eq_from k l v) = length l.
Proof.
  induction l as [| x l IH]; intros k H; simpl; [reflexivity |].
  inversion H; subst. rewrite Z.eqb_refl. simpl. rewrite IH by assumption.
  reflexivity.
Qed.

Lemma nth_error_nth' {A : Type} (l : list A) (i : nat) (d : A) :
  (i < length l)%nat -> nth_error l i = Some (nth i l d).
Proof.
  revert i. induction l as [| x l IH]; intros i Hi; simpl in Hi; [lia |].
  destruct i; simpl; [reflexivity |]. apply IH. lia.
Qed.

(** The word of [subtype] for annotation [i]. *)
Lemma subtype_group (self : Annotation) (c : compact_fields) (i : nat) :
  _compact_fields self = Ok c ->
  (forall l, ann_subtype self = Some l -> length l = length (ann_sample self)) ->
  (i < length (ann_sample self))%nat ->
  extra_group c x_subtype i = Ok (field_groups self i x_subtype).
Proof.
  intros Hc Hlen Hi. unfold _compact_fields in Hc. bind_inv Hc.
  injection Hc as <-. unfold extra_group, field_groups, subtype_word.
  cbn [extra_isblank extra_value c_subtype].
  destruct (ann_subtype self) as [st |]; [| reflexivity].
  specialize (Hlen st eq_refl).
  destruct (Nat.eqb_spec (length (where_eq st 0)) (length (ann_sample self)))
    as [E | E].
  - cbn [isblank]. rewrite <- Hlen in E.
    apply (proj2 (where_eq_from_length st 0 0%nat)) in E.
    rewrite Forall_forall in E.
    assert (Hz : nth i st 0 = 0) by (apply E, nth_In; lia).
    rewrite Hz. reflexivity.
  - assert (Hall : forallb is_None
                     (map (fun v : Z => if v =? 0 then None else Some v) st)
                   = false).
    { apply not_true_is_false. intros Hall. apply E. rewrite <- Hlen.
      apply where_eq_from_all. rewrite Forall_forall. intros x Hx.
      rewrite forallb_forall in Hall.
      specialize (Hall _ (in_map _ _ _ Hx)). cbv beta in Hall.
      destruct (Z.eqb_spec x 0); [assumption | discriminate]. }
    rewrite (isblank_not_all_None _ Hall).
    assert (Hn : nth_error
                   (map (fun v : Z => if v =? 0 then None else Some v) st) i
                 = Some (if nth i st 0 =? 0 then None else Some (nth i st 0))).
    { rewrite nth_error_map, (nth_error_nth' st i 0) by lia. reflexivity. }
    rewrite (item_Some _ _ _ Hn). cbn [bind].
    destruct (nth i st 0 =? 0); reflexivity.
Qed.

Lemma chan_group (self : Annotation) (c : compact_fields) (i : nat) :
  _compact_fields self = Ok c ->
  (forall l, ann_chan self = Some l -> length l = length (ann_sample self)) ->
  (i < length (ann_sample self))%nat ->
  extra_group c x_chan i = Ok (field_groups self i x_chan).
Proof.
  intros Hc Hlen Hi. unfold _compact_fields in Hc. bind_inv Hc.
  injection Hc as <-. unfold extra_group, field_groups.
  cbn [extra_isblank extra_value c_chan].
  rewrite (carried_group (ann_chan self) i f_chan 248).
  - rewrite map_map. reflexivity.
  - intros l E. rewrite (Hlen l E). exact Hi.
  - reflexivity.
Qed.

Lemma num_group (self : Annotation) (c : compact_fields) (i : nat) :
  _compact_fields self = Ok c ->
  (forall l, ann_num self = Some l -> length l = length (ann_sample self)) ->
  (i < length (ann_sample self))%nat ->
  extra_group c x_num i = Ok (field_groups self i x_num).
Proof.
  intros Hc Hlen Hi. unfold _compact_fields in Hc. bind_inv Hc.
  injection Hc as <-. unfold extra_group, field_groups.
  cbn [extra_isblank extra_value c_num].
  rewrite (carried_group (ann_num self) i f_num 240).
  - rewrite map_map. reflexivity.
  - intros l E. rewrite (Hlen l E). exact Hi.
  - reflexivity.
Qed.

Lemma aux_note_group (self : Annotation) (c : compact_fields) (i : nat) :
  _compact_fields self = Ok c ->
  (forall l, ann_aux_note self = Some l ->
             length l = length (ann_sample self)) ->
  (i < length (ann_sample self))%nat ->
  extra_group c x_aux_note i = Ok (field_groups self i x_aux_note).
Proof.
  intros Hc Hlen Hi. unfold _compact_fields in Hc. bind_inv Hc.
  injection Hc as <-. unfold extra_group, field_groups, aux_note_word.
  cbn [extra_isblank extra_value c_aux_note].
  destruct (ann_aux_note self) as [notes |].
  2:{ injection Ha as <-. reflexivity. }
  specialize (Hlen notes eq_refl).
  rewrite <- Hlen in Ha.
  rewrite (proj2 (Nat.ltb_ge _ _) (le_n _)) in Ha.
  rewrite firstn_all, skipn_all, app_nil_r, length_map, Nat.eqb_refl in Ha.
  cbn [andb] in Ha.
  assert (Hn : nth_error
                 (map (fun s : pystr => match s with
                                        | [] => None
                                        | _ :: _ => Some s
                                        end) notes) i
               = Some (match nth i notes [] with
                       | [] => None
                       | _ :: _ => Some (nth i notes [])
                       end)).
  { rewrite nth_error_map, (nth_error_nth' notes i []) by lia. reflexivity. }
  match type of Ha with
  | (if forallb is_None ?l then _ else _) = _ =>
      destruct (forallb is_None l) eqn:Hall
  end; injection Ha as <-.
  - cbn [isblank].
    pose proof (forallb_nth_error _ _ _ _ Hall Hn) as Hv.
    destruct (nth i notes []); [reflexivity | discriminate Hv].
  - match goal with
    | |- context [@isblank ?T ?x] =>
        assert (Hb : @isblank T x = false)
          by exact (isblank_not_all_None _ Hall);
        rewrite Hb
    end.
    match goal with
    | |- context [@item ?T ?x i] =>
        assert (Hit : @item T x i
                      = Ok (match nth i notes [] with
                            | [] => None
                            | _ :: _ => Some (nth i notes [])
                            end))
          by exact (item_Some _ _ _ Hn);
        rewrite Hit
    end.
    cbn [bind]. destruct (nth i notes []); reflexivity.
Qed.

(** ** The bytes of the annotations *)

Lemma extra_bytes_filter (c : compact_fields) (i : nat)
    (G : extra_field -> list (list Z)) (fields : list extra_field) :
  (forall f, In f fields -> extra_group c f i = Ok (G f)) ->
  extra_bytes c (filter (fun f => negb (extra_isblank c f)) fields) i
  = Ok (flat_map G fields).
Proof.
  induction fields as [| f fields IH]; intros H; [reflexivity |].
  assert (Hf := H f (or_introl eq_refl)).
  assert (IH' := IH (fun g Hg => H g (or_intror Hg))).
  cbn [filter flat_map]. unfold extra_group in Hf.
  destruct (extra_isblank c f); cbn [negb].
  - injection Hf as <-. exact IH'.
  - cbn [extra_bytes]. destruct (extra_value c f i) as [[fv |] | e];
      cbn [bind] in Hf |- *; try discriminate.
    + destruct (field2bytes fv) as [b |]; cbn [bind] in Hf |- *;
        [| discriminate].
      injection Hf as <-. rewrite IH'. reflexivity.
    + injection Hf as <-. exact IH'.
Qed.

Lemma field_groups_extras (self : Annotation) (i : nat) :
  flat_map (field_groups self i) [x_num; x_subtype; x_chan; x_aux_note]
  = map field_word (emitted_extras (emitted_at self i)).
Proof.
  unfold emitted_extras, emitted_at. cbn [flat_map field_groups].
  cbn [e_num e_subtype e_chan e_aux_note].
  rewrite app_nil_r, !map_app. reflexivity.
Qed.

Lemma nth_diffs (l : list Z) :
  forall (p : Z) (i : nat),
    (i < length l)%nat -> nth i (diffs p l) 0 = nth i l 0 - nth i (p :: l) 0.
Proof.
  induction l as [| x l IH]; intros p i Hi; simpl in Hi; [lia |].
  destruct i as [| i]; [reflexivity |].
  cbn [diffs nth]. rewrite IH by lia. reflexivity.
Qed.

Lemma diffs_length (l : list Z) : forall p, length (diffs p l) = length l.
Proof. induction l; intros p; simpl; [| rewrite IHl]; reflexivity. Qed.

Lemma typecode_code_of (sym : pystr) :
  (exists c, typecode_of sym = Ok c) -> typecode_of sym = Ok (code_of sym).
Proof. intros [c H]. unfold code_of. rewrite H. reflexivity. Qed.

Lemma core_loop_emitted (self : Annotation) (c : compact_fields) :
  _compact_fields self = Ok c ->
  lengths_agree self ->
  symbols_known self ->
  forall (sds : list Z) (i : nat),
    skipn i (diffs 0 (ann_sample self)) = sds ->
    (i + length sds = length (ann_sample self))%nat ->
    core_loop self c
      (filter (fun f => negb (extra_isblank c f))
         [x_num; x_subtype; x_chan; x_aux_note]) i sds
    = Ok (flat_map emitted_groups
            (map (emitted_at self) (seq i (length sds)))).
Proof.
  intros Hc [Hsym [Hst [Hch [Hnum Haux]]]] Hknown.
  induction sds as [| sd sds IH]; intros i Hskip Hlen; [reflexivity |].
  cbn [length] in Hlen.
  assert (Hi : (i < length (ann_sample self))%nat) by lia.
  cbn [core_loop length seq map flat_map].
  assert (Hsd : nth i (diffs 0 (ann_sample self)) 0 = sd).
  { rewrite <- (firstn_skipn i (diffs 0 (ann_sample self))), Hskip.
    rewrite app_nth2; rewrite length_firstn, diffs_length;
      rewrite Nat.min_l by lia; [| lia].
    rewrite Nat.sub_diag. reflexivity. }
  assert (Hitem : item (ann_symbol self) i = Ok (nth i (symbols self) [])).
  { unfold symbols in *. destruct (ann_symbol self) as [l |].
    - apply item_Some, nth_error_nth'. lia.
    - simpl in Hsym. lia. }
  rewrite Hitem. cbn [bind].
  assert (Htc : typecode_of (nth i (symbols self) [])
                = Ok (code_of (nth i (symbols self) []))).
  { apply typecode_code_of. unfold symbols_known in Hknown.
    rewrite Forall_forall in Hknown. apply Hknown, nth_In. lia. }
  unfold field2bytes at 1. rewrite Htc. cbn [bind].
  rewrite (extra_bytes_filter c i (field_groups self i)).
  2:{ intros f Hf. destruct f.
      - apply num_group; assumption.
      - apply subtype_group; assumption.
      - apply chan_group; assumption.
      - apply aux_note_group; assumption. }
  cbn [bind]. rewrite (IH (S i)).
  - cbn [bind]. rewrite field_groups_extras.
    change (emitted_groups (emitted_at self i))
      with (core_group (nth i (diffs 0 (ann_sample self)) 0)
              (code_of (nth i (symbols self) []))
            :: map field_word (emitted_extras (emitted_at self i))).
    rewrite Hsd. unfold core_group.
    destruct (sd >? 1023); reflexivity.
  - rewrite <- (Nat.add_1_l i), <- skipn_skipn, Hskip. reflexivity.
  - lia.
Qed.

(** What [calc_core_bytes] has before it flattens: for each annotation, in
    order, the word (or skip form) of its sample difference and symbol, and
    the words of its extra fields. *)
Lemma core_data_bytes_emitted (self : Annotation) :
  ann_sample self <> [] ->
  lengths_agree self ->
  symbols_known self ->
  core_data_bytes self = Ok (flat_map emitted_groups (emitted_of self)).
Proof.
  intros Hne Hlen Hknown. unfold core_data_bytes.
  assert (Hsd : sampdiffs (ann_sample self)
                = Ok (diffs 0 (ann_sample self))).
  { unfold sampdiffs. destruct (ann_sample self); [congruence | reflexivity]. }
  rewrite Hsd. cbn [bind].
  destruct (_compact_fields self) as [c | e] eqn:Hc.
  - cbn [bind].
    rewrite (core_loop_emitted self c Hc Hlen Hknown
               (diffs 0 (ann_sample self)) 0%nat eq_refl).
    + unfold emitted_of. rewrite diffs_length. reflexivity.
    + rewrite diffs_length. reflexivity.
  - exfalso. unfold _compact_fields in Hc.
    destruct Hlen as [_ [_ [_ [_ Haux]]]].
    destruct (ann_aux_note self) as [notes |]; [| discriminate].
    rewrite <- (Haux notes eq_refl) in Hc.
    rewrite (proj2 (Nat.ltb_ge _ _) (le_n _)) in Hc.
    match type of Hc with
    | bind (if ?b then _ else _) _ = _ => destruct b
    end; discriminate.
Qed.


(** ** Rows *)

Lemma pairs_of_app (n : nat) :
  forall a b : list Z,
    length a = (2 * n)%nat -> pairs_of (a ++ b) = pairs_of a ++ pairs_of b.
Proof.
  induction n as [| n IH]; intros a b Ha.
  - destruct a; [reflexivity | simpl in Ha; lia].
  - destruct a as [| x [| y a]]; simpl in Ha; try lia.
    simpl. f_equal. apply IH. lia.
Qed.

Lemma pairs_of_length (n : nat) :
  forall a : list Z, length a = (2 * n)%nat -> length (pairs_of a) = n.
Proof.
  induction n as [| n IH]; intros a Ha.
  - destruct a; [reflexivity | simpl in Ha; lia].
  - destruct a as [| x [| y a]]; simpl in Ha; try lia.
    simpl. f_equal. apply IH. lia.
Qed.

Lemma flatten_pairs_of (n : nat) :
  forall a : list Z, length a = (2 * n)%nat -> flatten (pairs_of a) = a.
Proof.
  induction n as [| n IH]; intros a Ha.
  - destruct a; [reflexivity | simpl in Ha; lia].
  - destruct a as [| x [| y a]]; simpl in Ha; try lia.
    simpl. f_equal. f_equal. apply IH. lia.
Qed.

Lemma reshape_pairs_of (n : nat) :
  forall a : list Z, length a = (2 * n)%nat -> reshape_pairs a = Ok (pairs_of a).
Proof.
  induction n as [| n IH]; intros a Ha.
  - destruct a; [reflexivity | simpl in Ha; lia].
  - destruct a as [| x [| y a]]; simpl in Ha; try lia.
    cbn [reshape_pairs pairs_of]. rewrite IH by lia. reflexivity.
Qed.

Lemma row_app (pre l : byte_pairs) (k : nat) :
  row (pre ++ l) (length pre + k) = row l k.
Proof.
  unfold row. rewrite nth_error_app2 by lia.
  replace (length pre + k - length pre)%nat with k by lia. reflexivity.
Qed.

Lemma row_app_0 (pre l : byte_pairs) : row (pre ++ l) (length pre) = row l 0.
Proof. rewrite <- (Nat.add_0_r (length pre)) at 1. apply row_app. Qed.

Lemma skipn_app_plus {A : Type} (pre l : list A) (k : nat) :
  skipn (length pre + k) (pre ++ l) = skipn k l.
Proof.
  rewrite skipn_app, skipn_all2 by lia.
  replace (length pre + k - length pre)%nat with k by lia. reflexivity.
Qed.

(** ** The word of the sample difference and the symbol, read back *)

Lemma four_bytes (sd : Z) :
  0 <= sd < 4294967296 ->
  65536 * ((sd / 65536) mod 256) + 16777216 * ((sd / 16777216) mod 256)
  + sd mod 256 + 256 * ((sd / 256) mod 256) = sd.
Proof. intros H. Z.to_euclidean_division_equations. lia. Qed.

Lemma tag_of_word (x c : Z) : 0 <= x < 4 -> Z.shiftr (x + 4 * c) 2 = c.
Proof.
  intros H. rewrite Z.shiftr_div_pow2 by lia. change (2 ^ 2) with 4.
  Z.to_euclidean_division_equations. lia.
Qed.

Lemma low_of_word (x c : Z) : 0 <= x < 4 -> Z.land (x + 4 * c) 3 = x.
Proof.
  intros H. rewrite land_3. Z.to_euclidean_division_equations. lia.
Qed.

Lemma tag_of_word_0 (c : Z) : Z.shiftr (4 * c) 2 = c.
Proof. exact (tag_of_word 0 c ltac:(lia)). Qed.

Lemma low_of_word_0 (c : Z) : Z.land (4 * c) 3 = 0.
Proof. exact (low_of_word 0 c ltac:(lia)). Qed.

Lemma proc_core_fields_emitted (pre rest : byte_pairs) (sd c : Z) :
  0 <= sd <= 2147483647 ->
  1 <= c <= 41 ->
  proc_core_fields (pre ++ pairs_of (core_group sd c) ++ rest) (length pre)
  = Ok (sd, c, (length pre + length (pairs_of (core_group sd c)))%nat).
Proof.
  intros Hsd Hc. unfold core_group, proc_core_fields.
  destruct (Z.gtb_spec sd 1023) as [Hbig | Hsmall].
  - cbn [pairs_of app length].
    rewrite row_app_0, !row_app. cbn [row nth_error bind fst snd].
    change (Z.shiftr 236 2 =? 59) with true. cbn [negb].
    rewrite masked_byte_1, masked_byte_2, masked_byte_3, land_255.
    rewrite four_bytes by lia.
    destruct (Z.gtb_spec sd 2147483647) as [C | _]; [lia |].
    rewrite low_of_word_0, tag_of_word_0.
    do 3 f_equal. lia.
  - cbn [pairs_of app length].
    rewrite row_app_0. cbn [row nth_error bind fst snd].
    rewrite masked_high_bits, land_255.
    assert (Hx : 0 <= (sd / 256) mod 4 < 4) by (apply Z.mod_pos_bound; lia).
    rewrite tag_of_word, low_of_word by exact Hx.
    destruct (Z.eqb_spec c 59) as [C | _]; [lia |]. cbn [negb].
    do 3 f_equal. Z.to_euclidean_division_equations. lia.
Qed.

Lemma core_group_head_tag (sd c : Z) (rest : byte_pairs) :
  1 <= c <= 41 ->
  head_tag (pairs_of (core_group sd c) ++ rest) <= 59.
Proof.
  intros Hc. unfold core_group. destruct (sd >? 1023); cbn [pairs_of app head_tag snd].
  - change (Z.shiftr 236 2) with 59. lia.
  - rewrite masked_high_bits, tag_of_word; [lia |].
    apply Z.mod_pos_bound. lia.
Qed.

Lemma core_group_length (sd c : Z) :
  exists n, length (core_group sd c) = (2 * n)%nat /\ (1 <= n)%nat.
Proof.
  unfold core_group. destruct (sd >? 1023);
    [exists 4%nat | exists 1%nat]; split; simpl; lia.
Qed.

(** ** The words of the extra fields, read back *)

Lemma aux_group_length (s : pystr) :
  exists n,
    length (s ++ (if Nat.odd (length s) then [0] else [])) = (2 * n)%nat
    /\ Z.to_nat ((Z.of_nat (length s) + 1) / 2) = n
    /\ Z.odd (Z.of_nat (length s)) = Nat.odd (length s).
Proof.
  rewrite length_app.
  destruct (Nat.odd (length s)) eqn:Ho.
  - apply Nat.odd_spec in Ho. destruct Ho as [k Hk].
    exists (S k). rewrite Hk. simpl length. split; [lia |]. split.
    + replace (Z.of_nat (2 * k + 1) + 1) with (Z.of_nat (S k) * 2) by lia.
      rewrite Z.div_mul by lia. lia.
    + replace (Z.of_nat (2 * k + 1)) with (1 + 2 * Z.of_nat k) by lia.
      rewrite Z.odd_add_mul_2. reflexivity.
  - assert (He : Nat.even (length s) = true).
    { rewrite <- Nat.negb_odd, Ho. reflexivity. }
    apply Nat.even_spec in He. destruct He as [k Hk].
    exists k. rewrite Hk. simpl length. split; [lia |]. split.
    + replace (Z.of_nat (2 * k) + 1) with (1 + Z.of_nat k * 2) by lia.
      rewrite Z.div_add by lia. simpl. lia.
    + replace (Z.of_nat (2 * k)) with (0 + 2 * Z.of_nat k) by lia.
      rewrite Z.odd_add_mul_2. reflexivity.
Qed.

Lemma field_word_length (fv : field_value) :
  valid_extra fv ->
  exists n, length (field_word fv) = (2 * n)%nat /\ (1 <= n)%nat.
Proof.
  destruct fv as [sd sym | v | v | v | s]; simpl; intros H;
    try contradiction; try (exists 1%nat; split; simpl; lia).
  destruct (aux_group_length s) as [n [Hn _]].
  exists (S n). unfold aux_group. cbn [app length]. rewrite Hn. lia.
Qed.

Lemma astype_i1_small (v : Z) : 0 <= v <= 127 -> astype_i1 v = v.
Proof.
  intros H. unfold astype_i1. rewrite Z.mod_small by lia. lia.
Qed.

(** One extra-field word: its tag is above 59 and [proc_extra_field] reads
    the value back. *)
Lemma proc_extra_field_word (fv : field_value) (pre rest : byte_pairs)
    (d : ann_data) (u : update_flags) :
  valid_extra fv ->
  let fb := pre ++ pairs_of (field_word fv) ++ rest in
  let cls := head_tag (pairs_of (field_word fv) ++ rest) in
  (cls >? 59) = true
  /\ proc_extra_field cls fb (length pre) d u
     = Ok (fst (read_extra (d, u) fv), snd (read_extra (d, u) fv),
           (length pre + length (pairs_of (field_word fv)))%nat).
Proof.
  intros Hv fb cls. subst fb cls.
  destruct fv as [sd sym | v | v | v | s]; cbn [valid_extra] in Hv;
    try contradiction.
  - cbn [field_word pairs_of app head_tag snd]. split; [reflexivity |].
    unfold proc_extra_field. change (Z.shiftr 240 2) with 60.
    cbn [Z.eqb Pos.eqb]. rewrite row_app_0. cbn [row nth_error bind fst].
    rewrite astype_i1_small by lia. reflexivity.
  - cbn [field_word pairs_of app head_tag snd]. split; [reflexivity |].
    unfold proc_extra_field. change (Z.shiftr 244 2) with 61.
    cbn [Z.eqb Pos.eqb]. rewrite row_app_0. cbn [row nth_error bind fst].
    rewrite astype_i1_small by lia. reflexivity.
  - cbn [field_word pairs_of app head_tag snd]. split; [reflexivity |].
    unfold proc_extra_field. change (Z.shiftr 248 2) with 62.
    cbn [Z.eqb Pos.eqb]. rewrite row_app_0. cbn [row nth_error bind fst].
    reflexivity.
  - destruct (aux_group_length s) as [n [Hn [Hrows Hodd]]].
    unfold field_word, aux_group.
    cbn [app pairs_of head_tag snd]. split; [reflexivity |].
    unfold proc_extra_field. change (Z.shiftr 252 2) with 63.
    cbn [Z.eqb Pos.eqb]. rewrite row_app_0. cbn [row nth_error bind fst].
    rewrite Hrows, Hodd.
    set (w := (Z.of_nat (length s), 252)).
    set (body := s ++ (if Nat.odd (length s) then [0] else [])) in *.
    assert (Hfb : pre ++ w :: pairs_of body ++ rest
                  = (pre ++ [w]) ++ pairs_of body ++ rest)
      by (rewrite <- app_assoc; reflexivity).
    rewrite Hfb.
    assert (Hbpi : (length pre + 1 = length (pre ++ [w]) + 0)%nat)
      by (rewrite length_app; simpl; lia).
    rewrite Hbpi, skipn_app_plus. cbn [skipn].
    assert (Hfirst : firstn n (pairs_of body ++ rest) = pairs_of body).
    { rewrite <- (pairs_of_length n _ Hn) at 1.
      rewrite firstn_app, firstn_all, Nat.sub_diag. cbn [firstn].
      apply app_nil_r. }
    rewrite Hfirst, (flatten_pairs_of n _ Hn).
    replace (if Nat.odd (length s) then removelast body else body) with s.
    + cbn [read_extra fst snd length]. rewrite length_app. cbn [length].
      rewrite (pairs_of_length n _ Hn).
      replace (length pre + 1 + 0 + n)%nat with (length pre + S n)%nat by lia.
      reflexivity.
    + subst body. destruct (Nat.odd (length s)).
      * rewrite removelast_last. reflexivity.
      * rewrite app_nil_r. reflexivity.
Qed.


(** ** The words of one annotation, read back *)

Lemma row_head (pre l : byte_pairs) :
  l <> [] ->
  exists r,
    row (pre ++ l) (length pre) = Ok r /\ Z.shiftr (snd r) 2 = head_tag l.
Proof.
  destruct l as [| r l]; [congruence |]. intros _. exists r.
  rewrite row_app_0. split; reflexivity.
Qed.

Lemma words_pairs_length (xs : list field_value) :
  Forall valid_extra xs -> (length xs <= length (words_pairs xs))%nat.
Proof.
  induction 1 as [| x xs Hx _ IH]; [simpl; lia |].
  unfold words_pairs in *. cbn [map concat length]. rewrite length_app.
  destruct (field_word_length x Hx) as [n [Hn Hn1]].
  rewrite (pairs_of_length n _ Hn). lia.
Qed.

Lemma extra_fields_loop_words (xs : list field_value) :
  forall (pre rest : byte_pairs) (d : ann_data) (u : update_flags)
         (fuel : nat),
    (length xs <= fuel)%nat ->
    Forall valid_extra xs ->
    rest <> [] ->
    head_tag rest <= 59 ->
    extra_fields_loop fuel (pre ++ words_pairs xs ++ rest)
      (head_tag (words_pairs xs ++ rest)) (length pre) d u
    = Ok (fst (fold_left read_extra xs (d, u)),
          snd (fold_left read_extra xs (d, u)),
          (length pre + length (words_pairs xs))%nat).
Proof.
  induction xs as [| x xs IH]; intros pre rest d u fuel Hfuel Hv Hne Hrest.
  - cbn [words_pairs map concat app length fold_left fst snd].
    assert (Hc : (head_tag rest >? 59) = false) 
      by (rewrite Z.gtb_ltb; apply Z.ltb_ge; lia).
    destruct fuel; cbn [extra_fields_loop]; rewrite Hc, Nat.add_0_r;
      reflexivity.
  - inversion Hv as [| x' xs' Hx Hxs]; subst.
    destruct fuel as [| fuel]; [simpl in Hfuel; lia |].
    unfold words_pairs. cbn [map concat]. fold (words_pairs xs).
    rewrite <- !app_assoc.
    destruct (proc_extra_field_word x pre (words_pairs xs ++ rest) d u Hx)
      as [Hcls Hproc].
    cbn [extra_fields_loop]. rewrite Hcls, Hproc. cbn [bind].
    assert (Hne' : words_pairs xs ++ rest <> []).
    { intros E. apply app_eq_nil in E. tauto. }
    rewrite (app_assoc pre).
    destruct (row_head (pre ++ pairs_of (field_word x)) _ Hne')
      as [r [Hrow Htag]].
    rewrite <- length_app, Hrow. cbn [bind]. rewrite Htag.
    rewrite IH; try assumption; [| simpl in Hfuel; lia].
    cbn [fold_left]. rewrite !length_app.
    destruct (read_extra (d, u) x) as [d1 u1]. cbn [fst snd].
    rewrite Nat.add_assoc. reflexivity.
Qed.

Lemma emitted_pairs_split (e : emitted) :
  valid_emitted e ->
  emitted_pairs e
  = pairs_of (core_group (e_sd e) (e_code e))
      ++ words_pairs (emitted_extras e).
Proof.
  intros [_ [_ Hv]]. unfold emitted_pairs, emitted_groups.
  cbn [concat].
  destruct (core_group_length (e_sd e) (e_code e)) as [n [Hn _]].
  rewrite (pairs_of_app n _ _ Hn). f_equal.
  induction Hv as [| x xs Hx _ IH]; [reflexivity |].
  unfold words_pairs. cbn [map concat].
  destruct (field_word_length x Hx) as [m [Hm _]].
  rewrite (pairs_of_app m _ _ Hm). f_equal. exact IH.
Qed.

Lemma update_after_extras (e : emitted) (d : ann_data) (total : Z) :
  let d0 :=
    mk_ann_data (sample d ++ [total + e_sd e]) (label_store d ++ [e_code e])
      (subtype d) (chan d) (num d) (aux_note d) in
  update_extra_fields
    (fst (fold_left read_extra (emitted_extras e) (d0, update_all)))
    (snd (fold_left read_extra (emitted_extras e) (d0, update_all)))
  = fst (read_emitted (d, total) e).
Proof.
  destruct e as [sd c [n |] [s |] [ch |] [a |]]; reflexivity.
Qed.

Lemma ann_body_emitted (e : emitted) (pre rest : byte_pairs) (d : ann_data)
    (total : Z) :
  valid_emitted e ->
  rest <> [] ->
  head_tag rest <= 59 ->
  ann_body (pre ++ emitted_pairs e ++ rest) total (length pre) d
  = Ok (total + e_sd e, (length pre + length (emitted_pairs e))%nat,
        fst (read_emitted (d, total) e)).
Proof.
  intros Hv Hne Hrest. pose proof Hv as [Hsd [Hc Hx]].
  rewrite (emitted_pairs_split e Hv). unfold ann_body.
  set (core := pairs_of (core_group (e_sd e) (e_code e))).
  set (xs := emitted_extras e) in *.
  rewrite <- app_assoc.
  unfold core at 1.
  rewrite proc_core_fields_emitted by assumption. cbn [bind]. fold core.
  assert (Hne' : words_pairs xs ++ rest <> []).
  { intros E. apply app_eq_nil in E. tauto. }
  rewrite (app_assoc pre core).
  destruct (row_head (pre ++ core) _ Hne') as [r [Hrow Htag]].
  rewrite <- length_app, Hrow. cbn [bind]. rewrite Htag.
  rewrite extra_fields_loop_words; try assumption.
  - cbn [bind]. subst xs. rewrite (update_after_extras e d total).
    rewrite !length_app, Nat.add_assoc. reflexivity.
  - rewrite !length_app. pose proof (words_pairs_length xs Hx). lia.
Qed.

Lemma emitted_pairs_length (e : emitted) :
  valid_emitted e -> (1 <= length (emitted_pairs e))%nat.
Proof.
  intros Hv. rewrite (emitted_pairs_split e Hv), length_app.
  destruct (core_group_length (e_sd e) (e_code e)) as [n [Hn Hn1]].
  rewrite (pairs_of_length n _ Hn). lia.
Qed.

Lemma emitted_pairs_head_tag (e : emitted) (rest : byte_pairs) :
  valid_emitted e -> head_tag (emitted_pairs e ++ rest) <= 59.
Proof.
  intros Hv. rewrite (emitted_pairs_split e Hv), <- app_assoc.
  apply core_group_head_tag. apply Hv.
Qed.

(** ** The words of all annotations, read back *)

Lemma stream_of_head_tag (es : list emitted) :
  Forall valid_emitted es -> stream_of es <> [] /\ head_tag (stream_of es) <= 59.
Proof.
  intros Hv. unfold stream_of. split.
  - intros E. apply app_eq_nil in E. destruct E; discriminate.
  - destruct Hv as [| e es He _].
    + cbn [map concat app head_tag snd]. change (Z.shiftr 0 2) with 0. lia.
    + cbn [map concat]. rewrite <- app_assoc.
      apply emitted_pairs_head_tag. exact He.
Qed.

Lemma ann_loop_emitted (es : list emitted) :
  forall (pre : byte_pairs) (d : ann_data) (total : Z) (fuel : nat),
    (length es <= fuel)%nat ->
    Forall valid_emitted es ->
    ann_loop fuel (pre ++ stream_of es) None total (length pre) d
    = Ok (fst (fold_left read_emitted es (d, total))).
Proof.
  induction es as [| e es IH]; intros pre d total fuel Hfuel Hv.
  - assert (Hc : (Z.of_nat (length pre)
                  <? Z.of_nat (length (pre ++ stream_of [])) - 1) = false).
    { apply Z.ltb_ge. rewrite length_app. simpl. lia. }
    destruct fuel; cbn [ann_loop]; rewrite Hc; reflexivity.
  - inversion Hv as [| e' es' He Hes]; subst.
    destruct fuel as [| fuel]; [simpl in Hfuel; lia |].
    assert (Hc : (Z.of_nat (length pre)
                  <? Z.of_nat (length (pre ++ stream_of (e :: es))) - 1)
                 = true).
    { apply Z.ltb_lt. unfold stream_of. cbn [map concat].
      rewrite !length_app. pose proof (emitted_pairs_length e He).
      simpl. lia. }
    cbn [ann_loop]. rewrite Hc.
    assert (Hs : stream_of (e :: es) = emitted_pairs e ++ stream_of es).
    { unfold stream_of. cbn [map concat]. rewrite app_assoc. reflexivity. }
    rewrite Hs.
    destruct (stream_of_head_tag es Hes) as [Hne Htag].
    rewrite ann_body_emitted by assumption. cbn [bind past_sampto].
    rewrite (app_assoc pre), <- length_app.
    rewrite IH; [| simpl in Hfuel; lia | assumption].
    cbn [fold_left]. destruct (read_emitted (d, total) e) as [d1 t1] eqn:E.
    unfold read_emitted in E. injection E as <- <-. reflexivity.
Qed.

Lemma stream_of_length (es : list emitted) :
  Forall valid_emitted es -> (length es <= length (stream_of es))%nat.
Proof.
  intros Hv. unfold stream_of. rewrite length_app.
  induction Hv as [| e es He _ IH]; [simpl; lia |].
  cbn [map concat length]. rewrite length_app.
  pose proof (emitted_pairs_length e He). simpl in *. lia.
Qed.

(** Reading the file made of the words of the annotations [es] and the
    two closing zero bytes gives, annotation by annotation, what
    [read_emitted] says. *)
Lemma extract_ann_data_emitted (es : list emitted) :
  Forall valid_emitted es ->
  extract_ann_data (stream_of es) None
  = Ok (fst (fold_left read_emitted es (no_data, 0))).
Proof.
  intros Hv. unfold extract_ann_data.
  apply (ann_loop_emitted es [] no_data 0 (length (stream_of es))).
  - apply stream_of_length. exact Hv.
  - exact Hv.
Qed.


(** ** The label table *)

Lemma pystr_eqb_eq (a b : pystr) : pystr_eqb a b = true -> a = b.
Proof.
  revert b. induction a as [| x a IH]; intros [| y b]; simpl;
    try discriminate; [reflexivity |].
  intros H. apply andb_true_iff in H. destruct H as [Hx Hab].
  apply Z.eqb_eq in Hx. subst. f_equal. apply IH. exact Hab.
Qed.

Lemma typecode_of_row (sym : pystr) (c : Z) :
  typecode_of sym = Ok c ->
  exists r, In r ANN_LABELS /\ row_symbol r = sym /\ row_label_store r = c.
Proof.
  unfold typecode_of.
  destruct (find (fun r => pystr_eqb (row_symbol r) sym) ANN_LABELS)
    as [r |] eqn:E; [| discriminate].
  intros H. injection H as <-. apply find_some in E.
  destruct E as [Hin Heq]. exists r. split; [exact Hin |].
  split; [apply pystr_eqb_eq; exact Heq | reflexivity].
Qed.

Lemma typecode_of_range (sym : pystr) (c : Z) :
  typecode_of sym = Ok c -> 1 <= c <= 41.
Proof.
  intros H. destruct (typecode_of_row sym c H) as [r [Hin [_ <-]]].
  assert (Hall : forallb (fun r => (1 <=? row_label_store r)
                                   && (row_label_store r <=? 41))
                   ANN_LABELS = true) by (vm_compute; reflexivity).
  rewrite forallb_forall in Hall. specialize (Hall r Hin).
  apply andb_true_iff in Hall. destruct Hall as [H1 H2].
  apply Z.leb_le in H1. apply Z.leb_le in H2. lia.
Qed.

Lemma typecode_of_22 (sym : pystr) : typecode_of sym = Ok 22 -> sym = [34].
Proof.
  intros H. destruct (typecode_of_row sym 22 H) as [r [Hin [<- Hc]]].
  assert (Hall : forallb (fun r => negb (row_label_store r =? 22)
                                   || pystr_eqb (row_symbol r) [34])
                   ANN_LABELS = true) by (vm_compute; reflexivity).
  rewrite forallb_forall in Hall. specialize (Hall r Hin).
  rewrite Hc in Hall. apply pystr_eqb_eq. exact Hall.
Qed.

(** ** The words of the writer fit the reader *)

Lemma opt_list_Forall {A B : Type} (P : B -> Prop) (f : A -> B)
    (v : option A) :
  (forall x, v = Some x -> P (f x)) -> Forall P (map f (opt_list v)).
Proof.
  intros H. destruct v as [x |]; simpl; [| constructor].
  constructor; [apply H; reflexivity | constructor].
Qed.

Lemma Forall_nth_lt {A : Type} (P : A -> Prop) (l : list A) (i : nat)
    (d : A) :
  Forall P l -> (i < length l)%nat -> P (nth i l d).
Proof.
  intros H Hi. rewrite Forall_forall in H. apply H, nth_In. exact Hi.
Qed.

Lemma carried_word_in (full_field : option (list Z)) (i : nat) (v : Z)
    (P : Z -> Prop) (n : nat) :
  (forall l, full_field = Some l -> length l = n) ->
  (forall l, full_field = Some l -> Forall P l) ->
  (i < n)%nat ->
  carried_word full_field i = Some v -> P v.
Proof.
  intros Hlen HP Hi. unfold carried_word.
  destruct full_field as [l |]; [| discriminate].
  destruct (nth i l 0 =? nth i (0 :: l) 0); [discriminate |].
  intros H. injection H as <-.
  apply Forall_nth_lt; [apply HP; reflexivity |].
  rewrite (Hlen l eq_refl). exact Hi.
Qed.

Lemma emitted_at_valid (self : Annotation) (i : nat) :
  lengths_agree self ->
  symbols_known self ->
  diffs_in_range self ->
  fields_in_range self ->
  (i < length (ann_sample self))%nat ->
  valid_emitted (emitted_at self i).
Proof.
  intros [Hsym [Hst [Hch [Hnum Haux]]]] Hknown Hd [Rn [Rs [Rc Ra]]] Hi.
  unfold valid_emitted, emitted_at. cbn [e_sd e_code].
  split; [| split].
  - apply (Forall_nth_lt _ _ i 0 Hd). rewrite diffs_length. exact Hi.
  - unfold symbols_known in Hknown.
    assert (Hs : exists c, typecode_of (nth i (symbols self) []) = Ok c).
    { apply (Forall_nth_lt _ _ i [] Hknown). lia. }
    apply typecode_code_of in Hs.
    exact (typecode_of_range _ _ Hs).
  - unfold emitted_extras. cbn [e_num e_subtype e_chan e_aux_note].
    apply Forall_app; split;
      [| apply Forall_app; split; [| apply Forall_app; split]].
    + apply opt_list_Forall. intros v Hv. cbn [valid_extra].
      exact (carried_word_in _ _ _ (fun v => 0 <= v <= 127) _ Hnum Rn Hi Hv).
    + apply opt_list_Forall. intros v Hv. cbn [valid_extra].
      unfold subtype_word in Hv.
      destruct (ann_subtype self) as [l |] eqn:E; [| discriminate].
      destruct (nth i l 0 =? 0); [discriminate |]. injection Hv as <-.
      apply Forall_nth_lt; [apply Rs; reflexivity |].
      rewrite (Hst l eq_refl). exact Hi.
    + apply opt_list_Forall. intros v Hv. cbn [valid_extra].
      exact (carried_word_in _ _ _ (fun v => 0 <= v <= 255) _ Hch Rc Hi Hv).
    + apply opt_list_Forall. intros v Hv. cbn [valid_extra].
      unfold aux_note_word in Hv.
      destruct (ann_aux_note self) as [l |] eqn:E; [| discriminate].
      assert (Hn : valid_note (nth i l [])).
      { apply Forall_nth_lt; [apply Ra; reflexivity |].
        rewrite (Haux l eq_refl). exact Hi. }
      destruct (nth i l []); [discriminate |]. injection Hv as <-. exact Hn.
Qed.

Lemma emitted_of_valid (self : Annotation) :
  lengths_agree self ->
  symbols_known self ->
  diffs_in_range self ->
  fields_in_range self ->
  Forall valid_emitted (emitted_of self).
Proof.
  intros H1 H2 H3 H4. unfold emitted_of. rewrite Forall_forall.
  intros e He. apply in_map_iff in He. destruct He as [i [<- Hi]].
  apply in_seq in Hi. apply emitted_at_valid; try assumption. lia.
Qed.

(** ** The bytes written *)

Lemma astype_u1_bytes (l : list Z) : Forall is_byte l -> map astype_u1 l = l.
Proof.
  induction 1 as [| b l Hb _ IH]; [reflexivity |].
  simpl. rewrite IH. unfold astype_u1. rewrite Z.mod_small; [reflexivity |].
  unfold is_byte in Hb. lia.
Qed.

Lemma core_group_bytes (sd c : Z) :
  1 <= c <= 41 -> Forall is_byte (core_group sd c).
Proof.
  intros Hc. unfold core_group, is_byte.
  pose proof (Z.mod_pos_bound (sd / 256) 4 ltac:(lia)).
  pose proof (Z.mod_pos_bound (sd / 256) 256 ltac:(lia)).
  pose proof (Z.mod_pos_bound (sd / 65536) 256 ltac:(lia)).
  pose proof (Z.mod_pos_bound (sd / 16777216) 256 ltac:(lia)).
  pose proof (Z.mod_pos_bound sd 256 ltac:(lia)).
  destruct (sd >? 1023);
    rewrite ?masked_byte_1, ?masked_byte_2, ?masked_byte_3,
      ?masked_high_bits, ?land_255;
    repeat constructor; lia.
Qed.

Lemma field_word_bytes (fv : field_value) :
  valid_extra fv -> Forall is_byte (field_word fv).
Proof.
  destruct fv as [sd sym | v | v | v | s]; cbn [valid_extra field_word];
    intros H; try contradiction;
    try (repeat constructor; unfold is_byte; lia).
  destruct H as [Hlen Hs]. unfold aux_group.
  apply Forall_app; split; [| apply Forall_app; split].
  - repeat constructor; unfold is_byte; lia.
  - exact Hs.
  - destruct (Nat.odd (length s)); repeat constructor; unfold is_byte; lia.
Qed.

Lemma emitted_groups_bytes (e : emitted) :
  valid_emitted e ->
  Forall is_byte (concat (emitted_groups e))
  /\ exists n, length (concat (emitted_groups e)) = (2 * n)%nat.
Proof.
  intros [_ [Hc Hx]]. unfold emitted_groups. cbn [concat]. split.
  - apply Forall_app. split; [apply core_group_bytes; exact Hc |].
    induction Hx as [| x xs Hxv _ IH]; [constructor |].
    cbn [map concat]. apply Forall_app. split; [| exact IH].
    apply field_word_bytes. exact Hxv.
  - destruct (core_group_length (e_sd e) (e_code e)) as [n [Hn _]].
    assert (Hw : exists m,
               length (concat (map field_word (emitted_extras e)))
               = (2 * m)%nat).
    { induction Hx as [| x xs Hxv _ [m IH]]; [exists 0%nat; reflexivity |].
      destruct (field_word_length x Hxv) as [k [Hk _]].
      exists (k + m)%nat. cbn [map concat]. rewrite length_app. lia. }
    destruct Hw as [m Hm]. exists (n + m)%nat. rewrite length_app. lia.
Qed.

Lemma emitted_bytes (es : list emitted) :
  Forall valid_emitted es ->
  Forall is_byte (concat (flat_map emitted_groups es))
  /\ (exists n, length (concat (flat_map emitted_groups es)) = (2 * n)%nat)
  /\ pairs_of (concat (flat_map emitted_groups es))
     = concat (map emitted_pairs es).
Proof.
  induction 1 as [| e es He _ [IHb [[m IHl] IHp]]].
  - split; [constructor |]. split; [exists 0%nat |]; reflexivity.
  - destruct (emitted_groups_bytes e He) as [Hb [n Hn]].
    cbn [flat_map map]. rewrite concat_app. split; [| split].
    + apply Forall_app. split; assumption.
    + exists (n + m)%nat. rewrite length_app. lia.
    + rewrite (pairs_of_app n _ _ Hn), IHp. reflexivity.
Qed.

(** The file that [wr_ann_file] writes when [fs] is not written and there
    are no custom labels: the words of the annotations and two zero
    bytes. *)
Lemma wr_ann_file_emitted (self : Annotation) :
  ann_sample self <> [] ->
  lengths_agree self ->
  symbols_known self ->
  diffs_in_range self ->
  fields_in_range self ->
  exists bs,
    wr_ann_file self [] [] = Ok bs
    /\ reshape_pairs bs = Ok (stream_of (emitted_of self)).
Proof.
  intros Hne Hlen Hknown Hd Hr.
  pose proof (emitted_of_valid self Hlen Hknown Hd Hr) as Hv.
  destruct (emitted_bytes _ Hv) as [Hb [[n Hn] Hp]].
  exists (concat (flat_map emitted_groups (emitted_of self)) ++ [0; 0]).
  split.
  - unfold wr_ann_file, calc_core_bytes.
    rewrite (core_data_bytes_emitted self Hne Hlen Hknown). cbn [bind app].
    rewrite (astype_u1_bytes _ Hb), astype_u1_bytes; [reflexivity |].
    apply Forall_app. split; [exact Hb |].
    repeat constructor; unfold is_byte; lia.
  - rewrite (reshape_pairs_of (S n)).
    + rewrite (pairs_of_app n _ _ Hn), Hp. reflexivity.
    + rewrite length_app, Hn. simpl. lia.
Qed.


(** ** What the words read back as *)

Lemma firstn_S_nth {A : Type} (l : list A) (d : A) :
  forall i, (i < length l)%nat -> firstn (S i) l = firstn i l ++ [nth i l d].
Proof.
  induction l as [| x l IH]; intros i Hi; simpl in Hi; [lia |].
  destruct i as [| i]; [reflexivity |].
  cbn [firstn nth app]. rewrite <- IH by lia. reflexivity.
Qed.

Lemma last_firstn {A : Type} (l : list A) (d : A) :
  forall i, (i <= length l)%nat -> last (firstn i l) d = nth i (d :: l) d.
Proof.
  intros i. destruct i as [| i]; intros Hi; [reflexivity |].
  rewrite (firstn_S_nth l d i) by lia. rewrite last_last. reflexivity.
Qed.

Lemma field_or_length {A : Type} (dflt : A) (n : nat) (f : option (list A)) :
  (forall l, f = Some l -> length l = n) -> length (field_or dflt n f) = n.
Proof.
  intros H. destruct f as [l |]; simpl;
    [apply H; reflexivity | apply repeat_length].
Qed.

Lemma nth_field_or_None {A : Type} (dflt : A) (n i : nat) :
  nth i (dflt :: field_or dflt n None) dflt = dflt
  /\ nth i (field_or dflt n None) dflt = dflt.
Proof.
  cbn [field_or]. split.
  - destruct i; [reflexivity |]. cbn [nth]. apply nth_repeat.
  - apply nth_repeat.
Qed.

(** The cell that reading adds to a carried field is the cell of the
    field. *)
Lemma carried_cell (full_field : option (list Z)) (n i : nat) :
  (forall l, full_field = Some l -> length l = n) ->
  (i < n)%nat ->
  or_else (carried_word full_field i)
    (last (firstn i (field_or 0 n full_field)) 0)
  = nth i (field_or 0 n full_field) 0.
Proof.
  intros Hlen Hi.
  rewrite last_firstn by (rewrite field_or_length by exact Hlen; lia).
  destruct full_field as [l |].
  - cbn [carried_word field_or].
    destruct (Z.eqb_spec (nth i l 0) (nth i (0 :: l) 0)) as [E | _];
      cbn [or_else]; congruence.
  - cbn [carried_word or_else].
    destruct (nth_field_or_None 0 n i) as [-> ->]. reflexivity.
Qed.

Lemma subtype_cell (full_field : option (list Z)) (n i : nat) :
  or_else (subtype_word full_field i) 0 = nth i (field_or 0 n full_field) 0.
Proof.
  destruct full_field as [l |].
  - cbn [subtype_word field_or].
    destruct (Z.eqb_spec (nth i l 0) 0) as [E | _]; cbn [or_else]; congruence.
  - cbn [subtype_word or_else field_or]. symmetry. apply nth_repeat.
Qed.

Lemma aux_note_cell (full_field : option (list pystr)) (n i : nat) :
  or_else (aux_note_word full_field i) []
  = nth i (field_or [] n full_field) [].
Proof.
  destruct full_field as [l |].
  - cbn [aux_note_word field_or]. destruct (nth i l []); reflexivity.
  - cbn [aux_note_word or_else field_or]. symmetry. apply nth_repeat.
Qed.

Lemma read_emitted_at (self : Annotation) (i : nat) :
  lengths_agree self ->
  (i < length (ann_sample self))%nat ->
  read_emitted (first_annotations i (data_of self),
                nth i (0 :: ann_sample self) 0) (emitted_at self i)
  = (first_annotations (S i) (data_of self),
     nth (S i) (0 :: ann_sample self) 0).
Proof.
  intros [Hsym [Hst [Hch [Hnum Haux]]]] Hi.
  unfold read_emitted, first_annotations, data_of, emitted_at.
  cbn [sample label_store subtype chan num aux_note
       e_sd e_code e_num e_subtype e_chan e_aux_note].
  set (n := length (ann_sample self)) in *.
  rewrite nth_diffs by exact Hi.
  replace (nth i (0 :: ann_sample self) 0
           + (nth i (ann_sample self) 0 - nth i (0 :: ann_sample self) 0))
    with (nth i (ann_sample self) 0) by lia.
  rewrite (carried_cell (ann_chan self) n i Hch Hi).
  rewrite (carried_cell (ann_num self) n i Hnum Hi).
  rewrite (subtype_cell (ann_subtype self) n i).
  rewrite (aux_note_cell (ann_aux_note self) n i).
  rewrite (firstn_S_nth (ann_sample self) 0 i) by exact Hi.
  rewrite (firstn_S_nth (map code_of (symbols self)) 0 i)
    by (rewrite length_map, Hsym; exact Hi).
  rewrite (firstn_S_nth (field_or 0 n (ann_subtype self)) 0 i)
    by (rewrite field_or_length by exact Hst; exact Hi).
  rewrite (firstn_S_nth (field_or 0 n (ann_chan self)) 0 i)
    by (rewrite field_or_length by exact Hch; exact Hi).
  rewrite (firstn_S_nth (field_or 0 n (ann_num self)) 0 i)
    by (rewrite field_or_length by exact Hnum; exact Hi).
  rewrite (firstn_S_nth (field_or [] n (ann_aux_note self)) [] i)
    by (rewrite field_or_length by exact Haux; exact Hi).
  assert (Hc : nth i (map code_of (symbols self)) 0
               = code_of (nth i (symbols self) [])).
  { change 0 with (code_of []). apply map_nth. }
  rewrite Hc. reflexivity.
Qed.

Lemma read_emitted_from (self : Annotation) :
  lengths_agree self ->
  forall k i,
    (i + k <= length (ann_sample self))%nat ->
    fold_left read_emitted (map (emitted_at self) (seq i k))
      (first_annotations i (data_of self), nth i (0 :: ann_sample self) 0)
    = (first_annotations (i + k) (data_of self),
       nth (i + k) (0 :: ann_sample self) 0).
Proof.
  intros Hlen. induction k as [| k IH]; intros i Hik.
  - rewrite Nat.add_0_r. reflexivity.
  - cbn [seq map fold_left]. rewrite read_emitted_at by (assumption || lia).
    rewrite IH by lia. rewrite Nat.add_succ_r. reflexivity.
Qed.

Lemma read_emitted_of (self : Annotation) :
  lengths_agree self ->
  fst (fold_left read_emitted (emitted_of self) (no_data, 0)) = data_of self.
Proof.
  intros Hlen. unfold emitted_of.
  pose proof (read_emitted_from self Hlen (length (ann_sample self)) 0%nat
                (le_n _)) as H.
  change (first_annotations 0 (data_of self)) with no_data in H.
  change (nth 0 (0 :: ann_sample self) 0) with 0 in H.
  rewrite H. cbn [fst Nat.add].
  destruct Hlen as [Hsym [Hst [Hch [Hnum Haux]]]].
  unfold first_annotations, data_of.
  cbn [sample label_store subtype chan num aux_note].
  set (n := length (ann_sample self)) in *.
  rewrite !firstn_all2; try reflexivity.
  all: try (rewrite field_or_length by assumption; apply le_n).
  all: try (rewrite length_map, Hsym; apply le_n).
  all: try apply le_n.
Qed.

(** ** No definition annotation *)

Lemma where_eq_from_In (l : list Z) (v : Z) :
  forall k j,
    In j (where_eq_from k l v) ->
    (k <= j)%nat /\ nth_error l (j - k) = Some v.
Proof.
  induction l as [| x l IH]; intros k j H; simpl in H; [contradiction |].
  destruct (Z.eqb_spec x v) as [-> | Hne].
  - destruct H as [<- | H].
    + rewrite Nat.sub_diag. split; [lia | reflexivity].
    + apply IH in H. destruct H as [Hk Hn]. split; [lia |].
      replace (j - k)%nat with (S (j - S k)) by lia. exact Hn.
  - apply IH in H. destruct H as [Hk Hn]. split; [lia |].
    replace (j - k)%nat with (S (j - S k)) by lia. exact Hn.
Qed.

Lemma where_eq_In (l : list Z) (v : Z) (j : nat) :
  In j (where_eq l v) -> (j < length l)%nat /\ nth j l 0 = v.
Proof.
  intros H. apply where_eq_from_In in H. destruct H as [_ H].
  rewrite Nat.sub_0_r in H. split.
  - apply nth_error_Some. congruence.
  - apply nth_error_nth. exact H.
Qed.

Lemma empty_set (s : list nat) : (forall j, ~ In j s) -> s = [].
Proof. destruct s as [| x s]; [reflexivity |]. intros H. destruct (H x). left. reflexivity. Qed.

Lemma get_info_inds_none (self : Annotation) :
  lengths_agree self ->
  symbols_known self ->
  no_comment_at_0 self ->
  get_info_inds (sample (data_of self)) (label_store (data_of self))
    (aux_note (data_of self))
  = ([], []).
Proof.
  intros [Hsym _] Hknown Hno. unfold get_info_inds, data_of.
  cbn [sample label_store].
  assert (Hcode : forall j, (j < length (ann_sample self))%nat ->
                            typecode_of (nth j (symbols self) [])
                            = Ok (nth j (map code_of (symbols self)) 0)).
  { intros j Hj.
    assert (Hc : nth j (map code_of (symbols self)) 0
                 = code_of (nth j (symbols self) [])).
    { change 0 with (code_of []). apply map_nth. }
    rewrite Hc. apply typecode_code_of.
    apply (Forall_nth_lt _ _ j [] Hknown). rewrite Hsym. exact Hj. }
  assert (H0 : where_eq (map code_of (symbols self)) 0 = []).
  { apply empty_set. intros j Hj. apply where_eq_In in Hj.
    destruct Hj as [Hlt Hv]. rewrite length_map, Hsym in Hlt.
    pose proof (Hcode j Hlt) as Hc. rewrite Hv in Hc.
    apply typecode_of_range in Hc. lia. }
  assert (Hi : set_inter Nat.eq_dec (where_eq (ann_sample self) 0)
                 (where_eq (map code_of (symbols self)) 22) = []).
  { apply empty_set. intros j Hj. apply set_inter_elim in Hj.
    destruct Hj as [Hs Hl]. apply where_eq_In in Hs, Hl.
    destruct Hs as [Hlt Hs]. destruct Hl as [_ Hl].
    pose proof (Hcode j Hlt) as Hc. rewrite Hl in Hc.
    apply typecode_of_22 in Hc. exact (Hno j Hlt Hs Hc). }
  rewrite Hi, H0. reflexivity.
Qed.

(** ** Writing, then reading *)

Lemma rdann_steps_stream_of (F : float_model) (rdheader : header_reader F)
    (self : Annotation) :
  lengths_agree self ->
  symbols_known self ->
  diffs_in_range self ->
  fields_in_range self ->
  no_comment_at_0 self ->
  rdann_steps rdheader (stream_of (emitted_of self)) None
  = Ok (mk_read_annotation (data_of self)
          (fst (fs_from_header rdheader None)) None 1%nat).
Proof.
  intros Hlen Hknown Hd Hr Hno. unfold rdann_steps.
  rewrite (extract_ann_data_emitted _
             (emitted_of_valid self Hlen Hknown Hd Hr)).
  rewrite (read_emitted_of self Hlen). cbn [bind].
  rewrite (get_info_inds_none self Hlen Hknown Hno).
  unfold extract_ann_info. cbn [length info_loop Nat.ltb Nat.leb bind].
  cbn [rm_empty_indices bind].
  unfold fs_from_header. destruct (rdheader tt); reflexivity.
Qed.


(** Writing without [fs] and without custom labels, then reading the file
    back, gives the six lists of [data_of]. *)
Lemma write_then_read_fields (F : float_model) (rdheader : header_reader F)
    (self : Annotation) :
  ann_sample self <> [] ->
  lengths_agree self ->
  symbols_known self ->
  diffs_in_range self ->
  fields_in_range self ->
  no_comment_at_0 self ->
  exists bs fb,
    wr_ann_file self [] [] = Ok bs
    /\ reshape_pairs bs = Ok fb
    /\ rdann_steps rdheader fb None
       = Ok (mk_read_annotation (data_of self)
               (fst (fs_from_header rdheader None)) None 1%nat).
Proof.
  intros Hne Hlen Hknown Hd Hr Hno.
  destruct (wr_ann_file_emitted self Hne Hlen Hknown Hd Hr) as [bs [Hw Hp]].
  exists bs, (stream_of (emitted_of self)).
  split; [exact Hw |]. split; [exact Hp |].
  apply rdann_steps_stream_of; assumption.
Qed.

Lemma check_each_Ok {A : Type} (check : A -> result unit) (l : list A) :
  check_each check l = Ok tt -> Forall (fun x => check x = Ok tt) l.
Proof.
  induction l as [| x l IH]; intros H; [constructor |].
  cbn [check_each] in H. bind_inv H. destruct a.
  constructor; [exact Ha | apply IH; exact H].
Qed.

Lemma typed_check_range (item : option (list Z)) (lo hi : Z) :
  (x <- typed item ;; check_range lo hi x) = Ok tt ->
  exists l, item = Some l /\ Forall (fun v => lo <= v <= hi) l.
Proof.
  intros H. bind_inv H. destruct item as [l |]; [| discriminate].
  injection Ha as <-. exists l. split; [reflexivity |].
  apply check_range_Ok in H. apply H.
Qed.

(** What the checks of the fields that the writer reads give it: the
    five optional ones are set, the samples and their differences are in
    range up to 2^31, and so are the extra fields. *)
Lemma written_fields_Ok (self : Annotation) :
  Forall (fun field => check_field self field = Ok tt) written_fields ->
  ann_sample self <> []
  /\ Forall (fun x => 0 <= x <= 2147483648) (diffs 0 (ann_sample self))
  /\ (exists l, ann_symbol self = Some l)
  /\ (exists l, ann_subtype self = Some l
                /\ Forall (fun v => 0 <= v <= 127) l)
  /\ (exists l, ann_chan self = Some l /\ Forall (fun v => 0 <= v <= 255) l)
  /\ (exists l, ann_num self = Some l /\ Forall (fun v => 0 <= v <= 127) l)
  /\ (exists l, ann_aux_note self = Some l).
Proof.
  intros H. unfold written_fields in H.
  repeat match goal with
         | H : Forall _ (_ :: _) |- _ =>
             let H1 := fresh "C" in
             let H2 := fresh "R" in
             apply Forall_cons_iff in H; destruct H as [H1 H2]
         end.
  cbn [check_field] in *.
  apply check_field_sample_Ok in C. destruct C as [Hne [_ Hd]].
  apply typed_check_range in C1, C2, C3.
  split; [exact Hne |]. split; [exact Hd |].
  split.
  { destruct (ann_symbol self) as [l |]; [eauto | discriminate]. }
  split; [exact C1 |]. split; [exact C2 |]. split; [exact C3 |].
  destruct (ann_aux_note self) as [l |]; [eauto | discriminate].
Qed.

(** What the writer and the reader need of an object whose written fields
    pass their checks. *)
Lemma checked_object (self : Annotation) :
  Forall (fun field => check_field self field = Ok tt) written_fields ->
  Forall (fun sd => sd <> 2147483648) (diffs 0 (ann_sample self)) ->
  (forall l, ann_aux_note self = Some l -> Forall valid_note l) ->
  ann_sample self <> []
  /\ diffs_in_range self
  /\ fields_in_range self
  /\ Forall (fun x => 0 <= x) (diffs 0 (ann_sample self))
  /\ sample (data_of self) = ann_sample self
  /\ label_store (data_of self) = map code_of (symbols self)
  /\ Some (subtype (data_of self)) = ann_subtype self
  /\ Some (chan (data_of self)) = ann_chan self
  /\ Some (num (data_of self)) = ann_num self
  /\ Some (aux_note (data_of self)) = ann_aux_note self.
Proof.
  intros Hc Hd Hnotes.
  destruct (written_fields_Ok self Hc)
    as [Hne [Hds [_ [[st [Est Rst]] [[ch [Ech Rch]] [[nm [Enm Rnm]]
         [au Eau]]]]]]].
  split; [exact Hne |]. split; [| split; [| split]].
  - unfold diffs_in_range. rewrite Forall_forall in *. intros x Hx.
    specialize (Hds x Hx). specialize (Hd x Hx). lia.
  - unfold fields_in_range. rewrite Est, Ech, Enm.
    repeat split; try exact Hnotes; intros l E; injection E as <-;
      assumption.
  - eapply Forall_impl; [| exact Hds]. intros x Hx; cbv beta in Hx; lia.
  - unfold data_of. cbn [sample label_store subtype chan num aux_note].
    rewrite Est, Ech, Enm, Eau. repeat split; reflexivity.
Qed.


(** ** Compaction of the extra fields *)

Lemma nth_all {A : Type} (l : list A) (x : A) (i : nat) :
  Forall (fun y => y = x) l -> nth i l x = x.
Proof.
  intros H. destruct (Nat.lt_ge_cases i (length l)) as [Hi | Hi].
  - exact (Forall_nth_lt _ l i x H Hi).
  - apply nth_overflow. exact Hi.
Qed.

(** C5.  For an object that has annotations, fields as long as [sample] and
    symbols of the standard table, the lists of bytes that
    [calc_core_bytes] flattens are, for each annotation in turn, the word
    of its sample and symbol, then a [num] word and a [chan] word exactly
    where the value differs from the one before (from 0 for the first
    annotation), a [subtype] word exactly where the value is not 0 and an
    [aux_note] word exactly where the string is not empty.  When every
    [subtype] is 0 and every [aux_note] is empty, no list of bytes carries
    the [subtype] tag byte 244 or the [aux_note] tag byte 252. *)
Theorem writer_compacts_fields (self : Annotation) :
  ann_sample self <> [] ->
  lengths_agree self ->
  symbols_known self ->
  core_data_bytes self = Ok (flat_map emitted_groups (emitted_of self))
  /\ (forall i v,
         e_chan (emitted_at self i) = Some v
         <-> exists l, ann_chan self = Some l
                       /\ nth i l 0 = v /\ v <> nth i (0 :: l) 0)
  /\ (forall i v,
         e_num (emitted_at self i) = Some v
         <-> exists l, ann_num self = Some l
                       /\ nth i l 0 = v /\ v <> nth i (0 :: l) 0)
  /\ (forall i v,
         e_subtype (emitted_at self i) = Some v
         <-> exists l, ann_subtype self = Some l /\ nth i l 0 = v /\ v <> 0)
  /\ (forall i s,
         e_aux_note (emitted_at self i) = Some s
         <-> exists l, ann_aux_note self = Some l
                       /\ nth i l [] = s /\ s <> [])
  /\ ((forall l, ann_subtype self = Some l -> Forall (fun v => v = 0) l) ->
      (forall l, ann_aux_note self = Some l -> Forall (fun s => s = []) l) ->
      forall e g,
        In e (emitted_of self) ->
        In g (emitted_groups e) ->
        nth 1 g 0 <> 244 /\ nth 1 g 0 <> 252).
Proof.
  intros Hne Hlen Hknown.
  split; [apply core_data_bytes_emitted; assumption |].
  assert (Hcarried : forall (f : option (list Z)) i v,
             carried_word f i = Some v
             <-> exists l, f = Some l
                           /\ nth i l 0 = v /\ v <> nth i (0 :: l) 0).
  { intros f i v. unfold carried_word. destruct f as [l |].
    - destruct (Z.eqb_spec (nth i l 0) (nth i (0 :: l) 0)) as [E | E].
      + split; [discriminate |]. intros [l' [El [Hv Hd]]].
        injection El as <-. congruence.
      + split.
        * intros H. injection H as <-. exists l. auto.
        * intros [l' [El [Hv _]]]. injection El as <-. congruence.
    - split; [discriminate |]. intros [l [El _]]. discriminate. }
  split; [intros i v; apply Hcarried |].
  split; [intros i v; apply Hcarried |].
  split; [| split].
  - intros i v. unfold emitted_at, subtype_word. cbn [e_subtype].
    destruct (ann_subtype self) as [l |].
    + destruct (Z.eqb_spec (nth i l 0) 0) as [E | E].
      * split; [discriminate |]. intros [l' [El [Hv Hd]]].
        injection El as <-. congruence.
      * split.
        -- intros H. injection H as <-. exists l. auto.
        -- intros [l' [El [Hv _]]]. injection El as <-. congruence.
    + split; [discriminate |]. intros [l [El _]]. discriminate.
  - intros i s. unfold emitted_at, aux_note_word. cbn [e_aux_note].
    destruct (ann_aux_note self) as [l |].
    + destruct (nth i l []) as [| c s'] eqn:E.
      * split; [discriminate |]. intros [l' [El [Hv Hd]]].
        injection El as <-. congruence.
      * split.
        -- intros H. injection H as <-. exists l.
           split; [reflexivity |]. split; [exact E | discriminate].
        -- intros [l' [El [Hv _]]]. injection El as <-. congruence.
    + split; [discriminate |]. intros [l [El _]]. discriminate.
  - intros Hst Haux e g He Hg.
    unfold emitted_of in He. apply in_map_iff in He.
    destruct He as [i [<- Hi]]. apply in_seq in Hi.
    assert (Es : subtype_word (ann_subtype self) i = None).
    { unfold subtype_word. destruct (ann_subtype self) as [l |];
        [| reflexivity].
      rewrite (nth_all l 0 i (Hst l eq_refl)). reflexivity. }
    assert (Ea : aux_note_word (ann_aux_note self) i = None).
    { unfold aux_note_word. destruct (ann_aux_note self) as [l |];
        [| reflexivity].
      rewrite (nth_all l [] i (Haux l eq_refl)). reflexivity. }
    assert (Hcode : 1 <= code_of (nth i (symbols self) []) <= 41).
    { destruct Hlen as [Hsym _]. unfold symbols_known in Hknown.
      assert (Hs : exists c, typecode_of (nth i (symbols self) []) = Ok c).
      { apply (Forall_nth_lt _ _ i [] Hknown). lia. }
      apply typecode_code_of in Hs. exact (typecode_of_range _ _ Hs). }
    unfold emitted_groups, emitted_extras, emitted_at in Hg.
    cbn [e_sd e_code e_num e_subtype e_chan e_aux_note] in Hg.
    rewrite Es, Ea in Hg. cbn [opt_list map app] in Hg.
    rewrite app_nil_r in Hg.
    destruct Hg as [<- | Hg].
    + unfold core_group.
      destruct (nth i (diffs 0 (ann_sample self)) 0 >? 1023); cbn [nth].
      * lia.
      * rewrite masked_high_bits.
        pose proof (Z.mod_pos_bound
                      (nth i (diffs 0 (ann_sample self)) 0 / 256) 4
                      ltac:(lia)).
        lia.
    + rewrite map_app in Hg. apply in_app_or in Hg.
      destruct Hg as [Hg | Hg];
        [destruct (carried_word (ann_num self) i)
        | destruct (carried_word (ann_chan self) i)];
        cbn in Hg; try contradiction;
        destruct Hg as [<- | []]; cbn [nth]; lia.
Qed.

Lemma writer_compacts_fields_witness :
  let self :=
    mk_Annotation [10; 20; 400] (Some [str "N"; str "N"; str "["])
      (Some [0; 0; 0]) (Some [3; 3; 0]) None (Some [[]; []; []]) None in
  core_data_bytes self
  = Ok [[10; 4]; [3; 248]; [10; 4]; [124; 129]; [0; 248]].
Proof.
  intros self.
  assert (Hne : ann_sample self <> []) by discriminate.
  assert (Hlen : lengths_agree self).
  { unfold lengths_agree, self. cbn.
    repeat split; intros l E; try discriminate; injection E as <-;
      reflexivity. }
  assert (Hknown : symbols_known self).
  { unfold symbols_known, self. cbn.
    repeat constructor; eexists; reflexivity. }
  exact (proj1 (writer_compacts_fields self Hne Hlen Hknown)).
Defined.


(** ** The fuel of the reading loops

    On a file of bytes both loops of [extract_ann_data] move forward at
    every pass, so the fuel they are given, the number of rows, is never
    used up. *)

Lemma row_tag_le_63 (fb : byte_pairs) (bpi : nat) (r : Z * Z) :
  rows_of_bytes fb -> row fb bpi = Ok r -> Z.shiftr (snd r) 2 <= 63.
Proof.
  intros Hb Hr. unfold row in Hr.
  destruct (nth_error fb bpi) as [r' |] eqn:E; [| discriminate].
  injection Hr as ->. apply nth_error_In in E.
  unfold rows_of_bytes in Hb. rewrite Forall_forall in Hb.
  destruct (Hb r E) as [_ Hs]. unfold is_byte in Hs.
  rewrite Z.shiftr_div_pow2 by lia. change (2 ^ 2) with 4.
  Z.to_euclidean_division_equations. lia.
Qed.

Lemma proc_extra_field_advances (cls : Z) (fb : byte_pairs) (bpi : nat)
    (d : ann_data) (u : update_flags) (r : Z * Z) :
  row fb bpi = Ok r ->
  59 < cls <= 63 ->
  exists d1 u1 bpi1,
    proc_extra_field cls fb bpi d u = Ok (d1, u1, bpi1) /\ (bpi < bpi1)%nat.
Proof.
  intros Hr Hc. unfold proc_extra_field. rewrite Hr. cbn [bind].
  destruct (Z.eqb_spec cls 61);
    [| destruct (Z.eqb_spec cls 62);
       [| destruct (Z.eqb_spec cls 60);
          [| destruct (Z.eqb_spec cls 63); [| lia]]]];
    do 3 eexists; (split; [reflexivity | lia]).
Qed.

Lemma extra_fields_loop_fuel (fb : byte_pairs) :
  rows_of_bytes fb ->
  forall fuel cls bpi d u r,
    row fb bpi = Ok r ->
    cls = Z.shiftr (snd r) 2 ->
    (length fb <= fuel + bpi)%nat ->
    match extra_fields_loop fuel fb cls bpi d u with
    | Ok (_, _, bpi') => (bpi <= bpi')%nat
    | Raise e => e <> Diverges
    end.
Proof.
  intros Hb. induction fuel as [| fuel IH]; intros cls bpi d u r Hr Hc Hf.
  - apply row_Ok_lt in Hr. lia.
  - cbn [extra_fields_loop].
    destruct (Z.gtb_spec cls 59) as [Hgt | Hle]; [| lia].
    assert (H63 : cls <= 63) by (subst cls; eapply row_tag_le_63; eassumption).
    destruct (proc_extra_field_advances cls fb bpi d u r Hr ltac:(lia))
      as [d1 [u1 [bpi1 [E Hlt]]]].
    rewrite E. cbn [bind].
    destruct (row fb bpi1) as [r1 | e] eqn:Hr1; cbn [bind].
    + specialize (IH (Z.shiftr (snd r1) 2) bpi1 d1 u1 r1 Hr1 eq_refl
                    ltac:(lia)).
      destruct (extra_fields_loop fuel fb (Z.shiftr (snd r1) 2) bpi1 d1 u1)
        as [[[d2 u2] bpi2] | e]; [lia | exact IH].
    + unfold row in Hr1. destruct (nth_error fb bpi1); [discriminate |].
      injection Hr1 as <-. discriminate.
Qed.

Lemma row_raises (fb : byte_pairs) (i : nat) (e : exn) :
  row fb i = Raise e -> e = IndexError.
Proof.
  unfold row. destruct (nth_error fb i); [discriminate |].
  intros H. injection H as <-. reflexivity.
Qed.

Lemma proc_core_fields_advances (fb : byte_pairs) (bpi : nat) :
  match proc_core_fields fb bpi with
  | Ok (_, _, bpi1) => (bpi < bpi1)%nat
  | Raise e => e = IndexError
  end.
Proof.
  unfold proc_core_fields.
  destruct (row fb bpi) as [r0 | e] eqn:E0; cbn [bind];
    [| exact (row_raises _ _ _ E0)].
  destruct (negb (Z.shiftr (snd r0) 2 =? 59)); [lia |].
  destruct (row fb (bpi + 1)) as [r1 | e] eqn:E1; cbn [bind];
    [| exact (row_raises _ _ _ E1)].
  destruct (row fb (bpi + 2)) as [r2 | e] eqn:E2; cbn [bind];
    [| exact (row_raises _ _ _ E2)].
  destruct (row fb (bpi + 3)) as [r3 | e] eqn:E3; cbn [bind];
    [| exact (row_raises _ _ _ E3)].
  lia.
Qed.

Lemma ann_body_advances (fb : byte_pairs) (total : Z) (bpi : nat)
    (d : ann_data) :
  rows_of_bytes fb ->
  match ann_body fb total bpi d with
  | Ok (_, bpi', _) => (bpi < bpi')%nat
  | Raise e => e <> Diverges
  end.
Proof.
  intros Hb. unfold ann_body.
  pose proof (proc_core_fields_advances fb bpi) as Hc.
  destruct (proc_core_fields fb bpi) as [[[sd cls] bpi1] | e]; cbn [bind];
    [| subst e; discriminate].
  destruct (row fb bpi1) as [r | e] eqn:Hr; cbn [bind].
  2:{ apply row_raises in Hr. subst e. discriminate. }
  match goal with
  | |- context [extra_fields_loop ?f fb ?c bpi1 ?d0 ?u0] =>
      pose proof (extra_fields_loop_fuel fb Hb f c bpi1 d0 u0 r Hr eq_refl
                    ltac:(lia)) as Hx;
      destruct (extra_fields_loop f fb c bpi1 d0 u0)
        as [[[d2 u2] bpi2] | e]; cbn [bind]
  end; [lia | exact Hx].
Qed.

Lemma ann_loop_fuel (fb : byte_pairs) (sampto : option Z) :
  rows_of_bytes fb ->
  forall fuel total bpi d,
    (length fb <= fuel + bpi)%nat ->
    ann_loop fuel fb sampto total bpi d <> Raise Diverges.
Proof.
  intros Hb. induction fuel as [| fuel IH]; intros total bpi d Hf;
    cbn [ann_loop];
    destruct (Z.ltb_spec (Z.of_nat bpi) (Z.of_nat (length fb) - 1))
      as [Hlt | Hge]; try discriminate; [lia |].
  pose proof (ann_body_advances fb total bpi d Hb) as Ha.
  destruct (ann_body fb total bpi d) as [[[t1 bpi1] d1] | e]; cbn [bind].
  - destruct (past_sampto sampto t1).
    + unfold rm_last.
      repeat match goal with
             | |- bind (pop ?a) _ <> _ =>
                 destruct a; cbn [pop bind]; [discriminate |]
             end.
      discriminate.
    + apply IH. lia.
  - congruence.
Qed.

(** Reading a file of bytes never uses up the fuel: [extract_ann_data]
    gives the six lists or raises one of Python's exceptions. *)
Lemma extract_ann_data_fuel (fb : byte_pairs) (sampto : option Z) :
  rows_of_bytes fb -> extract_ann_data fb sampto <> Raise Diverges.
Proof.
  intros Hb. unfold extract_ann_data. apply ann_loop_fuel; [exact Hb | lia].
Qed.


(** ** The annotations that are removed *)

Lemma where_eq_from_intro (l : list Z) (v : Z) :
  forall k i,
    nth_error l i = Some v -> In (k + i)%nat (where_eq_from k l v).
Proof.
  induction l as [| x l IH]; intros k i H; [destruct i; discriminate |].
  cbn [where_eq_from]. destruct i as [| i].
  - injection H as ->. rewrite Z.eqb_refl, Nat.add_0_r. left. reflexivity.
  - cbn [nth_error] in H.
    replace (k + S i)%nat with (S k + i)%nat by lia.
    destruct (x =? v); [right |]; apply IH; exact H.
Qed.

Lemma pick_Ok {A : Type} (a : list A) (inds : list nat) (b : list A) :
  pick a inds = Ok b ->
  length b = length inds
  /\ forall j i, nth_error inds j = Some i -> nth_error b j = nth_error a i.
Proof.
  revert b. induction inds as [| i inds IH]; intros b H; cbn [pick] in H.
  - injection H as <-. split; [reflexivity |].
    intros j i H. destruct j; discriminate.
  - destruct (nth_error a i) as [x |] eqn:E; [| discriminate].
    bind_inv H. injection H as <-.
    destruct (IH _ Ha) as [Hl Hn]. split; [simpl; lia |].
    intros j i' Hj. destruct j as [| j].
    + injection Hj as <-. symmetry. exact E.
    + apply Hn. exact Hj.
Qed.

(** After [rm_empty_indices] with the indices of [get_info_inds], no
    annotation has store value 0, and none has both sample 0 and store
    value 22. *)
Lemma rm_empty_indices_removes (d d' : ann_data) :
  rm_empty_indices
    (snd (get_info_inds (sample d) (label_store d) (aux_note d))) d
  = Ok d' ->
  forall j s l,
    nth_error (sample d') j = Some s ->
    nth_error (label_store d') j = Some l ->
    l <> 0 /\ ~ (s = 0 /\ l = 22).
Proof.
  unfold get_info_inds. cbn [snd].
  set (pot := set_inter Nat.eq_dec (where_eq (sample d) 0)
                (where_eq (label_store d) 22)).
  set (rm := set_union Nat.eq_dec pot (where_eq (label_store d) 0)).
  assert (Hkeep : forall i s l,
             ~ In i rm ->
             nth_error (sample d) i = Some s ->
             nth_error (label_store d) i = Some l ->
             l <> 0 /\ ~ (s = 0 /\ l = 22)).
  { intros i s l Hi Hs Hl. split.
    - intros ->. apply Hi. apply set_union_intro2.
      exact (where_eq_from_intro _ _ 0%nat i Hl).
    - intros [-> ->]. apply Hi. apply set_union_intro1.
      apply set_inter_intro.
      + exact (where_eq_from_intro _ _ 0%nat i Hs).
      + exact (where_eq_from_intro _ _ 0%nat i Hl). }
  intros H j s l Hs Hl. unfold rm_empty_indices in H.
  destruct rm as [| r0 rm0] eqn:Erm.
  - injection H as <-. apply (Hkeep j s l); [intros [] | assumption ..].
  - rewrite <- Erm in *. clear Erm.
    bind_inv H. rename a into s', Ha into Es.
    bind_inv H. rename a into l', Ha into El.
    repeat (let a := fresh "a" in
            let E := fresh "E" in
            apply bind_Ok in H; destruct H as [a [E H]]).
    injection H as <-. cbn [sample label_store] in Hs, Hl.
    destruct (pick_Ok _ _ _ Es) as [Hls Hns].
    destruct (pick_Ok _ _ _ El) as [_ Hnl].
    assert (Hj : (j < length s')%nat) by (apply nth_error_Some; congruence).
    rewrite Hls in Hj.
    destruct (nth_error
                (filter (fun i => negb (set_mem Nat.eq_dec i rm))
                   (seq 0 (length (sample d)))) j) as [i |] eqn:Ei.
    2:{ apply nth_error_None in Ei. lia. }
    rewrite (Hns j i Ei) in Hs. rewrite (Hnl j i Ei) in Hl.
    apply nth_error_In, filter_In in Ei. destruct Ei as [_ Ei].
    apply negb_true_iff in Ei.
    apply (Hkeep i s l); [| assumption ..].
    intros Hin. apply (set_mem_correct2 Nat.eq_dec) in Hin. congruence.
Qed.


(** ** What the reading loop can raise *)

Lemma proc_extra_field_raises (cls : Z) (fb : byte_pairs) (bpi : nat)
    (d : ann_data) (u : update_flags) (e : exn) :
  proc_extra_field cls fb bpi d u = Raise e -> e = IndexError.
Proof.
  unfold proc_extra_field.
  destruct (cls =? 61);
    [| destruct (cls =? 62);
       [| destruct (cls =? 60); [| destruct (cls =? 63); [| discriminate]]]];
    (destruct (row fb bpi) as [r | e'] eqn:E; cbn [bind];
     [discriminate | intros H; injection H as <-; exact (row_raises _ _ _ E)]).
Qed.

Lemma extra_fields_loop_raises (fb : byte_pairs) :
  forall fuel cls bpi d u e,
    extra_fields_loop fuel fb cls bpi d u = Raise e ->
    e = IndexError \/ e = Diverges.
Proof.
  induction fuel as [| fuel IH]; intros cls bpi d u e; cbn [extra_fields_loop];
    destruct (cls >? 59); try discriminate.
  - intros H. injection H as <-. right. reflexivity.
  - destruct (proc_extra_field cls fb bpi d u) as [[[d1 u1] bpi1] | e1] eqn:E;
      cbn [bind].
    + destruct (row fb bpi1) as [r | e2] eqn:Er; cbn [bind].
      * apply IH.
      * intros H. injection H as <-. left. exact (row_raises _ _ _ Er).
    + intros H. injection H as <-. left.
      exact (proc_extra_field_raises _ _ _ _ _ _ E).
Qed.

Lemma ann_body_raises (fb : byte_pairs) (total : Z) (bpi : nat)
    (d : ann_data) (e : exn) :
  ann_body fb total bpi d = Raise e -> e = IndexError \/ e = Diverges.
Proof.
  unfold ann_body.
  pose proof (proc_core_fields_advances fb bpi) as Hc.
  destruct (proc_core_fields fb bpi) as [[[sd cls] bpi1] | e1]; cbn [bind].
  - destruct (row fb bpi1) as [r | e2] eqn:Er; cbn [bind].
    + match goal with
      | |- context [extra_fields_loop ?f fb ?c bpi1 ?d0 ?u0] =>
          pose proof (extra_fields_loop_raises fb f c bpi1 d0 u0) as Hx;
          destruct (extra_fields_loop f fb c bpi1 d0 u0)
            as [[[d2 u2] bpi2] | e3]; cbn [bind]
      end; [discriminate |].
      intros H. injection H as <-. apply Hx. reflexivity.
    + intros H. injection H as <-. left. exact (row_raises _ _ _ Er).
  - intros H. injection H as <-. left. exact Hc.
Qed.

Lemma rm_last_raises (d : ann_data) (e : exn) :
  rm_last d = Raise e -> e = IndexError.
Proof.
  unfold rm_last.
  repeat match goal with
         | |- bind (pop ?a) _ = _ -> _ =>
             destruct a; cbn [pop bind];
             [intros H; injection H as <-; reflexivity |]
         end.
  discriminate.
Qed.

Lemma ann_loop_raises (fb : byte_pairs) (sampto : option Z) :
  forall fuel total bpi d e,
    ann_loop fuel fb sampto total bpi d = Raise e ->
    e = IndexError \/ e = Diverges.
Proof.
  induction fuel as [| fuel IH]; intros total bpi d e; cbn [ann_loop];
    destruct (Z.of_nat bpi <? Z.of_nat (length fb) - 1); try discriminate.
  - intros H. injection H as <-. right. reflexivity.
  - destruct (ann_body fb total bpi d) as [[[t1 bpi1] d1] | e1] eqn:E;
      cbn [bind].
    + destruct (past_sampto sampto t1).
      * intros H. left. exact (rm_last_raises _ _ H).
      * apply IH.
    + intros H. injection H as <-. exact (ann_body_raises _ _ _ _ _ E).
Qed.

(** X1.  Reading a file of bytes always comes to an end: both loops of
    [extract_ann_data] move forward in the rows at every pass, so on any
    rows of [uint8] cells, with or without the closing zero row, complete
    or cut short, the function returns the six lists or raises IndexError
    (a word that runs past the last row); it never loops. *)
Theorem extract_ann_data_ends (fb : byte_pairs) (sampto : option Z) :
  rows_of_bytes fb ->
  (exists d, extract_ann_data fb sampto = Ok d)
  \/ extract_ann_data fb sampto = Raise IndexError.
Proof.
  intros Hb. pose proof (extract_ann_data_fuel fb sampto Hb) as Hf.
  destruct (extract_ann_data fb sampto) as [d | e] eqn:E.
  - left. exists d. reflexivity.
  - right. unfold extract_ann_data in E.
    destruct (ann_loop_raises _ _ _ _ _ _ _ E) as [-> | ->];
      [reflexivity | congruence].
Qed.

Lemma extract_ann_data_ends_witness :
  rows_of_bytes [(5, 4); (0, 236); (1, 0)]
  /\ ((exists d, extract_ann_data [(5, 4); (0, 236); (1, 0)] None = Ok d)
      \/ extract_ann_data [(5, 4); (0, 236); (1, 0)] None = Raise IndexError).
Proof.
  assert (Hb : rows_of_bytes [(5, 4); (0, 236); (1, 0)])
    by (repeat constructor; cbn; lia).
  split; [exact Hb |].
  exact (extract_ann_data_ends _ None Hb).
Defined.

(** ** One word written, one word read *)

(** X2.  The word that [field2bytes] makes for the sample difference and
    the symbol of an annotation is read back by [proc_core_fields]: for a
    symbol of the standard table and a difference in 0 .. 2^31 - 1, the
    reader gets the difference and the store value of the symbol and moves
    past the word, one row for a difference up to 1023 and four rows for a
    larger one, wherever the word stands in the file. *)
Theorem samptype_word_read_back (pre rest : byte_pairs) (sd : Z)
    (sym : pystr) (c : Z) :
  typecode_of sym = Ok c ->
  0 <= sd <= 2147483647 ->
  exists w,
    field2bytes (samptype sd sym) = Ok w
    /\ length (pairs_of w) = (if sd >? 1023 then 4%nat else 1%nat)
    /\ proc_core_fields (pre ++ pairs_of w ++ rest) (length pre)
       = Ok (sd, c, (length pre + length (pairs_of w))%nat).
Proof.
  intros Hc Hsd. exists (core_group sd c). split; [| split].
  - unfold field2bytes. rewrite Hc. cbn [bind]. unfold core_group.
    destruct (sd >? 1023); reflexivity.
  - unfold core_group. destruct (sd >? 1023); reflexivity.
  - apply proc_core_fields_emitted; [exact Hsd |].
    exact (typecode_of_range _ _ Hc).
Qed.

Lemma samptype_word_read_back_witness :
  typecode_of (str "N") = Ok 1
  /\ 0 <= 70000 <= 2147483647
  /\ exists w,
       field2bytes (samptype 70000 (str "N")) = Ok w
       /\ proc_core_fields ([(5, 4)] ++ pairs_of w ++ [(0, 0)]) 1
          = Ok (70000, 1, (1 + length (pairs_of w))%nat).
Proof.
  assert (Hc : typecode_of (str "N") = Ok 1) by reflexivity.
  assert (Hsd : 0 <= 70000 <= 2147483647) by lia.
  split; [exact Hc |]. split; [exact Hsd |].
  destruct (samptype_word_read_back [(5, 4)] [(0, 0)] 70000 (str "N") 1
              Hc Hsd) as [w [Hw [_ Hr]]].
  exists w. split; [exact Hw | exact Hr].
Defined.

(** X3.  The word that [field2bytes] makes for an extra field is read back
    by [proc_extra_field]: for a [num] or [subtype] in 0..127, a [chan] in
    0..255 and a note of at most 255 characters with code points up to
    255, the tag of the first row of the word sends the reader to the
    branch of that field, which appends the value written to the list of
    the field, clears its flag in [update] and moves past the word; the
    other lists and flags are left as they are. *)
Theorem extra_field_word_read_back (fv : field_value) (pre rest : byte_pairs)
    (d : ann_data) (u : update_flags) :
  valid_extra fv ->
  exists w r,
    field2bytes fv = Ok w
    /\ row (pre ++ pairs_of w ++ rest) (length pre) = Ok r
    /\ Z.shiftr (snd r) 2 > 59
    /\ proc_extra_field (Z.shiftr (snd r) 2) (pre ++ pairs_of w ++ rest)
         (length pre) d u
       = Ok (fst (read_extra (d, u) fv), snd (read_extra (d, u) fv),
             (length pre + length (pairs_of w))%nat).
Proof.
  intros Hv.
  destruct (proc_extra_field_word fv pre rest d u Hv) as [Hgt Hp].
  destruct (field_word_length fv Hv) as [n [Hn Hn1]].
  assert (Hne : pairs_of (field_word fv) ++ rest <> []).
  { intros H. apply (f_equal (@length _)) in H.
    rewrite length_app, (pairs_of_length n _ Hn) in H. simpl in H. lia. }
  destruct (row_head pre _ Hne) as [r [Hr Ht]].
  exists (field_word fv), r. split; [| split; [| split]].
  - destruct fv; [destruct Hv | | | |]; reflexivity.
  - exact Hr.
  - rewrite Ht. apply Z.gtb_lt in Hgt. lia.
  - rewrite Ht. exact Hp.
Qed.

Lemma extra_field_word_read_back_witness :
  valid_extra (f_aux_note (str "Vfib"))
  /\ exists w r,
       field2bytes (f_aux_note (str "Vfib")) = Ok w
       /\ row ([(5, 4)] ++ pairs_of w ++ [(0, 0)]) 1 = Ok r
       /\ proc_extra_field (Z.shiftr (snd r) 2)
            ([(5, 4)] ++ pairs_of w ++ [(0, 0)]) 1
            (mk_ann_data [5] [1] [] [] [] []) update_all
          = Ok (mk_ann_data [5] [1] [] [] [] [str "Vfib"],
                mk_update true true true false,
                (1 + length (pairs_of w))%nat).
Proof.
  assert (Hv : valid_extra (f_aux_note (str "Vfib"))).
  { unfold valid_extra, valid_note. split; [cbn; lia |].
    repeat constructor; cbn; lia. }
  split; [exact Hv |].
  destruct (extra_field_word_read_back (f_aux_note (str "Vfib")) [(5, 4)]
              [(0, 0)] (mk_ann_data [5] [1] [] [] [] []) update_all Hv)
    as [w [r [Hw [Hr [_ Hp]]]]].
  exists w, r. split; [exact Hw |]. split; [exact Hr | exact Hp].
Defined.

(** ** Signed and unsigned cells *)

Lemma astype_i1_u1 (v : Z) : -128 <= v <= 127 -> astype_i1 (astype_u1 v) = v.
Proof.
  intros H. unfold astype_i1, astype_u1.
  Z.to_euclidean_division_equations. lia.
Qed.

(** X4.  [num] and [subtype] are signed bytes in the file, [chan] is an
    unsigned one.  For a value in -128..127 the byte that the writer's
    [astype('u1')] leaves is read back by [proc_extra_field] as that value
    in the branches of [num] (tag 60) and [subtype] (tag 61); in the branch
    of [chan] (tag 62) the byte is appended as it is, so a [chan] in 0..255
    comes back and a byte above 127 is never read as a negative [chan]. *)
Theorem extra_field_signed_cells (fb : byte_pairs) (bpi : nat) (v b : Z)
    (d : ann_data) (u : update_flags) :
  -128 <= v <= 127 ->
  row fb bpi = Ok (astype_u1 v, b) ->
  (exists u1,
      proc_extra_field 60 fb bpi d u
      = Ok (mk_ann_data (sample d) (label_store d) (subtype d) (chan d)
              (num d ++ [v]) (aux_note d), u1, (bpi + 1)%nat))
  /\ (exists u1,
         proc_extra_field 61 fb bpi d u
         = Ok (mk_ann_data (sample d) (label_store d) (subtype d ++ [v])
                 (chan d) (num d) (aux_note d), u1, (bpi + 1)%nat))
  /\ (exists u1,
         proc_extra_field 62 fb bpi d u
         = Ok (mk_ann_data (sample d) (label_store d) (subtype d)
                 (chan d ++ [astype_u1 v]) (num d) (aux_note d), u1,
               (bpi + 1)%nat))
  /\ 0 <= astype_u1 v <= 255.
Proof.
  intros Hv Hr. unfold proc_extra_field. cbn [Z.eqb Pos.eqb].
  rewrite Hr. cbn [bind fst]. rewrite (astype_i1_u1 v Hv).
  repeat split; try (eexists; reflexivity);
    unfold astype_u1; Z.to_euclidean_division_equations; lia.
Qed.

Lemma extra_field_signed_cells_witness :
  -128 <= -1 <= 127
  /\ row [(5, 4); (255, 244); (0, 0)] 1 = Ok (astype_u1 (-1), 244)
  /\ exists u1,
       proc_extra_field 61 [(5, 4); (255, 244); (0, 0)] 1
         (mk_ann_data [5] [1] [] [] [] []) update_all
       = Ok (mk_ann_data [5] [1] [-1] [] [] [], u1, 2%nat).
Proof.
  assert (Hv : -128 <= -1 <= 127) by lia.
  assert (Hr : row [(5, 4); (255, 244); (0, 0)] 1 = Ok (astype_u1 (-1), 244))
    by reflexivity.
  split; [exact Hv |]. split; [exact Hr |].
  exact (proj1 (proj2 (extra_field_signed_cells _ 1%nat (-1) 244
                         (mk_ann_data [5] [1] [] [] [] []) update_all
                         Hv Hr))).
Defined.


(** ** Picking the cells of a list by their indices *)

Lemma pick_filter_seq {A : Type} (f : nat -> bool) (l : list A) :
  forall pre : list A,
    pick (pre ++ l) (filter f (seq (length pre) (length l)))
    = Ok (select (map f (seq (length pre) (length l))) l).
Proof.
  induction l as [| x l IH]; intros pre; [reflexivity |].
  cbn [length seq filter map select].
  specialize (IH (pre ++ [x])).
  rewrite <- app_assoc, length_app in IH. cbn [app length] in IH.
  replace (length pre + 1)%nat with (S (length pre)) in IH by lia.
  destruct (f (length pre)).
  - cbn [pick].
    rewrite nth_error_app2 by lia. rewrite Nat.sub_diag. cbn [nth_error].
    rewrite IH. reflexivity.
  - exact IH.
Qed.

Lemma pick_filter_seq_0 {A : Type} (f : nat -> bool) (l : list A) (n : nat) :
  length l = n ->
  pick l (filter f (seq 0 n)) = Ok (select (map f (seq 0 n)) l).
Proof. intros <-. exact (pick_filter_seq f l []). Qed.

Lemma select_all {A : Type} (keep : list bool) (l : list A) :
  length keep = length l -> Forall (fun b => b = true) keep ->
  select keep l = l.
Proof.
  revert l. induction keep as [| b keep IH]; intros [| x l] Hl Hk;
    try discriminate; [reflexivity |].
  inversion Hk as [| ? ? Hb Hk']; subst. cbn [select]. f_equal.
  apply IH; [simpl in Hl; lia | exact Hk'].
Qed.

Lemma map_seq_nth {A : Type} (g : Z -> A) (s : list Z) :
  map (fun i => g (nth i s 0)) (seq 0 (length s)) = map g s.
Proof.
  apply (nth_ext _ _ (g 0) (g 0)).
  - rewrite !length_map, length_seq. reflexivity.
  - intros i Hi. rewrite length_map, length_seq in Hi.
    rewrite (map_nth g s 0 i).
    rewrite (nth_indep _ (g 0) ((fun i => g (nth i s 0)) 0%nat))
      by (rewrite length_map, length_seq; exact Hi).
    rewrite (map_nth (fun i => g (nth i s 0))).
    rewrite seq_nth by exact Hi. reflexivity.
Qed.

(** ** The annotations that the reader keeps *)

Lemma where_eq_iff (l : list Z) (v : Z) (j : nat) :
  In j (where_eq l v) <-> nth_error l j = Some v.
Proof.
  split.
  - intros H. destruct (where_eq_from_In l v 0 j H) as [_ Hn].
    rewrite Nat.sub_0_r in Hn. exact Hn.
  - intros H. exact (where_eq_from_intro l v 0 j H).
Qed.

Lemma removed_flag (s l : list Z) (a : list pystr) (i : nat) :
  length l = length s -> (i < length s)%nat ->
  negb (set_mem Nat.eq_dec i (snd (get_info_inds s l a)))
  = is_kept (nth i s 0) (nth i l 0).
Proof.
  intros Hl Hi. unfold get_info_inds, is_kept. cbn [snd].
  assert (Hs : nth_error s i = Some (nth i s 0))
    by (apply nth_error_nth'; exact Hi).
  assert (Hl' : nth_error l i = Some (nth i l 0))
    by (apply nth_error_nth'; lia).
  match goal with
  | |- negb (set_mem _ _ ?rm) = _ =>
      assert (Hin : In i rm
                    <-> (nth i s 0 = 0 /\ nth i l 0 = 22) \/ nth i l 0 = 0)
  end.
  { rewrite set_union_iff, set_inter_iff, !where_eq_iff, Hs, Hl'.
    split; intros [[H1 H2] | H]; try (right; congruence);
      left; split; congruence. }
  match goal with
  | |- negb (set_mem _ _ ?rm) = _ => destruct (set_mem Nat.eq_dec i rm) eqn:E
  end.
  - apply set_mem_correct1 in E. apply Hin in E. cbn [negb].
    destruct E as [[H1 H2] | H].
    + rewrite H1, H2. reflexivity.
    + rewrite H. reflexivity.
  - cbn [negb]. symmetry. apply andb_true_iff. split; apply negb_true_iff.
    + apply Z.eqb_neq. intros H.
      apply (set_mem_complete1 Nat.eq_dec) in E. apply E, Hin. right. exact H.
    + apply andb_false_iff.
      destruct (Z.eqb_spec (nth i s 0) 0) as [H1 |]; [| left; reflexivity].
      right. apply Z.eqb_neq. intros H2.
      apply (set_mem_complete1 Nat.eq_dec) in E. apply E, Hin. left.
      split; assumption.
Qed.

Lemma removed_flags (d : ann_data) :
  length (label_store d) = length (sample d) ->
  map (fun i =>
         negb (set_mem Nat.eq_dec i
                 (snd (get_info_inds (sample d) (label_store d)
                         (aux_note d)))))
    (seq 0 (length (sample d)))
  = kept_flags d.
Proof.
  intros Hl. unfold kept_flags.
  apply (nth_ext _ _ true true).
  - rewrite !length_map, length_seq, length_combine. lia.
  - intros i Hi. rewrite length_map, length_seq in Hi.
    match goal with
    | |- nth i (map ?f _) true = _ =>
        rewrite (nth_indep _ true (f 0%nat))
          by (rewrite length_map, length_seq; exact Hi);
        rewrite (map_nth f)
    end.
    rewrite seq_nth by exact Hi. cbn [Nat.add].
    rewrite (removed_flag _ _ _ i Hl Hi).
    match goal with
    | |- _ = nth i (map ?g _) true =>
        rewrite (nth_indep _ true (g (0, 0)))
          by (rewrite length_map, length_combine; lia);
        rewrite (map_nth g)
    end.
    rewrite combine_nth by lia. reflexivity.
Qed.

Lemma kept_flags_length (d : ann_data) :
  length (label_store d) = length (sample d) ->
  length (kept_flags d) = length (sample d).
Proof.
  intros Hl. unfold kept_flags. rewrite length_map, length_combine. lia.
Qed.

Lemma where_from_filter (test : Z -> bool) (l : list Z) :
  forall k,
    where_from test k l
    = filter (fun i => test (nth (i - k) l 0)) (seq k (length l)).
Proof.
  induction l as [| x l IH]; intros k; [reflexivity |].
  cbn [where_from length seq filter]. rewrite Nat.sub_diag. cbn [nth].
  rewrite IH.
  assert (E : filter (fun i => test (nth (i - S k) l 0)) (seq (S k) (length l))
              = filter (fun i => test (nth (i - k) (x :: l) 0))
                  (seq (S k) (length l))).
  { apply filter_ext_in. intros i Hi. apply in_seq in Hi.
    replace (i - k)%nat with (S (i - S k)) by lia. reflexivity. }
  rewrite E. reflexivity.
Qed.

Lemma where_from_0 (test : Z -> bool) (l : list Z) :
  where_from test 0 l
  = filter (fun i => test (nth i l 0)) (seq 0 (length l)).
Proof.
  rewrite where_from_filter. apply filter_ext. intros i.
  rewrite Nat.sub_0_r. reflexivity.
Qed.

Lemma filter_twice {A : Type} (f h : A -> bool) (l : list A) :
  filter h (filter f l) = filter (fun x => f x && h x) l.
Proof.
  induction l as [| x l IH]; [reflexivity |].
  cbn [filter]. destruct (f x); cbn [filter andb]; rewrite IH; reflexivity.
Qed.

Lemma rm_empty_indices_select (d : ann_data) :
  same_length d ->
  rm_empty_indices
    (snd (get_info_inds (sample d) (label_store d) (aux_note d))) d
  = Ok (select_rows (kept_flags d) d).
Proof.
  intros [Hl [Hst [Hc [Hn Ha]]]].
  pose proof (removed_flags d Hl) as Hf.
  set (rm := snd (get_info_inds (sample d) (label_store d) (aux_note d)))
    in *.
  unfold rm_empty_indices. destruct rm as [| r rm'] eqn:Erm.
  - assert (Hall : Forall (fun b => b = true) (kept_flags d)).
    { rewrite <- Hf. apply Forall_forall. intros b Hb.
      apply in_map_iff in Hb. destruct Hb as [i [<- _]]. reflexivity. }
    pose proof (kept_flags_length d Hl) as Hk.
    unfold select_rows.
    rewrite !select_all by (try exact Hall; lia).
    destruct d; reflexivity.
  - rewrite <- Hf.
    rewrite (pick_filter_seq_0 _ (sample d) _ eq_refl). cbn [bind].
    rewrite (pick_filter_seq_0 _ (label_store d) _ Hl). cbn [bind].
    rewrite (pick_filter_seq_0 _ (subtype d) _ Hst). cbn [bind].
    rewrite (pick_filter_seq_0 _ (chan d) _ Hc). cbn [bind].
    rewrite (pick_filter_seq_0 _ (num d) _ Hn). cbn [bind].
    rewrite (pick_filter_seq_0 _ (aux_note d) _ Ha). cbn [bind].
    reflexivity.
Qed.

Lemma set_inter_filter (x y : list nat) :
  set_inter Nat.eq_dec x y = filter (fun a => set_mem Nat.eq_dec a y) x.
Proof.
  induction x as [| a x IH]; [reflexivity |].
  cbn [set_inter filter]. rewrite IH. reflexivity.
Qed.

Lemma where_eq_from_where_from (l : list Z) (v : Z) :
  forall k, where_eq_from k l v = where_from (fun x => x =? v) k l.
Proof.
  induction l as [| x l IH]; intros k; [reflexivity |].
  cbn [where_eq_from where_from]. rewrite IH. reflexivity.
Qed.

Lemma set_mem_where_eq (l : list Z) (v : Z) (i : nat) :
  (i < length l)%nat ->
  set_mem Nat.eq_dec i (where_eq l v) = (nth i l 0 =? v).
Proof.
  intros Hi.
  assert (Hn : nth_error l i = Some (nth i l 0))
    by (apply nth_error_nth'; exact Hi).
  destruct (Z.eqb_spec (nth i l 0) v) as [E | E].
  - apply set_mem_correct2. apply where_eq_iff. congruence.
  - apply set_mem_complete2. intros H. apply where_eq_iff in H. congruence.
Qed.

Lemma potential_info_inds_filter (s l : list Z) (a : list pystr) :
  length l = length s ->
  fst (get_info_inds s l a)
  = filter (fun i => (nth i s 0 =? 0) && (nth i l 0 =? 22))
      (seq 0 (length s)).
Proof.
  intros Hl. unfold get_info_inds. cbv zeta. cbn [fst].
  rewrite set_inter_filter.
  replace (where_eq s 0) with (where_from (fun x => x =? 0) 0 s)
    by (symmetry; apply where_eq_from_where_from).
  rewrite where_from_0, filter_twice.
  apply filter_ext_in. intros i Hi. apply in_seq in Hi. f_equal.
  apply set_mem_where_eq. lia.
Qed.

(** X5.  [get_info_inds] and [rm_empty_indices] together take out of the
    six lists the annotations with store value 0 and the comments (store
    value 22) at sample 0, and nothing else: [potential_info_inds] holds
    the indices of the comments at sample 0, and what is left after
    [rm_empty_indices] is, in each list and in the order of the file, the
    cells of the annotations that are neither.  This holds too when there
    is nothing to take out, where [rm_empty_indices] hands the lists back
    as they are. *)
Theorem rm_empty_indices_keeps_the_rest (d : ann_data) :
  same_length d ->
  fst (get_info_inds (sample d) (label_store d) (aux_note d))
  = filter (fun i => (nth i (sample d) 0 =? 0)
                     && (nth i (label_store d) 0 =? 22))
      (seq 0 (length (sample d)))
  /\ rm_empty_indices
       (snd (get_info_inds (sample d) (label_store d) (aux_note d))) d
     = Ok (select_rows (kept_flags d) d).
Proof.
  intros H. split.
  - apply potential_info_inds_filter. apply H.
  - apply rm_empty_indices_select. exact H.
Qed.

Lemma rm_empty_indices_keeps_the_rest_witness :
  let d :=
    mk_ann_data [0; 0; 5; 9] [22; 0; 1; 22] [0; 0; 0; 0] [0; 0; 2; 2]
      [0; 0; 0; 0] [str "## time resolution: 360"; []; []; str "note"] in
  same_length d
  /\ rm_empty_indices
       (snd (get_info_inds (sample d) (label_store d) (aux_note d))) d
     = Ok (mk_ann_data [5; 9] [1; 22] [0; 0] [2; 2] [0; 0] [[]; str "note"]).
Proof.
  intros d.
  assert (Hs : same_length d) by (repeat split).
  split; [exact Hs |].
  exact (proj2 (rm_empty_indices_keeps_the_rest d Hs)).
Defined.

(** ** The sample range *)

Lemma intersect1d_filter (f g : nat -> bool) (l : list nat) :
  intersect1d (filter f l) (filter g l) = filter (fun i => f i && g i) l.
Proof.
  unfold intersect1d. rewrite filter_twice. apply filter_ext_in.
  intros i Hi. f_equal.
  destruct (g i) eqn:Eg.
  - apply existsb_exists. exists i. split; [| apply Nat.eqb_refl].
    apply filter_In. split; assumption.
  - destruct (existsb (Nat.eqb i) (filter g l)) eqn:Ee; [| reflexivity].
    apply existsb_exists in Ee. destruct Ee as [j [Hj Hij]].
    apply Nat.eqb_eq in Hij. subst j. apply filter_In in Hj.
    destruct Hj as [_ Hj]. congruence.
Qed.

Lemma select_flags_Forall (p : Z -> bool) (l : list Z) :
  Forall (fun x => p x = true) (select (map p l) l).
Proof.
  induction l as [| x l IH]; [constructor |].
  cbn [map select]. destruct (p x) eqn:E; [constructor |]; assumption.
Qed.

Lemma last_item_Ok (a : list Z) : a <> [] -> last_item a = Ok (last a 0).
Proof. destruct a; [congruence | reflexivity]. Qed.

(** [apply_range] keeps the annotations whose sample is in the range. *)
Lemma apply_range_select (d : ann_data) (sampfrom : Z) (sampto : option Z) :
  same_length d ->
  sample d <> [] \/ sampto_truthy sampto = true ->
  apply_range d sampfrom sampto
  = Ok (select_rows (map (in_range sampfrom (range_end d sampto)) (sample d))
          d).
Proof.
  intros [Hl [Hst [Hc [Hn Ha]]]] Hne.
  set (hi := range_end d sampto).
  unfold apply_range.
  assert (E : match sampto with
              | Some s => if s =? 0 then last_item (sample d) else Ok s
              | None => last_item (sample d)
              end = Ok hi).
  { unfold hi, range_end.
    destruct sampto as [s |]; [destruct (s =? 0) eqn:E0 |];
      try reflexivity;
      (destruct Hne as [Hne | Hne];
       [exact (last_item_Ok _ Hne) |]);
      unfold sampto_truthy in Hne; try rewrite E0 in Hne; discriminate. }
  rewrite E. cbn [bind].
  rewrite !where_from_0, intersect1d_filter.
  assert (Ef : map (fun i => (nth i (sample d) 0 >=? sampfrom)
                             && (nth i (sample d) 0 <=? hi))
                 (seq 0 (length (sample d)))
               = map (in_range sampfrom hi) (sample d)).
  { rewrite <- (map_seq_nth (in_range sampfrom hi) (sample d)).
    apply map_ext. intros i. unfold in_range. rewrite Z.geb_leb.
    reflexivity. }
  rewrite <- Ef.
  rewrite (pick_filter_seq_0 _ (sample d) _ eq_refl). cbn [bind].
  rewrite (pick_filter_seq_0 _ (label_store d) _ Hl). cbn [bind].
  rewrite (pick_filter_seq_0 _ (subtype d) _ Hst). cbn [bind].
  rewrite (pick_filter_seq_0 _ (chan d) _ Hc). cbn [bind].
  rewrite (pick_filter_seq_0 _ (num d) _ Hn). cbn [bind].
  rewrite (pick_filter_seq_0 _ (aux_note d) _ Ha). cbn [bind].
  reflexivity.
Qed.

(** X6.  [apply_range] keeps, in each of the six fields and in the order
    they have, the annotations whose sample lies between [sampfrom] and
    [sampto], both ends included, and drops the others; a [sampto] that is
    [None] or 0 stands for the sample of the last annotation.  Every sample
    that is left lies in the range.  With no annotation at all and no
    [sampto] the method raises IndexError. *)
Theorem apply_range_keeps_the_range :
  (forall d sampfrom sampto,
      same_length d ->
      sample d <> [] \/ sampto_truthy sampto = true ->
      let hi := range_end d sampto in
      apply_range d sampfrom sampto
      = Ok (select_rows (map (in_range sampfrom hi) (sample d)) d)
      /\ Forall (fun s => sampfrom <= s <= hi)
           (select (map (in_range sampfrom hi) (sample d)) (sample d)))
  /\ (forall d sampfrom sampto,
         sample d = [] ->
         sampto_truthy sampto = false ->
         apply_range d sampfrom sampto = Raise IndexError).
Proof.
  split.
  - intros d sampfrom sampto Hsl Hne hi.
    split.
    + apply apply_range_select; assumption.
    + eapply Forall_impl; [| apply select_flags_Forall].
      intros s Hs. unfold in_range in Hs. apply andb_true_iff in Hs.
      destruct Hs as [H1 H2]. apply Z.leb_le in H1, H2. lia.
  - intros d sampfrom sampto Hs Ht. unfold apply_range. rewrite Hs.
    destruct sampto as [s |]; [| reflexivity].
    unfold sampto_truthy in Ht. apply negb_false_iff in Ht. rewrite Ht.
    reflexivity.
Qed.

Lemma apply_range_keeps_the_range_witness :
  let d :=
    mk_ann_data [5; 10; 15; 20] [1; 5; 1; 1] [0; 0; 0; 0] [0; 0; 1; 1]
      [0; 0; 0; 0] [[]; str "a"; []; str "b"] in
  same_length d
  /\ apply_range d 10 (Some 15)
     = Ok (mk_ann_data [10; 15] [5; 1] [0; 0] [0; 1] [0; 0] [str "a"; []])
  /\ apply_range no_data 0 None = Raise IndexError.
Proof.
  intros d.
  assert (Hs : same_length d) by (repeat split).
  split; [exact Hs |]. split.
  - exact (proj1 (proj1 apply_range_keeps_the_range d 10 (Some 15) Hs
                    (or_intror eq_refl))).
  - exact (proj2 apply_range_keeps_the_range no_data 0 None eq_refl eq_refl).
Defined.


(** ** What the checks of the fields accept *)

Lemma check_range_raises (lo hi : Z) (a : list Z) (e : exn) :
  check_range lo hi a = Raise e -> e = ValueError.
Proof.
  unfold check_range. destruct a as [| x a]; cbn [py_min py_max bind].
  - intros H. injection H as <-. reflexivity.
  - destruct (fold_left Z.min a x <? lo);
      [| destruct (fold_left Z.max a x >? hi)];
      try discriminate; intros H; injection H as <-; reflexivity.
Qed.

Lemma typed_check_range_iff (item : option (list Z)) (lo hi : Z) :
  ((x <- typed item ;; check_range lo hi x) = Ok tt
   <-> cells_within lo hi item)
  /\ (item = None ->
      (x <- typed item ;; check_range lo hi x) = Raise TypeError)
  /\ (item <> None -> ~ cells_within lo hi item ->
      (x <- typed item ;; check_range lo hi x) = Raise ValueError).
Proof.
  unfold cells_within. destruct item as [l |]; cbn [typed bind].
  - split; [| split].
    + rewrite check_range_Ok. split.
      * intros [H1 H2]. exists l. repeat split; assumption.
      * intros [l' [E [H1 H2]]]. injection E as <-. split; assumption.
    + discriminate.
    + intros _ Hn. destruct (check_range lo hi l) as [[] | e] eqn:E.
      * exfalso. apply Hn. apply check_range_Ok in E. destruct E.
        exists l. repeat split; assumption.
      * rewrite (check_range_raises _ _ _ _ E). reflexivity.
  - split; [| split].
    + split; [discriminate | intros [l [E _]]; discriminate].
    + reflexivity.
    + congruence.
Qed.

(** X7.  The checks of the numeric fields.  [check_field] accepts
    [subtype] and [num] exactly when the field is set, is not empty and
    has all its cells in 0..127, [chan] exactly when it is set, not empty
    and within 0..255, and [label_store] exactly when it is set, not empty
    and within 1..49.  A field that is [None] is a TypeError; an empty
    array (the [min] of nothing) and a cell out of range are a
    ValueError. *)
Theorem check_field_numeric_fields (self : Annotation) :
  let verdict (field : ann_field) (lo hi : Z) (item : option (list Z)) :=
    (check_field self field = Ok tt <-> cells_within lo hi item)
    /\ (item = None -> check_field self field = Raise TypeError)
    /\ (item <> None -> ~ cells_within lo hi item ->
        check_field self field = Raise ValueError) in
  verdict fld_subtype 0 127 (ann_subtype self)
  /\ verdict fld_chan 0 255 (ann_chan self)
  /\ verdict fld_num 0 127 (ann_num self)
  /\ verdict fld_label_store 1 49 (ann_label_store self).
Proof.
  cbv zeta. cbn [check_field].
  repeat split; try apply typed_check_range_iff.
Qed.

Lemma check_field_numeric_fields_witness :
  let self :=
    mk_Annotation [5; 10] (Some [str "N"; str "N"]) (Some [0; 128])
      (Some [0; 255]) None (Some [[]; []]) (Some []) in
  check_field self fld_subtype = Raise ValueError
  /\ check_field self fld_chan = Ok tt
  /\ check_field self fld_num = Raise TypeError
  /\ check_field self fld_label_store = Raise ValueError.
Proof.
  intros self.
  destruct (check_field_numeric_fields self)
    as [[_ [_ Hs]] [[Hc _] [[_ [Hn _]] [_ [_ Hl]]]]].
  split; [| split; [| split]].
  - apply Hs; [discriminate |]. intros [l [E [_ H]]].
    injection E as <-. inversion H as [| ? ? _ H']; subst.
    inversion H' as [| ? ? H1 _]; subst. lia.
  - apply Hc. exists [0; 255]. split; [reflexivity |].
    split; [discriminate |]. repeat constructor; lia.
  - apply Hn. reflexivity.
  - apply Hl; [discriminate |]. intros [l [E [Hne _]]].
    injection E as <-. apply Hne. reflexivity.
Defined.

Lemma existsb_false {A : Type} (f : A -> bool) (l : list A) :
  existsb f l = false <-> Forall (fun x => f x = false) l.
Proof.
  induction l as [| x l IH]; cbn [existsb].
  - split; [constructor | reflexivity].
  - rewrite orb_false_iff, IH. split.
    + intros [H1 H2]. constructor; assumption.
    + intros H. inversion H; subst. split; assumption.
Qed.

Lemma check_symbol_element_Ok (e : pystr) :
  check_symbol_element e = Ok tt <-> symbol_ok e.
Proof.
  unfold check_symbol_element, symbol_ok.
  destruct ((1 <=? length e)%nat && (length e <=? 3)%nat) eqn:El;
    cbn [negb].
  - apply andb_true_iff in El. destruct El as [E1 E2].
    apply Nat.leb_le in E1, E2.
    destruct (existsb is_blank_char e) eqn:Eb.
    + split; [discriminate |]. intros [_ H]. apply existsb_false in H.
      congruence.
    + apply existsb_false in Eb. split; [intros _ | reflexivity].
      split; [lia | exact Eb].
  - split; [discriminate |]. intros [H _].
    apply andb_false_iff in El.
    destruct El as [El | El]; apply Nat.leb_gt in El; lia.
Qed.

Lemma check_note_element_Ok (e : pystr) :
  check_note_element e = Ok tt <-> note_ok e.
Proof.
  unfold check_note_element, note_ok.
  destruct (existsb is_tab_or_newline e) eqn:Eb.
  - split; [discriminate |]. intros H. apply existsb_false in H. congruence.
  - apply existsb_false in Eb. split; [intros _; exact Eb | reflexivity].
Qed.

Lemma check_each_iff {A : Type} (check : A -> result unit) (l : list A) :
  check_each check l = Ok tt <-> Forall (fun x => check x = Ok tt) l.
Proof.
  split; [apply check_each_Ok |].
  induction l as [| x l IH]; intros H; [reflexivity |].
  inversion H as [| ? ? Hx Hl]; subst. cbn [check_each]. rewrite Hx.
  cbn [bind]. apply IH. exact Hl.
Qed.

Lemma check_each_raises {A : Type} (check : A -> result unit) (l : list A)
    (e : exn) :
  check_each check l = Raise e -> exists x, In x l /\ check x = Raise e.
Proof.
  induction l as [| x l IH]; cbn [check_each]; [discriminate |].
  destruct (check x) as [[] | e'] eqn:E; cbn [bind].
  - intros H. destruct (IH H) as [y [Hy Hc]]. exists y.
    split; [right; exact Hy | exact Hc].
  - intros H. injection H as <-. exists x. split; [left; reflexivity | exact E].
Qed.

Lemma typed_check_each_iff (check : pystr -> result unit)
    (ok : pystr -> Prop) (item : option (list pystr)) :
  (forall e, check e = Ok tt <-> ok e) ->
  (forall e x, check e = Raise x -> x = ValueError) ->
  ((x <- typed item ;; check_each check x) = Ok tt <-> strings_all ok item)
  /\ (item = None ->
      (x <- typed item ;; check_each check x) = Raise TypeError)
  /\ (item <> None -> ~ strings_all ok item ->
      (x <- typed item ;; check_each check x) = Raise ValueError).
Proof.
  intros Hok Hraise. unfold strings_all.
  assert (Hall : forall l, check_each check l = Ok tt <-> Forall ok l).
  { intros l. rewrite check_each_iff. split; apply Forall_impl; apply Hok. }
  destruct item as [l |]; cbn [typed bind].
  - split; [| split].
    + rewrite Hall. split.
      * intros H. exists l. split; [reflexivity | exact H].
      * intros [l' [E H]]. injection E as <-. exact H.
    + discriminate.
    + intros _ Hn. destruct (check_each check l) as [[] | e] eqn:E.
      * exfalso. apply Hn. exists l. split; [reflexivity |].
        apply Hall. exact E.
      * destruct (check_each_raises _ _ _ E) as [x [_ Hx]].
        rewrite (Hraise _ _ Hx). reflexivity.
  - split; [| split].
    + split; [discriminate | intros [l [E _]]; discriminate].
    + reflexivity.
    + congruence.
Qed.

Lemma symbol_checks :
  (forall e, check_symbol_element e = Ok tt <-> symbol_ok e)
  /\ (forall e x, check_symbol_element e = Raise x -> x = ValueError).
Proof.
  split; [apply check_symbol_element_Ok |].
  intros e x. unfold check_symbol_element.
  destruct (negb ((1 <=? length e)%nat && (length e <=? 3)%nat));
    [| destruct (existsb is_blank_char e)]; try discriminate;
    intros H; injection H as <-; reflexivity.
Qed.

Lemma note_checks :
  (forall e, check_note_element e = Ok tt <-> note_ok e)
  /\ (forall e x, check_note_element e = Raise x -> x = ValueError).
Proof.
  split; [apply check_note_element_Ok |].
  intros e x. unfold check_note_element.
  destruct (existsb is_tab_or_newline e); try discriminate.
  intros H. injection H as <-. reflexivity.
Qed.


(** X8.  The checks of the fields of strings.  [check_field] accepts
    [symbol] exactly when it is set and each of its cells has one to three
    characters, none a space, tab, newline, carriage return, form feed or
    vertical tab; it accepts [aux_note] exactly when it is set and no cell
    holds a tab, newline, carriage return, form feed or vertical tab (a
    space and the empty note are fine, and so is the empty list for both
    fields).  [None] is a TypeError, a cell that fails a ValueError. *)
Theorem check_field_string_fields (self : Annotation) :
  ((check_field self fld_symbol = Ok tt
    <-> strings_all symbol_ok (ann_symbol self))
   /\ (ann_symbol self = None ->
       check_field self fld_symbol = Raise TypeError)
   /\ (ann_symbol self <> None -> ~ strings_all symbol_ok (ann_symbol self) ->
       check_field self fld_symbol = Raise ValueError))
  /\ ((check_field self fld_aux_note = Ok tt
       <-> strings_all note_ok (ann_aux_note self))
      /\ (ann_aux_note self = None ->
          check_field self fld_aux_note = Raise TypeError)
      /\ (ann_aux_note self <> None ->
          ~ strings_all note_ok (ann_aux_note self) ->
          check_field self fld_aux_note = Raise ValueError)).
Proof.
  cbn [check_field]. split; apply typed_check_each_iff;
    solve [apply symbol_checks | apply note_checks].
Qed.

Lemma check_field_string_fields_witness :
  let self :=
    mk_Annotation [5; 10] (Some [str "N"; str "N N"]) None None None
      (Some [[]; str "a note"]) None in
  check_field self fld_symbol = Raise ValueError
  /\ check_field self fld_aux_note = Ok tt.
Proof.
  intros self.
  destruct (check_field_string_fields self) as [[_ [_ Hs]] [Ha _]].
  split.
  - apply Hs; [discriminate |]. intros [l [E H]]. injection E as <-.
    inversion H as [| ? ? _ H']; subst.
    inversion H' as [| ? ? [_ Hb] _]; subst.
    inversion Hb as [| ? ? _ Hb']; subst.
    inversion Hb' as [| ? ? Hsp _]; subst. discriminate.
  - apply Ha. exists [[]; str "a note"]. split; [reflexivity |].
    repeat constructor.
Defined.




(** ** The shape of a written file *)

Lemma Even_length_app {A : Type} (a b : list A) :
  Nat.Even (length a) -> Nat.Even (length b) -> Nat.Even (length (a ++ b)).
Proof.
  intros [n Hn] [m Hm]. exists (n + m)%nat. rewrite length_app. lia.
Qed.

Lemma Even_length_padded (l : list Z) :
  Nat.Even (length (l ++ (if Nat.odd (length l) then [0] else []))).
Proof.
  rewrite length_app. destruct (Nat.odd (length l)) eqn:E; cbn [length].
  - apply Nat.odd_spec in E. destruct E as [b Hb]. exists (b + 1)%nat. lia.
  - rewrite Nat.add_0_r. apply Nat.even_spec.
    rewrite <- Nat.negb_odd, E. reflexivity.
Qed.

Lemma field2bytes_Even (fv : field_value) (w : list Z) :
  field2bytes fv = Ok w -> Nat.Even (length w).
Proof.
  destruct fv as [sd sym | v | v | v | s]; cbn [field2bytes].
  - destruct (typecode_of sym) as [c |]; cbn [bind]; [| discriminate].
    destruct (sd >? 1023); intros H; injection H as <-;
      [exists 4%nat | exists 1%nat]; reflexivity.
  - intros H; injection H as <-. exists 1%nat. reflexivity.
  - intros H; injection H as <-. exists 1%nat. reflexivity.
  - intros H; injection H as <-. exists 1%nat. reflexivity.
  - intros H; injection H as <-.
    apply (Even_length_app [Z.of_nat (length s); 252]);
      [exists 1%nat; reflexivity | apply Even_length_padded].
Qed.

Lemma extra_bytes_Even (c : compact_fields) (i : nat) :
  forall fields xs,
    extra_bytes c fields i = Ok xs ->
    Forall (fun w => Nat.Even (length w)) xs.
Proof.
  induction fields as [| f fields IH]; intros xs H; cbn [extra_bytes] in H.
  - injection H as <-. constructor.
  - bind_inv H. destruct a as [fv |].
    + bind_inv H. bind_inv H. injection H as <-.
      constructor; [eapply field2bytes_Even; eassumption | apply IH; assumption].
    + apply IH. exact H.
Qed.

Lemma core_loop_Even (self : Annotation) (c : compact_fields)
    (fields : list extra_field) :
  forall sds i xs,
    core_loop self c fields i sds = Ok xs ->
    Forall (fun w => Nat.Even (length w)) xs.
Proof.
  induction sds as [| sd sds IH]; intros i xs H; cbn [core_loop] in H.
  - injection H as <-. constructor.
  - bind_inv H. bind_inv H. bind_inv H. bind_inv H. injection H as <-.
    constructor; [eapply field2bytes_Even; eassumption |].
    apply Forall_app. split; [eapply extra_bytes_Even; eassumption |].
    eapply IH; eassumption.
Qed.

Lemma concat_Even (xs : list (list Z)) :
  Forall (fun w => Nat.Even (length w)) xs -> Nat.Even (length (concat xs)).
Proof.
  induction 1 as [| w xs Hw _ IH]; [exists 0%nat; reflexivity |].
  cbn [concat]. apply Even_length_app; assumption.
Qed.

Lemma calc_core_bytes_Even (self : Annotation) (bs : list Z) :
  calc_core_bytes self = Ok bs -> Nat.Even (length bs).
Proof.
  unfold calc_core_bytes, core_data_bytes. intros H.
  bind_inv H. injection H as <-. rewrite length_map. apply concat_Even.
  bind_inv Ha. bind_inv Ha. eapply core_loop_Even; eassumption.
Qed.

Lemma setitem_length {A : Type} (l : list A) :
  forall i v, length (setitem l i v) = length l.
Proof.
  induction l as [| x l IH]; intros [| i] v; cbn [setitem length];
    try reflexivity.
  rewrite IH. reflexivity.
Qed.

Lemma calc_fs_bytes_Even (F : float_model) (fs : option (fs_value F)) :
  Nat.Even (length (snd (calc_fs_bytes fs))).
Proof.
  destruct fs as [v |]; [| exists 0%nat; reflexivity].
  unfold calc_fs_bytes. cbn [snd]. rewrite length_map.
  match goal with
  | |- context [setitem (?h ++ ?chars) 2 ?v ++ ?pad] =>
      assert (E : length (setitem (h ++ chars) 2 v ++ pad)
                  = length (h ++ (chars ++ pad)))
        by (rewrite !length_app, setitem_length, length_app; lia);
      rewrite E; apply Even_length_app;
        [exists 12%nat; reflexivity | apply Even_length_padded]
  end.
Qed.

Lemma custom_bytes_Even (rows : list custom_label) :
  forall b, custom_bytes rows = Ok b -> Nat.Even (length b).
Proof.
  induction rows as [| r rows IH]; intros b H; cbn [custom_bytes] in H.
  - injection H as <-. exists 0%nat. reflexivity.
  - bind_inv H. bind_inv H. injection H as <-.
    apply Even_length_app; [| apply IH; assumption].
    destruct r as [[st sym] desc]. unfold custom_triplet_bytes in Ha.
    destruct sym as [| c [| c' sym]]; try discriminate.
    injection Ha as <-.
    match goal with
    | |- Nat.Even (length (?a :: ?b :: ?c :: ?d :: ?l ++ _)) =>
        exact (Even_length_padded (a :: b :: c :: d :: l))
    end.
Qed.

Lemma calc_cl_bytes_Even (custom_labels : option (list custom_label))
    (b : list Z) :
  calc_cl_bytes custom_labels = Ok b -> Nat.Even (length b).
Proof.
  destruct custom_labels as [rows |]; cbn [calc_cl_bytes]; intros H.
  - bind_inv H.
    match type of H with
    | Ok ?x = Ok _ => assert (E : b = x) by congruence
    end.
    rewrite E, length_map.
    match goal with
    | |- Nat.Even (length (?h ++ _ ++ ?t)) =>
        apply (Even_length_app h); [exists 17%nat; reflexivity |];
        apply Even_length_app;
          [eapply custom_bytes_Even; eassumption | exists 13%nat; reflexivity]
    end.
  - injection H as <-. exists 0%nat. reflexivity.
Qed.

Lemma astype_u1_is_byte (l : list Z) : Forall is_byte (map astype_u1 l).
Proof.
  apply Forall_forall. intros b Hb. apply in_map_iff in Hb.
  destruct Hb as [x [<- _]]. unfold is_byte, astype_u1.
  Z.to_euclidean_division_equations. lia.
Qed.

Lemma pairs_of_bytes (n : nat) :
  forall l : list Z,
    length l = (2 * n)%nat -> Forall is_byte l -> rows_of_bytes (pairs_of l).
Proof.
  induction n as [| n IH]; intros l Hl Hb.
  - destruct l; [constructor | simpl in Hl; lia].
  - destruct l as [| x [| y l]]; simpl in Hl; try lia.
    inversion Hb as [| ? ? Hx Hb']; subst.
    inversion Hb' as [| ? ? Hy Hb'']; subst.
    cbn [pairs_of]. constructor; [split; assumption |].
    apply IH; [lia | assumption].
Qed.

(** X10.  Whatever the object holds, a file that [wr_ann_file] writes is a
    file of byte pairs that ends with the pair of zeros: with or without
    the bytes of [calc_fs_bytes] and of [calc_cl_bytes], the number of
    bytes is even, since every word of [field2bytes] and every definition
    is padded to a whole pair, so [load_byte_pairs] can reshape them to
    rows of two, and the last row is [0, 0]. *)
Theorem written_file_is_byte_pairs (F : float_model) (self : Annotation)
    (fs : option (fs_value F)) (custom_labels : option (list custom_label))
    (cl_bytes bs : list Z) :
  calc_cl_bytes custom_labels = Ok cl_bytes ->
  wr_ann_file self (snd (calc_fs_bytes fs)) cl_bytes = Ok bs ->
  exists rows,
    reshape_pairs bs = Ok (rows ++ [(0, 0)])
    /\ rows_of_bytes (rows ++ [(0, 0)])
    /\ flatten (rows ++ [(0, 0)]) = bs.
Proof.
  intros Hcl Hw. unfold wr_ann_file in Hw. bind_inv Hw. injection Hw as <-.
  rename a into core. set (fsb := snd (calc_fs_bytes fs)).
  match goal with
  | |- context [fsb ++ cl_bytes ++ ?sp ++ core ++ [0; 0]] =>
      set (special := sp);
      assert (Ebody : fsb ++ cl_bytes ++ special ++ core ++ [0; 0]
                      = (fsb ++ cl_bytes ++ special ++ core) ++ [0; 0])
        by (rewrite <- !app_assoc; reflexivity);
      assert (Heven : Nat.Even (length (fsb ++ cl_bytes ++ special ++ core)))
  end.
  { apply Even_length_app; [apply calc_fs_bytes_Even |].
    apply Even_length_app; [eapply calc_cl_bytes_Even; eassumption |].
    apply Even_length_app; [| eapply calc_core_bytes_Even; eassumption].
    unfold special. destruct fsb; [destruct cl_bytes |];
      [exists 0%nat | exists 4%nat | exists 4%nat]; reflexivity. }
  rewrite Ebody, map_app. destruct Heven as [n Hn].
  set (body := map astype_u1 (fsb ++ cl_bytes ++ special ++ core)).
  assert (Hlen : length body = (2 * n)%nat)
    by (unfold body; rewrite length_map; exact Hn).
  change (map astype_u1 [0; 0]) with [0; 0].
  exists (pairs_of body). split; [| split].
  - rewrite (reshape_pairs_of (S n)) by (rewrite length_app, Hlen; simpl; lia).
    rewrite (pairs_of_app n _ _ Hlen). reflexivity.
  - apply Forall_app. split.
    + apply (pairs_of_bytes n _ Hlen). apply astype_u1_is_byte.
    + repeat constructor; cbn; lia.
  - unfold flatten. rewrite flat_map_app.
    change (flat_map (fun p => [fst p; snd p]) [(0, 0)]) with [0; 0].
    f_equal. exact (flatten_pairs_of n _ Hlen).
Qed.

Lemma written_file_is_byte_pairs_witness :
  let self :=
    mk_Annotation [10; 2000] (Some [str "N"; str "V"]) None None None
      (Some [str "odd"; []]) None in
  exists rows,
    reshape_pairs
      ([0; 88; 23; 252] ++ str "## time resolution: 360" ++ [0]
         ++ [0; 236; 255; 255; 255; 255; 1; 0]
         ++ [10; 4; 3; 252] ++ str "odd"
         ++ [0; 0; 236; 0; 0; 198; 7; 0; 20; 0; 0])
    = Ok (rows ++ [(0, 0)]).
Proof.
  intros self.
  assert (Hcl : calc_cl_bytes None = Ok []) by reflexivity.
  assert (Hw : wr_ann_file self
                 (snd (calc_fs_bytes (Some (@FsInt int_floats 360)))) []
               = Ok ([0; 88; 23; 252] ++ str "## time resolution: 360" ++ [0]
                       ++ [0; 236; 255; 255; 255; 255; 1; 0]
                       ++ [10; 4; 3; 252] ++ str "odd"
                       ++ [0; 0; 236; 0; 0; 198; 7; 0; 20; 0; 0]))
    by reflexivity.
  destruct (written_file_is_byte_pairs int_floats self _ None _ _ Hcl Hw)
    as [rows [Hr _]].
  exists rows. exact Hr.
Defined.


(** ** Decimal text *)

Lemma str_cons (c : ascii) (s : string) : str (String c s) = ord c :: str s.
Proof. reflexivity. Qed.

Lemma digits_of_uint_acc (d : Decimal.uint) :
  forall acc,
    fold_left (fun a c => 10 * a + (c - 48))
      (str (NilEmpty.string_of_uint d)) (Z.pos acc)
    = Z.pos (Pos.of_uint_acc d acc).
Proof.
  induction d; intros acc; cbn [NilEmpty.string_of_uint Pos.of_uint_acc];
    [reflexivity | ..];
    rewrite str_cons; cbn [fold_left]; rewrite <- IHd; f_equal;
    match goal with
    | |- context [ord ?c] =>
        let v := eval vm_compute in (ord c) in change (ord c) with v
    end; lia.
Qed.

Lemma digits_of_uint (d : Decimal.uint) :
  fold_left (fun a c => 10 * a + (c - 48))
    (str (NilEmpty.string_of_uint d)) 0
  = Z.of_N (Pos.of_uint d).
Proof.
  induction d; cbn [NilEmpty.string_of_uint Pos.of_uint];
    [reflexivity | ..];
    rewrite str_cons; cbn [fold_left];
    match goal with
    | |- context [ord ?c] =>
        let v := eval vm_compute in (ord c) in change (ord c) with v
    end;
    [exact IHd | ..];
    match goal with
    | |- fold_left _ _ ?x = Z.of_N (N.pos (Pos.of_uint_acc _ ?p)) =>
        change x with (Z.pos p)
    end;
    rewrite digits_of_uint_acc; reflexivity.
Qed.

Lemma uint_chars_digits (d : Decimal.uint) :
  Forall (fun c => is_digit c = true) (str (NilEmpty.string_of_uint d)).
Proof.
  induction d; cbn [NilEmpty.string_of_uint]; [constructor | ..];
    rewrite str_cons; constructor; solve [vm_compute; reflexivity | exact IHd].
Qed.

Lemma str_of_int_uint (n : Z) :
  0 <= n ->
  exists d,
    d <> Decimal.Nil
    /\ str_of_int n = str (NilEmpty.string_of_uint d)
    /\ Z.of_N (Pos.of_uint d) = n.
Proof.
  intros Hn. unfold str_of_int.
  pose proof (DecimalZ.of_to n) as Hz.
  destruct n as [| p | p]; [| | lia]; cbn [Z.to_int] in *.
  - exists (Decimal.D0 Decimal.Nil). repeat split. discriminate.
  - exists (Pos.to_uint p). split; [apply DecimalPos.Unsigned.to_uint_nonnil |].
    split; [| exact Hz].
    cbn [NilZero.string_of_int]. unfold NilZero.string_of_uint.
    pose proof (DecimalPos.Unsigned.to_uint_nonnil p) as Hnil.
    destruct (Pos.to_uint p); [congruence | reflexivity ..].
Qed.

(** The decimal text of an integer that is not negative is a string of
    digits, not empty, that [int] reads back as the integer. *)
Lemma str_of_int_digits (n : Z) :
  0 <= n ->
  str_of_int n <> []
  /\ Forall (fun c => is_digit c = true) (str_of_int n)
  /\ int_of_digits (str_of_int n) = n.
Proof.
  intros Hn. destruct (str_of_int_uint n Hn) as [d [Hd [-> Hv]]].
  split; [| split].
  - destruct d; [congruence | ..]; cbn [NilEmpty.string_of_uint];
      rewrite str_cons; discriminate.
  - apply uint_chars_digits.
  - unfold int_of_digits. rewrite digits_of_uint. exact Hv.
Qed.

(** ** The bytes of the definitions *)

Lemma comment_valid (note : pystr) :
  valid_note note -> valid_emitted (comment note).
Proof.
  intros H. unfold valid_emitted, comment. cbn.
  split; [lia |]. split; [lia |].
  constructor; [exact H | constructor].
Qed.

Lemma comment_groups (note : pystr) :
  concat (emitted_groups (comment note)) = [0; 88] ++ aux_group note.
Proof.
  unfold emitted_groups, emitted_extras, comment. cbn.
  rewrite app_nil_r. reflexivity.
Qed.

Lemma digits_bytes (l : list Z) :
  Forall (fun c => is_digit c = true) l -> Forall (fun c => 0 <= c <= 255) l.
Proof.
  apply Forall_impl. intros c H. unfold is_digit in H.
  apply andb_true_iff in H. destruct H as [H1 H2].
  apply Z.leb_le in H1, H2. lia.
Qed.

Lemma fs_note_valid (n : Z) :
  0 <= n -> (length (str_of_int n) <= 235)%nat -> valid_note (fs_note n).
Proof.
  intros Hn Hl. destruct (str_of_int_digits n Hn) as [_ [Hd _]].
  unfold valid_note, fs_note. split.
  - rewrite length_app. change (length (str "## time resolution: ")) with 20%nat.
    lia.
  - apply Forall_app. split; [| apply digits_bytes; exact Hd].
    vm_compute. repeat constructor; discriminate.
Qed.

Lemma odd_add_even (a b : nat) :
  Nat.even a = true -> Nat.odd (a + b) = Nat.odd b.
Proof.
  intros H. rewrite Nat.odd_add. rewrite <- Nat.negb_even, H. reflexivity.
Qed.

Lemma calc_fs_bytes_comment (F : float_model) (n : Z) :
  0 <= n -> (length (str_of_int n) <= 235)%nat ->
  snd (calc_fs_bytes (Some (@FsInt F n)))
  = concat (emitted_groups (comment (fs_note n))).
Proof.
  intros Hn Hl. pose proof (fs_note_valid n Hn Hl) as Hv.
  destruct (emitted_groups_bytes _ (comment_valid _ Hv)) as [Hb _].
  rewrite <- (astype_u1_bytes _ Hb).
  unfold calc_fs_bytes. cbn [snd str_of_fs]. f_equal.
  rewrite comment_groups. unfold aux_group, fs_note.
  rewrite length_app.
  change (length (str "## time resolution: ")) with 20%nat.
  rewrite (odd_add_even 20) by reflexivity.
  change (str "## time resolution: ")
    with [35; 35; 32; 116; 105; 109; 101; 32; 114; 101; 115; 111; 108; 117;
          116; 105; 111; 110; 58; 32].
  cbn [app setitem].
  replace (Z.of_nat (20 + length (str_of_int n)))
    with (Z.of_nat (length (str_of_int n)) + 20) by lia.
  reflexivity.
Qed.

Lemma label_note_valid (r : custom_label) :
  label_fits r -> valid_note (label_note r).
Proof.
  intros [Hst [[c [Hsym [_ Hc]]] [_ [Hd Hl]]]].
  destruct (str_of_int_digits _ Hst) as [_ [Hdig _]].
  split; [exact Hl |]. unfold label_note. rewrite Hsym.
  repeat (apply Forall_app; split).
  - apply digits_bytes. exact Hdig.
  - repeat constructor; lia.
  - repeat constructor; lia.
  - repeat constructor; lia.
  - eapply Forall_impl; [| exact Hd]. intros x [_ Hx]. exact Hx.
Qed.

Lemma custom_triplet_bytes_comment (r : custom_label) :
  label_fits r ->
  custom_triplet_bytes r = Ok (concat (emitted_groups (comment (label_note r)))).
Proof.
  intros Hf. destruct Hf as [Hst [[c [Hsym [Hsp Hc]]] [Hne [Hd Hl]]]].
  destruct r as [[st sym] desc]. cbn [row_label_store row_symbol
    row_description fst snd] in *. subst sym.
  unfold custom_triplet_bytes. f_equal.
  rewrite comment_groups. unfold aux_group, label_note.
  cbn [row_label_store row_symbol row_description fst snd].
  set (ds := str_of_int st). cbn [app].
  assert (El : length (ds ++ 32 :: c :: 32 :: desc)
               = (length desc + 3 + length ds)%nat)
    by (rewrite length_app; cbn [length]; lia).
  rewrite El. cbn [length].
  replace (Nat.odd (S (S (S (S (length ((ds ++ [32]) ++ c :: 32 :: desc)))))))
    with (Nat.odd (length desc + 3 + length ds)).
  2:{ rewrite <- app_assoc. cbn [app]. rewrite El.
      rewrite <- (odd_add_even 4 (length desc + 3 + length ds)) by reflexivity.
      reflexivity. }
  replace (Z.of_nat (length desc + 3 + length ds))
    with (Z.of_nat (length desc) + 3 + Z.of_nat (length ds)) by lia.
  rewrite <- !app_assoc. reflexivity.
Qed.

Lemma custom_bytes_comments (rows : list custom_label) :
  Forall label_fits rows ->
  custom_bytes rows
  = Ok (concat (flat_map emitted_groups (map comment (map label_note rows)))).
Proof.
  induction 1 as [| r rows Hr _ IH]; [reflexivity |].
  cbn [custom_bytes map flat_map].
  rewrite (custom_triplet_bytes_comment r Hr), IH. cbn [bind].
  rewrite concat_app. reflexivity.
Qed.

Lemma labels_notes_valid (rows : list custom_label) :
  Forall label_fits rows -> Forall valid_note (labels_notes rows).
Proof.
  intros H. unfold labels_notes. constructor.
  - split; [cbn; lia |]. vm_compute. repeat constructor; discriminate.
  - apply Forall_app. split.
    + apply Forall_forall. intros s Hs. apply in_map_iff in Hs.
      destruct Hs as [r [<- Hr]]. apply label_note_valid.
      rewrite Forall_forall in H. apply H. exact Hr.
    + constructor; [| constructor]. split; [cbn; lia |].
      vm_compute. repeat constructor; discriminate.
Qed.

Lemma comments_valid (notes : list pystr) :
  Forall valid_note notes -> Forall valid_emitted (map comment notes).
Proof.
  intros H. apply Forall_forall. intros e He. apply in_map_iff in He.
  destruct He as [s [<- Hs]]. apply comment_valid.
  rewrite Forall_forall in H. apply H. exact Hs.
Qed.

Lemma calc_cl_bytes_comments (rows : list custom_label) :
  Forall label_fits rows ->
  calc_cl_bytes (Some rows)
  = Ok (concat (flat_map emitted_groups (map comment (labels_notes rows)))).
Proof.
  intros H. pose proof (comments_valid _ (labels_notes_valid rows H)) as Hv.
  destruct (emitted_bytes _ Hv) as [Hb _].
  rewrite <- (astype_u1_bytes _ Hb).
  unfold calc_cl_bytes. rewrite (custom_bytes_comments rows H). cbn [bind].
  do 2 f_equal. unfold labels_notes.
  cbn [map flat_map]. rewrite map_app, flat_map_app, !concat_app.
  cbn [map flat_map]. rewrite app_nil_r, !comment_groups.
  rewrite <- !app_assoc. reflexivity.
Qed.


(** ** Reading the definitions of a file *)

Lemma pairs_rest_head_tag (es : list emitted) (rest : byte_pairs) :
  Forall valid_emitted es -> rest <> [] -> head_tag rest <= 59 ->
  concat (map emitted_pairs es) ++ rest <> []
  /\ head_tag (concat (map emitted_pairs es) ++ rest) <= 59.
Proof.
  intros Hv Hne Htag. split.
  - intros E. apply app_eq_nil in E. tauto.
  - destruct Hv as [| e es He _]; [exact Htag |].
    cbn [map concat]. rewrite <- app_assoc.
    apply emitted_pairs_head_tag. exact He.
Qed.

(** The reading loop over the words of the annotations [es], when other
    rows follow them. *)
Lemma ann_loop_prefix (es : list emitted) :
  forall (pre rest : byte_pairs) (d : ann_data) (total : Z) (fuel : nat),
    Forall valid_emitted es ->
    rest <> [] ->
    head_tag rest <= 59 ->
    ann_loop (length es + fuel)
      (pre ++ concat (map emitted_pairs es) ++ rest) None total
      (length pre) d
    = ann_loop fuel (pre ++ concat (map emitted_pairs es) ++ rest) None
        (snd (fold_left read_emitted es (d, total)))
        (length pre + length (concat (map emitted_pairs es)))
        (fst (fold_left read_emitted es (d, total))).
Proof.
  induction es as [| e es IH]; intros pre rest d total fuel Hv Hne Htag.
  - cbn [map concat length fold_left fst snd Nat.add app].
    rewrite Nat.add_0_r. reflexivity.
  - inversion Hv as [| e' es' He Hes]; subst.
    cbn [length Nat.add map concat].
    destruct (pairs_rest_head_tag es rest Hes Hne Htag) as [Hne' Htag'].
    assert (Hc : (Z.of_nat (length pre)
                  <? Z.of_nat (length (pre ++ (emitted_pairs e
                                                ++ concat (map emitted_pairs es))
                                           ++ rest)) - 1) = true).
    { apply Z.ltb_lt. rewrite !length_app.
      pose proof (emitted_pairs_length e He).
      destruct rest; [congruence |]. simpl. lia. }
    cbn [ann_loop]. rewrite Hc.
    rewrite <- (app_assoc (emitted_pairs e)).
    rewrite ann_body_emitted by assumption. cbn [bind past_sampto].
    rewrite (app_assoc pre), <- length_app.
    rewrite IH by assumption.
    cbn [fold_left]. rewrite !length_app, Nat.add_assoc.
    destruct (read_emitted (d, total) e) as [d1 t1] eqn:E.
    unfold read_emitted in E. injection E as <- <-. reflexivity.
Qed.

(** The pass of the reading loop over the eight bytes that close the
    definitions: the skip of -1 and the sample difference 1 give the
    running total back, and the store value is 0. *)
Lemma ann_body_end_mark (pre rest : byte_pairs) (d : ann_data) (total : Z) :
  rest <> [] ->
  head_tag rest <= 59 ->
  ann_body (pre ++ end_special_pairs ++ rest) total (length pre) d
  = Ok (total, (length pre + 4)%nat,
        mk_ann_data (sample d ++ [total]) (label_store d ++ [0])
          (subtype d ++ [0]) (chan d ++ [last (chan d) 0])
          (num d ++ [last (num d) 0]) (aux_note d ++ [[]])).
Proof.
  intros Hne Htag. unfold ann_body, proc_core_fields.
  rewrite row_app_0. cbn [row nth_error end_special_pairs app bind fst snd].
  change (negb (Z.shiftr 236 2 =? 59)) with false. cbv iota.
  rewrite !row_app. cbn [row nth_error app bind fst snd].
  change (65536 * 255 + 16777216 * 255 + 255 + 256 * 255 >? 2147483647)
    with true. cbv iota.
  change (65536 * 255 + 16777216 * 255 + 255 + 256 * 255 - 4294967296 + 1
          + 256 * Z.land 0 3) with 0.
  change (Z.shiftr 0 2) with 0. rewrite Z.add_0_r.
  assert (E : pre ++ (0, 236) :: (255, 255) :: (255, 255) :: (1, 0) :: rest
              = (pre ++ end_special_pairs) ++ rest)
    by (rewrite <- app_assoc; reflexivity).
  rewrite E.
  destruct (row_head (pre ++ end_special_pairs) _ Hne) as [r [Hrow Hr]].
  rewrite length_app in Hrow. cbn [length end_special_pairs] in Hrow.
  rewrite Hrow. cbn [bind]. rewrite Hr.
  assert (Hc : (head_tag rest >? 59) = false)
    by (rewrite Z.gtb_ltb; apply Z.ltb_ge; lia).
  destruct (length ((pre ++ end_special_pairs) ++ rest));
    cbn [extra_fields_loop]; rewrite Hc; reflexivity.
Qed.

Lemma last_app_cons {A : Type} (pre l : list A) (x d : A) :
  last (pre ++ x :: l) d = last (x :: l) d.
Proof.
  induction pre as [| y pre IH]; [reflexivity |].
  cbn [app]. rewrite <- IH. cbn [last].
  destruct (pre ++ x :: l) eqn:E; [| reflexivity].
  apply app_eq_nil in E. destruct E; discriminate.
Qed.

Lemma last_app_default (pre l : list Z) :
  last pre 0 = 0 -> last (pre ++ l) 0 = last l 0.
Proof.
  intros H. destruct l as [| x l]; [rewrite app_nil_r; exact H |].
  apply last_app_cons.
Qed.

Lemma read_emitted_app (pre : ann_data) (es : list emitted) :
  last (chan pre) 0 = 0 -> last (num pre) 0 = 0 ->
  forall d total,
    fold_left read_emitted es (app_data pre d, total)
    = (app_data pre (fst (fold_left read_emitted es (d, total))),
       snd (fold_left read_emitted es (d, total))).
Proof.
  intros Hc Hn. induction es as [| e es IH]; intros d total; [reflexivity |].
  cbn [fold_left].
  assert (E : read_emitted (app_data pre d, total) e
              = (app_data pre (fst (read_emitted (d, total) e)),
                 snd (read_emitted (d, total) e))).
  { unfold read_emitted, app_data.
    cbn [sample label_store subtype chan num aux_note fst snd].
    rewrite !last_app_default by assumption.
    rewrite <- !app_assoc. reflexivity. }
  rewrite E, IH.
  destruct (read_emitted (d, total) e) as [d1 t1]. reflexivity.
Qed.

Lemma app_data_no_data (d : ann_data) : app_data d no_data = d.
Proof.
  unfold app_data, no_data. cbn. rewrite !app_nil_r. destruct d; reflexivity.
Qed.

Lemma repeat_snoc {A : Type} (x : A) (n : nat) :
  repeat x n ++ [x] = repeat x (S n).
Proof. induction n as [| n IH]; [reflexivity |]. cbn. rewrite IH. reflexivity. Qed.

Lemma last_repeat (n : nat) : last (repeat 0 n) 0 = 0.
Proof.
  induction n as [| n IH]; [reflexivity |].
  cbn [repeat]. destruct n; [reflexivity |]. exact IH.
Qed.

Lemma read_comments (notes : list pystr) :
  forall pre : list pystr,
    fold_left read_emitted (map comment notes) (comments_data pre, 0)
    = (comments_data (pre ++ notes), 0).
Proof.
  induction notes as [| s notes IH]; intros pre.
  - rewrite app_nil_r. reflexivity.
  - cbn [map fold_left].
    assert (E : read_emitted (comments_data pre, 0) (comment s)
                = (comments_data (pre ++ [s]), 0)).
    { unfold read_emitted, comments_data, comment.
      cbn [sample label_store subtype chan num aux_note e_sd e_code
           e_subtype e_chan e_num e_aux_note or_else].
      rewrite last_repeat, length_app. cbn [length].
      rewrite Nat.add_1_r, !repeat_snoc. reflexivity. }
    rewrite E, IH, <- app_assoc. reflexivity.
Qed.

Lemma stream_of_length_ge (es : list emitted) :
  Forall valid_emitted es -> (length es + 1 <= length (stream_of es))%nat.
Proof.
  intros Hv. unfold stream_of. rewrite length_app.
  induction Hv as [| e es He _ IH]; [simpl; lia |].
  cbn [map concat length]. rewrite length_app.
  pose proof (emitted_pairs_length e He). simpl in *. lia.
Qed.

Lemma comments_pairs_length (es : list emitted) :
  Forall valid_emitted es ->
  (length es <= length (concat (map emitted_pairs es)))%nat.
Proof.
  induction 1 as [| e es He _ IH]; [simpl; lia |].
  cbn [map concat length]. rewrite length_app.
  pose proof (emitted_pairs_length e He). lia.
Qed.

(** Reading a file that starts with definitions: the comment annotations
    of the notes [notes], the eight bytes that close the definitions, then
    the words of the annotations [es] and the closing zero pair. *)
Lemma extract_ann_data_definitions (notes : list pystr) (es : list emitted) :
  Forall valid_note notes ->
  Forall valid_emitted es ->
  extract_ann_data
    (concat (map emitted_pairs (map comment notes)) ++ end_special_pairs
       ++ stream_of es) None
  = Ok (app_data (app_data (comments_data notes) (end_mark 0))
          (fst (fold_left read_emitted es (no_data, 0)))).
Proof.
  intros Hn Hv. pose proof (comments_valid notes Hn) as Hc.
  destruct (stream_of_head_tag es Hv) as [Hne Htag].
  unfold extract_ann_data.
  pose proof (comments_pairs_length _ Hc) as Hcp.
  pose proof (stream_of_length_ge es Hv) as Hs.
  set (cp := concat (map emitted_pairs (map comment notes))) in *.
  set (fb := cp ++ end_special_pairs ++ stream_of es).
  assert (Hfb : length fb = (length cp + 4 + length (stream_of es))%nat).
  { unfold fb. rewrite !length_app. cbn [length end_special_pairs]. lia. }
  set (fuel := (length fb - length (map comment notes) - 1)%nat).
  assert (Hfuel : (length es <= fuel)%nat) by (unfold fuel; lia).
  assert (Hlen : length fb = (length (map comment notes) + S fuel)%nat)
    by (unfold fuel; lia).
  rewrite Hlen. clearbody fuel.
  pose proof (ann_loop_prefix (map comment notes) []
                (end_special_pairs ++ stream_of es) no_data 0
                (S fuel) Hc
                ltac:(discriminate)
                ltac:(cbn; lia)) as Hp.
  cbn [app length Nat.add] in Hp. fold cp in Hp. fold fb in Hp.
  rewrite Hp. clear Hp.
  change no_data with (comments_data []).
  rewrite read_comments. cbn [app fst snd].
  assert (Hcond : (Z.of_nat (length cp) <? Z.of_nat (length fb) - 1) = true).
  { apply Z.ltb_lt. lia. }
  cbn [ann_loop]. rewrite Hcond. unfold fb at 1.
  rewrite (ann_body_end_mark cp (stream_of es) _ 0 Hne Htag).
  cbn [bind past_sampto].
  assert (Efb : fb = (cp ++ end_special_pairs) ++ stream_of es)
    by (unfold fb; rewrite app_assoc; reflexivity).
  assert (El : (length cp + 4)%nat = length (cp ++ end_special_pairs))
    by (rewrite length_app; reflexivity).
  rewrite Efb, El.
  rewrite ann_loop_emitted; [| exact Hfuel | exact Hv].
  f_equal.
  match goal with
  | |- fst (fold_left read_emitted es (?d0, 0)) = _ =>
      replace d0
        with (app_data (app_data (comments_data notes) (end_mark 0)) no_data)
  end.
  - rewrite read_emitted_app; [reflexivity | |];
      unfold app_data, comments_data, end_mark; cbn [chan num];
      apply last_app_cons.
  - rewrite app_data_no_data. unfold app_data, comments_data, end_mark.
    cbn [sample label_store subtype chan num aux_note].
    rewrite !last_repeat. reflexivity.
Qed.


(** ** The notes of the definitions, parsed *)

Lemma span_app_stop {A : Type} (p : A -> bool) (a b : list A) :
  Forall (fun x => p x = true) a ->
  match b with
  | [] => True
  | y :: _ => p y = false
  end ->
  span p (a ++ b) = (a, b).
Proof.
  intros Ha Hb. induction Ha as [| x a Hx _ IH].
  - destruct b as [| y b]; [reflexivity |]. cbn [app span]. rewrite Hb.
    reflexivity.
  - cbn [app span]. rewrite Hx, IH. reflexivity.
Qed.

Lemma span_all {A : Type} (p : A -> bool) (a : list A) :
  Forall (fun x => p x = true) a -> span p a = (a, []).
Proof.
  intros H. rewrite <- (app_nil_r a) at 1. apply span_app_stop; [exact H |].
  exact I.
Qed.

Lemma strip_prefix_app (p s : pystr) : strip_prefix p (p ++ s) = Some s.
Proof.
  induction p as [| c p IH]; [destruct s; reflexivity |].
  cbn [app strip_prefix]. rewrite Z.eqb_refl. exact IH.
Qed.

Lemma rx_fs_findall_0_eq (s : pystr) :
  rx_fs_findall_0 s
  = match rx_fs_at s with
    | Some g => Some g
    | None =>
        match s with
        | [] => None
        | _ :: s' => rx_fs_findall_0 s'
        end
    end.
Proof. destruct s; reflexivity. Qed.

Lemma rx_fs_of_fs_note (n : Z) :
  0 <= n -> rx_fs_findall_0 (fs_note n) = Some (str_of_int n).
Proof.
  intros Hn. destruct (str_of_int_digits n Hn) as [Hne [Hd _]].
  rewrite rx_fs_findall_0_eq. unfold rx_fs_at, fs_note.
  rewrite strip_prefix_app, (span_all _ _ Hd).
  destruct (str_of_int n); [congruence | reflexivity].
Qed.

Lemma startswith_fs_note (n : Z) : startswith (fs_note n) (str "## ") = true.
Proof. reflexivity. Qed.

Lemma rx_custom_label_findall_0_eq (s : pystr) :
  rx_custom_label_findall_0 s
  = match rx_custom_label_at s with
    | Some g => Some g
    | None =>
        match s with
        | [] => None
        | _ :: s' => rx_custom_label_findall_0 s'
        end
    end.
Proof. destruct s; reflexivity. Qed.

Lemma rx_custom_label_of_note (r : custom_label) :
  label_fits r ->
  rx_custom_label_findall_0 (label_note r)
  = Some (str_of_int (row_label_store r), row_symbol r, row_description r).
Proof.
  intros [Hst [[c [Hsym [Hsp Hc]]] [Hne [Hd Hl]]]].
  destruct (str_of_int_digits _ Hst) as [Hdne [Hdig _]].
  rewrite rx_custom_label_findall_0_eq. unfold rx_custom_label_at, label_note.
  rewrite Hsym.
  rewrite (span_app_stop is_digit _ _ Hdig) by reflexivity.
  destruct (str_of_int (row_label_store r)) as [| d0 ds] eqn:Eds;
    [congruence |].
  cbn [app].
  change (c :: 32 :: row_description r)
    with ([c] ++ 32 :: row_description r).
  rewrite (span_app_stop (fun x => negb (is_space x)) [c]);
    [| constructor; [rewrite Hsp; reflexivity | constructor] | reflexivity].
  rewrite span_all.
  - destruct (row_description r); [congruence | reflexivity].
  - eapply Forall_impl; [| exact Hd]. intros x [Hx _].
    apply negb_true_iff. apply Z.eqb_neq. exact Hx.
Qed.

Lemma label_note_not_end (r : custom_label) :
  label_fits r ->
  pystr_eqb (label_note r) (str "## end of definitions") = false.
Proof.
  intros [Hst _]. destruct (str_of_int_digits _ Hst) as [Hdne [Hdig _]].
  unfold label_note.
  destruct (str_of_int (row_label_store r)) as [| d0 ds]; [congruence |].
  inversion Hdig as [| ? ? H0 _]; subst.
  change (str "## end of definitions")
    with (35 :: str "# end of definitions").
  cbn [app pystr_eqb].
  unfold is_digit in H0. apply andb_true_iff in H0. destruct H0 as [H1 _].
  apply Z.leb_le in H1.
  destruct (Z.eqb_spec d0 35); [lia | reflexivity].
Qed.

Lemma definitions_loop_rows (rows : list custom_label) :
  forall (rest : list pystr) (i : nat) (acc : list custom_label),
    Forall label_fits rows ->
    definitions_loop
      (map label_note rows ++ str "## end of definitions" :: rest) i acc
    = Ok ((i + length rows)%nat, acc ++ rows).
Proof.
  induction rows as [| r rows IH]; intros rest i acc Hf.
  - cbn [map app length definitions_loop].
    change (pystr_eqb (str "## end of definitions")
              (str "## end of definitions")) with true.
    cbn [negb]. rewrite Nat.add_0_r, app_nil_r. reflexivity.
  - inversion Hf as [| ? ? Hr Hrows]; subst.
    cbn [map app definitions_loop].
    rewrite (label_note_not_end r Hr). cbn [negb].
    rewrite (rx_custom_label_of_note r Hr).
    destruct Hr as [Hst _].
    destruct (str_of_int_digits _ Hst) as [_ [_ Hint]]. rewrite Hint.
    rewrite IH by exact Hrows.
    destruct r as [[st sym] desc].
    cbn [row_label_store row_symbol row_description fst snd length].
    rewrite <- app_assoc. cbn [app].
    replace (S i + length rows)%nat with (i + S (length rows))%nat by lia.
    reflexivity.
Qed.

Lemma info_loop_done (F : float_model) (fuel n i : nat)
    (notes : list pystr) (fs : option (fs_value F))
    (cl : list custom_label) :
  (n <= i)%nat -> info_loop fuel n notes i fs cl = Ok (fs, cl).
Proof.
  intros H. apply Nat.ltb_ge in H.
  destruct fuel; cbn [info_loop]; rewrite H; reflexivity.
Qed.

Lemma info_loop_fs (F : float_model) (fuel n i : nat) (notes : list pystr)
    (k : Z) (cl : list custom_label) :
  (i < n)%nat ->
  0 <= k ->
  nth_error notes i = Some (fs_note k) ->
  info_loop (S fuel) n notes i None cl
  = info_loop fuel n notes (S i) (Some (fs_as_read F k)) cl.
Proof.
  intros Hi Hk Hn. apply Nat.ltb_lt in Hi.
  cbn [info_loop]. rewrite Hi, Hn, startswith_fs_note.
  cbn [not_fs]. rewrite (rx_fs_of_fs_note k Hk). reflexivity.
Qed.

Lemma info_loop_labels (F : float_model) (fuel n i : nat)
    (notes rest : list pystr) (rows : list custom_label)
    (fs : option (fs_value F)) (cl : list custom_label) :
  (i < n)%nat ->
  Forall label_fits rows ->
  nth_error notes i = Some (str "## annotation type definitions") ->
  skipn (S i) notes
  = map label_note rows ++ str "## end of definitions" :: rest ->
  info_loop (S fuel) n notes i fs cl
  = info_loop fuel n notes (S (S i + length rows)) fs (cl ++ rows).
Proof.
  intros Hi Hf Hn Hs. apply Nat.ltb_lt in Hi.
  cbn [info_loop]. rewrite Hi, Hn.
  change (startswith (str "## annotation type definitions") (str "## "))
    with true. cbv iota.
  assert (E : (if not_fs fs
               then rx_fs_findall_0 (str "## annotation type definitions")
               else None) = None).
  { destruct (not_fs fs); [| reflexivity]. vm_compute. reflexivity. }
  rewrite E.
  change (pystr_eqb (str "## annotation type definitions")
            (str "## annotation type definitions")) with true.
  cbv iota. rewrite Hs, (definitions_loop_rows rows rest (S i) cl Hf).
  reflexivity.
Qed.

(** [extract_ann_info] on the notes of a file that starts with the
    definitions that the writer makes for [fs] and the custom labels. *)
Lemma extract_ann_info_definitions (F : float_model)
    (potential_info_inds : set nat) (fs : option Z)
    (custom_labels : option (list custom_label)) (rest : list pystr) :
  length potential_info_inds = length (definition_notes fs custom_labels) ->
  (forall n, fs = Some n -> 0 <= n) ->
  (forall rows, custom_labels = Some rows -> Forall label_fits rows) ->
  @extract_ann_info F potential_info_inds
    (definition_notes fs custom_labels ++ rest)
  = Ok (option_map (fs_as_read F) fs, labels_as_read custom_labels).
Proof.
  intros Hp Hfs Hcl. unfold extract_ann_info. rewrite Hp.
  set (notes := definition_notes fs custom_labels ++ rest).
  assert (Hlen : (length (definition_notes fs custom_labels)
                  <= length notes)%nat)
    by (unfold notes; rewrite length_app; lia).
  destruct fs as [k |]; destruct custom_labels as [rows |];
    unfold definition_notes, labels_notes in *;
    cbn [app length option_map labels_as_read] in *.
  - specialize (Hfs k eq_refl). specialize (Hcl rows eq_refl).
    rewrite length_app, length_map in Hlen |- *. cbn [length] in Hlen |- *.
    destruct (length notes) as [| [| fuel]] eqn:En; try lia.
    rewrite (info_loop_fs F _ _ 0 notes k []);
      [| lia | exact Hfs | reflexivity].
    rewrite (info_loop_labels F _ _ 1 notes rest rows _ []);
      [| lia | exact Hcl | reflexivity |].
    2:{ unfold notes. cbn [app skipn]. rewrite <- app_assoc. reflexivity. }
    rewrite info_loop_done by lia. cbn [bind app].
    destruct rows; reflexivity.
  - specialize (Hfs k eq_refl).
    destruct (length notes) as [| fuel] eqn:En; [simpl in Hlen; lia |].
    rewrite (info_loop_fs F _ _ 0 notes k []);
      [| lia | exact Hfs | reflexivity].
    rewrite info_loop_done by lia. reflexivity.
  - specialize (Hcl rows eq_refl).
    rewrite length_app, length_map in Hlen |- *. cbn [length] in Hlen |- *.
    destruct (length notes) as [| fuel] eqn:En; [lia |].
    rewrite (info_loop_labels F _ _ 0 notes rest rows None []);
      [| lia | exact Hcl | reflexivity |].
    2:{ unfold notes. cbn [app skipn]. rewrite <- app_assoc. reflexivity. }
    rewrite info_loop_done by lia. cbn [bind app].
    destruct rows; reflexivity.
  - rewrite info_loop_done by lia. reflexivity.
Qed.


(** ** The definitions are taken out, the annotations stay *)

Lemma combine_app_eq {A B : Type} (a1 a2 : list A) (b1 b2 : list B) :
  length a1 = length b1 ->
  combine (a1 ++ a2) (b1 ++ b2) = combine a1 b1 ++ combine a2 b2.
Proof.
  revert b1. induction a1 as [| x a1 IH]; intros [| y b1] H;
    try discriminate; [reflexivity |].
  cbn [app combine]. rewrite IH by (simpl in H; lia). reflexivity.
Qed.

Lemma kept_flags_app (a b : ann_data) :
  length (label_store a) = length (sample a) ->
  kept_flags (app_data a b) = kept_flags a ++ kept_flags b.
Proof.
  intros H. unfold kept_flags, app_data. cbn [sample label_store].
  rewrite combine_app_eq by lia. apply map_app.
Qed.

Lemma select_app {A : Type} (f1 f2 : list bool) (l1 l2 : list A) :
  length f1 = length l1 ->
  select (f1 ++ f2) (l1 ++ l2) = select f1 l1 ++ select f2 l2.
Proof.
  revert l1. induction f1 as [| b f1 IH]; intros [| x l1] H;
    try discriminate; [reflexivity |].
  cbn [app select]. rewrite IH by (simpl in H; lia).
  destruct b; reflexivity.
Qed.

Lemma select_all_false {A : Type} (keep : list bool) (l : list A) :
  Forall (fun b => b = false) keep -> select keep l = [].
Proof.
  intros H. revert l. induction H as [| b keep Hb _ IH]; intros l;
    [reflexivity |].
  destruct l as [| x l]; [reflexivity |]. cbn [select]. rewrite Hb. apply IH.
Qed.

Lemma drop_prefix_rows (p d : ann_data) :
  same_length p ->
  same_length d ->
  Forall (fun b => b = false) (kept_flags p) ->
  Forall (fun b => b = true) (kept_flags d) ->
  select_rows (kept_flags (app_data p d)) (app_data p d) = d.
Proof.
  intros [Pl [Pst [Pc [Pn Pa]]]] [Dl [Dst [Dc [Dn Da]]]] Hp Hd.
  rewrite (kept_flags_app p d Pl).
  pose proof (kept_flags_length p Pl) as Lp.
  pose proof (kept_flags_length d Dl) as Ld.
  unfold select_rows, app_data.
  cbn [sample label_store subtype chan num aux_note].
  rewrite !select_app by lia.
  rewrite !(select_all_false _ _ Hp).
  rewrite !select_all by (try exact Hd; lia).
  destruct d; reflexivity.
Qed.

Lemma map_nth_seq_id {A : Type} (l : list A) (d : A) :
  map (fun i => nth i l d) (seq 0 (length l)) = l.
Proof.
  apply (nth_ext _ _ d d).
  - rewrite length_map, length_seq. reflexivity.
  - intros i Hi. rewrite length_map, length_seq in Hi.
    rewrite (nth_indep _ d ((fun i => nth i l d) 0%nat))
      by (rewrite length_map, length_seq; exact Hi).
    rewrite (map_nth (fun i => nth i l d)).
    rewrite seq_nth by exact Hi. reflexivity.
Qed.

(** There are as many [potential_info_inds] as comments at sample 0. *)
Lemma potential_count (s l : list Z) (a : list pystr) :
  length l = length s ->
  length (fst (get_info_inds s l a))
  = length (filter (fun sl => (fst sl =? 0) && (snd sl =? 22))
              (combine s l)).
Proof.
  intros Hl. rewrite (potential_info_inds_filter s l a Hl).
  set (g := fun sl : Z * Z => (fst sl =? 0) && (snd sl =? 22)).
  assert (E : filter (fun i => (nth i s 0 =? 0) && (nth i l 0 =? 22))
                (seq 0 (length s))
              = filter (fun i => g (nth i (combine s l) (0, 0)))
                  (seq 0 (length (combine s l)))).
  { rewrite length_combine, Hl, Nat.min_id. apply filter_ext_in.
    intros i Hi. rewrite combine_nth by lia. reflexivity. }
  rewrite E.
  transitivity
    (length (filter g (map (fun i => nth i (combine s l) (0, 0))
                         (seq 0 (length (combine s l)))))).
  - rewrite filter_map_swap, length_map. reflexivity.
  - rewrite map_nth_seq_id. reflexivity.
Qed.

Lemma kept_not_potential (L : list (Z * Z)) :
  Forall (fun b => b = true) (map (fun sl => is_kept (fst sl) (snd sl)) L) ->
  filter (fun sl => (fst sl =? 0) && (snd sl =? 22)) L = [].
Proof.
  induction L as [| [s l] L IH]; intros H; [reflexivity |].
  cbn [map] in H. inversion H as [| ? ? Hk HL]; subst.
  cbn [filter fst snd] in *. unfold is_kept in Hk.
  apply andb_true_iff in Hk. destruct Hk as [_ Hk].
  apply negb_true_iff in Hk. rewrite Hk. apply IH. exact HL.
Qed.

Lemma comments_potential (m : nat) :
  filter (fun sl => (fst sl =? 0) && (snd sl =? 22))
    (combine (repeat 0 m) (repeat 22 m))
  = combine (repeat 0 m) (repeat 22 m).
Proof.
  induction m as [| m IH]; [reflexivity |].
  cbn [repeat combine filter fst snd]. cbn. f_equal. exact IH.
Qed.

Lemma comments_not_kept (m : nat) :
  Forall (fun b => b = false)
    (map (fun sl => is_kept (fst sl) (snd sl))
       (combine (repeat 0 m) (repeat 22 m))).
Proof.
  induction m as [| m IH]; [constructor |].
  cbn [repeat combine map]. constructor; [reflexivity | exact IH].
Qed.

Lemma definitions_same_length (notes : list pystr) (total : Z) :
  same_length (app_data (comments_data notes) (end_mark total)).
Proof.
  unfold same_length, app_data, comments_data, end_mark.
  cbn [sample label_store subtype chan num aux_note].
  rewrite !length_app, !repeat_length. repeat split; reflexivity.
Qed.

Lemma definitions_not_kept (notes : list pystr) :
  Forall (fun b => b = false)
    (kept_flags (app_data (comments_data notes) (end_mark 0))).
Proof.
  rewrite kept_flags_app
    by (unfold comments_data; cbn [sample label_store];
        rewrite !repeat_length; reflexivity).
  apply Forall_app. split.
  - apply comments_not_kept.
  - repeat constructor.
Qed.

Lemma data_of_same_length (self : Annotation) :
  lengths_agree self -> same_length (data_of self).
Proof.
  intros [Hsym [Hst [Hc [Hn Ha]]]]. unfold same_length, data_of.
  cbn [sample label_store subtype chan num aux_note].
  rewrite length_map, Hsym.
  repeat split; try reflexivity; apply field_or_length; assumption.
Qed.

Lemma data_of_kept (self : Annotation) :
  lengths_agree self ->
  symbols_known self ->
  no_comment_at_0 self ->
  Forall (fun b => b = true) (kept_flags (data_of self)).
Proof.
  intros Hlen Hknown Hno.
  destruct (data_of_same_length self Hlen) as [Hl _].
  rewrite <- (removed_flags (data_of self) Hl).
  rewrite (get_info_inds_none self Hlen Hknown Hno).
  apply Forall_forall. intros b Hb. apply in_map_iff in Hb.
  destruct Hb as [i [<- _]]. reflexivity.
Qed.

Lemma definitions_potential_count (notes : list pystr) (d : ann_data) :
  same_length d ->
  Forall (fun b => b = true) (kept_flags d) ->
  let D := app_data (app_data (comments_data notes) (end_mark 0)) d in
  length (fst (get_info_inds (sample D) (label_store D) (aux_note D)))
  = length notes.
Proof.
  intros [Dl _] Hk D.
  destruct (definitions_same_length notes 0) as [Pl _].
  rewrite potential_count
    by (unfold D, app_data in *; cbn [sample label_store] in *;
        rewrite !length_app in *; lia).
  unfold D, app_data, comments_data, end_mark.
  cbn [sample label_store].
  rewrite combine_app_eq
    by (rewrite !length_app, !repeat_length; reflexivity).
  rewrite combine_app_eq by (rewrite !repeat_length; reflexivity).
  rewrite !filter_app, comments_potential, (kept_not_potential _ Hk).
  rewrite app_nil_r, length_app, length_combine, !repeat_length, Nat.min_id.
  apply Nat.add_0_r.
Qed.

Lemma definition_notes_valid (fs : option Z)
    (custom_labels : option (list custom_label)) :
  (forall n, fs = Some n -> 0 <= n /\ (length (str_of_int n) <= 235)%nat) ->
  (forall rows, custom_labels = Some rows -> Forall label_fits rows) ->
  Forall valid_note (definition_notes fs custom_labels).
Proof.
  intros Hfs Hcl. unfold definition_notes. apply Forall_app. split.
  - destruct fs as [n |]; [| constructor].
    destruct (Hfs n eq_refl) as [Hn Hl].
    constructor; [apply fs_note_valid; assumption | constructor].
  - destruct custom_labels as [rows |]; [| constructor].
    apply labels_notes_valid. apply Hcl. reflexivity.
Qed.

(** The steps of [rdann] on a file that starts with the definitions that
    the writer makes for [fs] and for the custom labels. *)
Lemma rdann_steps_definitions (F : float_model) (rdheader : header_reader F)
    (self : Annotation) (fs : option Z)
    (custom_labels : option (list custom_label)) :
  lengths_agree self ->
  symbols_known self ->
  diffs_in_range self ->
  fields_in_range self ->
  no_comment_at_0 self ->
  (forall n, fs = Some n -> 0 <= n /\ (length (str_of_int n) <= 235)%nat) ->
  (forall rows, custom_labels = Some rows -> Forall label_fits rows) ->
  rdann_steps rdheader
    (concat (map emitted_pairs
               (map comment (definition_notes fs custom_labels)))
       ++ end_special_pairs ++ stream_of (emitted_of self)) None
  = Ok (mk_read_annotation (data_of self)
          (fst (fs_from_header rdheader (option_map (fs_as_read F) fs)))
          (labels_as_read custom_labels)
          (snd (fs_from_header rdheader (option_map (fs_as_read F) fs)))).
Proof.
  intros Hlen Hknown Hd Hr Hno Hfs Hcl. unfold rdann_steps.
  pose proof (definition_notes_valid fs custom_labels Hfs Hcl) as Hv.
  rewrite (extract_ann_data_definitions _ _ Hv
             (emitted_of_valid self Hlen Hknown Hd Hr)).
  rewrite (read_emitted_of self Hlen). cbn [bind].
  set (notes := definition_notes fs custom_labels) in *.
  set (P := app_data (comments_data notes) (end_mark 0)).
  pose proof (data_of_same_length self Hlen) as Hsl.
  pose proof (data_of_kept self Hlen Hknown Hno) as Hk.
  pose proof (definitions_potential_count notes (data_of self) Hsl Hk) as Hc.
  cbv zeta in Hc. fold P in Hc.
  assert (HD : same_length (app_data P (data_of self))).
  { destruct (definitions_same_length notes 0) as [P1 [P2 [P3 [P4 P5]]]].
    destruct Hsl as [D1 [D2 [D3 [D4 D5]]]]. fold P in P1, P2, P3, P4, P5.
    unfold same_length, app_data.
    cbn [sample label_store subtype chan num aux_note].
    rewrite !length_app. repeat split; lia. }
  pose proof (rm_empty_indices_select _ HD) as Hrm.
  rewrite (drop_prefix_rows P (data_of self)
             (definitions_same_length notes 0) Hsl
             (definitions_not_kept notes) Hk) in Hrm.
  destruct (get_info_inds (sample (app_data P (data_of self)))
              (label_store (app_data P (data_of self)))
              (aux_note (app_data P (data_of self)))) as [p rm].
  cbn [fst snd] in Hc, Hrm.
  assert (Ea : aux_note (app_data P (data_of self))
               = notes ++ [] :: aux_note (data_of self)).
  { unfold P, app_data, comments_data, end_mark. cbn [aux_note].
    rewrite <- app_assoc. reflexivity. }
  rewrite Ea.
  rewrite (extract_ann_info_definitions F p fs custom_labels _ Hc
             (fun n E => proj1 (Hfs n E)) Hcl).
  cbn [bind]. rewrite Hrm. cbn [bind].
  destruct (fs_from_header rdheader (option_map (fs_as_read F) fs)).
  reflexivity.
Qed.


(** ** A file with definitions, written and read *)

Lemma comments_groups_app (a b : list pystr) :
  concat (flat_map emitted_groups (map comment (a ++ b)))
  = concat (flat_map emitted_groups (map comment a))
      ++ concat (flat_map emitted_groups (map comment b)).
Proof. rewrite map_app, flat_map_app, concat_app. reflexivity. Qed.

Lemma definitions_bytes (F : float_model) (fs : option Z)
    (custom_labels : option (list custom_label)) :
  (forall n, fs = Some n -> 0 <= n /\ (length (str_of_int n) <= 235)%nat) ->
  (forall rows, custom_labels = Some rows -> Forall label_fits rows) ->
  exists cl_bytes,
    calc_cl_bytes custom_labels = Ok cl_bytes
    /\ snd (calc_fs_bytes (option_map (@FsInt F) fs)) ++ cl_bytes
       = concat (flat_map emitted_groups
                   (map comment (definition_notes fs custom_labels))).
Proof.
  intros Hfs Hcl. unfold definition_notes. rewrite comments_groups_app.
  assert (E1 : snd (calc_fs_bytes (option_map (@FsInt F) fs))
               = concat (flat_map emitted_groups
                           (map comment
                              match fs with
                              | Some n => [fs_note n]
                              | None => []
                              end))).
  { destruct fs as [n |]; [| reflexivity].
    destruct (Hfs n eq_refl) as [Hn Hl]. cbn [option_map map flat_map].
    rewrite app_nil_r. apply calc_fs_bytes_comment; assumption. }
  rewrite E1. destruct custom_labels as [rows |].
  - eexists. split; [apply calc_cl_bytes_comments; apply Hcl; reflexivity |].
    reflexivity.
  - exists []. split; reflexivity.
Qed.

Lemma end_special_present (fs_bytes cl_bytes : list Z) :
  fs_bytes ++ cl_bytes <> [] ->
  match fs_bytes, cl_bytes with
  | [], [] => []
  | _, _ => [0; 236; 255; 255; 255; 255; 1; 0]
  end = [0; 236; 255; 255; 255; 255; 1; 0].
Proof.
  destruct fs_bytes; [destruct cl_bytes |];
    [cbn; congruence | reflexivity ..].
Qed.

Lemma comments_bytes_not_nil (notes : list pystr) :
  notes <> [] ->
  concat (flat_map emitted_groups (map comment notes)) <> [].
Proof.
  destruct notes as [| s notes]; [congruence |]. intros _.
  cbn [map flat_map]. rewrite concat_app, comment_groups. discriminate.
Qed.

(** The bytes of a file with definitions, as rows. *)
Lemma wr_ann_file_definitions (F : float_model) (self : Annotation)
    (fs : option Z) (custom_labels : option (list custom_label)) :
  ann_sample self <> [] ->
  lengths_agree self ->
  symbols_known self ->
  diffs_in_range self ->
  fields_in_range self ->
  (forall n, fs = Some n -> 0 <= n /\ (length (str_of_int n) <= 235)%nat) ->
  (forall rows, custom_labels = Some rows -> Forall label_fits rows) ->
  definition_notes fs custom_labels <> [] ->
  exists cl_bytes bs,
    calc_cl_bytes custom_labels = Ok cl_bytes
    /\ wr_ann_file self (snd (calc_fs_bytes (option_map (@FsInt F) fs)))
         cl_bytes = Ok bs
    /\ reshape_pairs bs
       = Ok (concat (map emitted_pairs
                       (map comment (definition_notes fs custom_labels)))
               ++ end_special_pairs ++ stream_of (emitted_of self)).
Proof.
  intros Hne Hlen Hknown Hd Hr Hfs Hcl Hnotes.
  destruct (definitions_bytes F fs custom_labels Hfs Hcl) as [clb [Ecl Eb]].
  pose proof (comments_valid _ (definition_notes_valid fs custom_labels
                                  Hfs Hcl)) as Hv1.
  pose proof (emitted_of_valid self Hlen Hknown Hd Hr) as Hv2.
  destruct (emitted_bytes _ Hv1) as [Hb1 [[n1 Hn1] Hp1]].
  destruct (emitted_bytes _ Hv2) as [Hb2 [[n2 Hn2] Hp2]].
  set (fsb := snd (calc_fs_bytes (option_map (@FsInt F) fs))) in *.
  set (pro := concat (flat_map emitted_groups
                        (map comment (definition_notes fs custom_labels))))
    in *.
  set (core := concat (flat_map emitted_groups (emitted_of self))) in *.
  exists clb, (pro ++ [0; 236; 255; 255; 255; 255; 1; 0] ++ core ++ [0; 0]).
  split; [exact Ecl |]. split.
  - unfold wr_ann_file, calc_core_bytes.
    rewrite (core_data_bytes_emitted self Hne Hlen Hknown). cbn [bind].
    fold core. rewrite (astype_u1_bytes _ Hb2).
    rewrite end_special_present
      by (rewrite Eb; apply comments_bytes_not_nil; exact Hnotes).
    rewrite (app_assoc fsb clb), Eb.
    rewrite astype_u1_bytes; [reflexivity |].
    apply Forall_app. split; [exact Hb1 |].
    apply Forall_app. split; [repeat constructor; unfold is_byte; lia |].
    apply Forall_app. split; [exact Hb2 |].
    repeat constructor; unfold is_byte; lia.
  - rewrite (reshape_pairs_of (n1 + (4 + (n2 + 1)))%nat)
      by (rewrite !length_app, Hn1, Hn2; cbn [length]; lia).
    rewrite (pairs_of_app n1 _ _ Hn1), Hp1.
    rewrite (pairs_of_app 4 [0; 236; 255; 255; 255; 255; 1; 0])
      by reflexivity.
    rewrite (pairs_of_app n2 _ _ Hn2), Hp2. reflexivity.
Qed.

Lemma fs_from_header_None (F : float_model) (rdheader : header_reader F) :
  snd (fs_from_header rdheader None) = 1%nat.
Proof. unfold fs_from_header. destruct (rdheader tt); reflexivity. Qed.



(** X13.  Writing and reading a file with its definitions.  Let the
    object be as in the round trip without definitions: the fields that
    the writer reads pass their checks, they are as long as [sample], the
    symbols are in the standard table, there is no comment at sample 0
    and no sample difference of 2^31, and the notes fit a byte count.  Let [fs],
    when it is written, be an integer that is not negative, of at most 235
    digits, and let each custom label have a store value that is not
    negative, a symbol of one character that is not whitespace, and a
    description that is not empty and has no newline, all in bytes.  Then
    the file that [wr_ann_file] writes with the bytes of [calc_fs_bytes]
    and [calc_cl_bytes] reads back, through the steps of [rdann], as the
    same annotations, field for field, the definitions and the mark that
    closes them being taken out; [fs] is the one the reader parses from the
    decimal text written, and the header is then not read; the custom
    labels come back as the triplets written, or [None] for an empty
    table. *)
Theorem write_then_read_definitions (F : float_model)
    (rdheader : header_reader F) (self : Annotation) (fs : option Z)
    (custom_labels : option (list custom_label)) :
  Forall (fun field => check_field self field = Ok tt) written_fields ->
  lengths_agree self ->
  symbols_known self ->
  no_comment_at_0 self ->
  Forall (fun sd => sd <> 2147483648) (diffs 0 (ann_sample self)) ->
  (forall l, ann_aux_note self = Some l -> Forall valid_note l) ->
  (forall n, fs = Some n -> 0 <= n /\ (length (str_of_int n) <= 235)%nat) ->
  (forall rows, custom_labels = Some rows -> Forall label_fits rows) ->
  exists cl_bytes bs fb d,
    calc_cl_bytes custom_labels = Ok cl_bytes
    /\ wr_ann_file self (snd (calc_fs_bytes (option_map (@FsInt F) fs)))
         cl_bytes = Ok bs
    /\ reshape_pairs bs = Ok fb
    /\ rdann_steps rdheader fb None
       = Ok (mk_read_annotation d
               (fst (fs_from_header rdheader
                       (option_map (fs_as_read F) fs)))
               (labels_as_read custom_labels)
               (snd (fs_from_header rdheader
                       (option_map (fs_as_read F) fs))))
    /\ (forall n, fs = Some n ->
        fs_from_header rdheader (option_map (fs_as_read F) fs)
        = (Some (fs_as_read F n), 0%nat))
    /\ sample d = ann_sample self
    /\ label_store d = map code_of (symbols self)
    /\ Some (subtype d) = ann_subtype self
    /\ Some (chan d) = ann_chan self
    /\ Some (num d) = ann_num self
    /\ Some (aux_note d) = ann_aux_note self.
Proof.
  intros Hc Hlen Hknown Hno Hd Hnotes Hfs Hcl.
  destruct (checked_object self Hc Hd Hnotes)
    as [Hne [Hdr [Hr [_ Hfields]]]].
  assert (Hsome : forall n, fs = Some n ->
                    fs_from_header rdheader (option_map (fs_as_read F) fs)
                    = (Some (fs_as_read F n), 0%nat))
    by (intros n ->; reflexivity).
  destruct (list_eq_dec (list_eq_dec Z.eq_dec)
              (definition_notes fs custom_labels) []) as [Enil | Hnn].
  - assert (fs = None /\ custom_labels = None) as [-> ->].
    { unfold definition_notes, labels_notes in Enil.
      destruct fs; destruct custom_labels; try discriminate.
      split; reflexivity. }
    destruct (write_then_read_fields F rdheader self Hne Hlen Hknown Hdr Hr
                Hno) as [bs [fb [Hw [Hp Hrd]]]].
    exists [], bs, fb, (data_of self).
    split; [reflexivity |]. split; [exact Hw |]. split; [exact Hp |].
    split; [| split; [exact Hsome | exact Hfields]].
    cbn [option_map labels_as_read]. rewrite fs_from_header_None. exact Hrd.
  - destruct (wr_ann_file_definitions F self fs custom_labels Hne Hlen
                Hknown Hdr Hr Hfs Hcl Hnn) as [clb [bs [Ecl [Hw Hp]]]].
    eexists clb, bs, _, (data_of self).
    split; [exact Ecl |]. split; [exact Hw |]. split; [exact Hp |].
    split; [| split; [exact Hsome | exact Hfields]].
    apply rdann_steps_definitions; assumption.
Qed.

Lemma write_then_read_definitions_witness :
  let self :=
    mk_Annotation [0; 20; 2400] (Some [str "N"; str "N"; str "["])
      (Some [0; 1; 0]) (Some [3; 3; 0]) (Some [0; 0; 0])
      (Some [[]; []; str "Serious Vfib!"]) (Some [1; 1; 32]) in
  let rows := [(42, str "#", str "Custom beat")] in
  Forall (fun field => check_field self field = Ok tt) written_fields
  /\ Forall label_fits rows
  /\ exists cl_bytes bs fb d,
       calc_cl_bytes (Some rows) = Ok cl_bytes
       /\ wr_ann_file self
            (snd (calc_fs_bytes (Some (@FsInt int_floats 360)))) cl_bytes
          = Ok bs
       /\ reshape_pairs bs = Ok fb
       /\ rdann_steps (no_header int_floats) fb None
          = Ok (mk_read_annotation d (Some (FsInt 360)) (Some rows) 0%nat)
       /\ sample d = [0; 20; 2400].
Proof.
  intros self rows.
  assert (Hc : Forall (fun field => check_field self field = Ok tt)
                 written_fields) by (repeat constructor).
  assert (Hlen : lengths_agree self).
  { unfold lengths_agree, self. cbn.
    repeat split; intros l E; injection E as <-; reflexivity. }
  assert (Hknown : symbols_known self).
  { unfold symbols_known, self. cbn.
    repeat constructor; eexists; reflexivity. }
  assert (Hno : no_comment_at_0 self).
  { unfold no_comment_at_0, self. cbn. intros i Hi H0.
    destruct i as [| [| [| i]]]; cbn in *; try lia; discriminate. }
  assert (Hd : Forall (fun sd => sd <> 2147483648) (diffs 0 (ann_sample self))).
  { unfold self. cbn. repeat constructor; lia. }
  assert (Hn : forall l, ann_aux_note self = Some l -> Forall valid_note l).
  { unfold self. cbn. intros l E. injection E as <-.
    unfold valid_note. repeat constructor; cbn; lia. }
  assert (Hfs : forall n, Some 360 = Some n ->
                  0 <= n /\ (length (str_of_int n) <= 235)%nat).
  { intros n E. injection E as <-. split; [lia | cbn; lia]. }
  assert (Hrows : Forall label_fits rows).
  { unfold rows. constructor; [| constructor].
    unfold label_fits. cbn [row_label_store row_symbol row_description
                              fst snd].
    split; [lia |]. split.
    - exists 35. repeat split; lia.
    - split; [discriminate |]. split; [| cbn; lia].
      repeat constructor; cbn; lia. }
  assert (Hcl : forall r, Some rows = Some r -> Forall label_fits r).
  { intros r E. injection E as <-. exact Hrows. }
  split; [exact Hc |]. split; [exact Hrows |].
  destruct (write_then_read_definitions int_floats (no_header int_floats)
              self (Some 360) (Some rows) Hc Hlen Hknown Hno Hd Hn Hfs Hcl)
    as [clb [bs [fb [d [Ecl [Hw [Hp [Hrd [_ [Hs _]]]]]]]]]].
  exists clb, bs, fb, d.
  split; [exact Ecl |]. split; [exact Hw |]. split; [exact Hp |].
  split; [exact Hrd | exact Hs].
Defined.


(** ** The bytes of [fs] and of the custom labels, read on their own *)

Lemma comments_read_back (notes : list pystr) :
  Forall valid_note notes ->
  pairs_of (concat (flat_map emitted_groups (map comment notes)))
  = concat (map emitted_pairs (map comment notes))
  /\ extract_ann_data
       (concat (map emitted_pairs (map comment notes)) ++ [(0, 0)]) None
     = Ok (comments_data notes).
Proof.
  intros Hv. pose proof (comments_valid notes Hv) as He.
  destruct (emitted_bytes _ He) as [_ [_ Hp]]. split; [exact Hp |].
  change (concat (map emitted_pairs (map comment notes)) ++ [(0, 0)])
    with (stream_of (map comment notes)).
  rewrite (extract_ann_data_emitted _ He).
  change no_data with (comments_data []).
  rewrite read_comments. reflexivity.
Qed.

(** X11.  The bytes that [calc_fs_bytes] makes for an integer [fs] that is
    not negative (of at most 235 digits, so that the length of the note
    fits its byte) are one comment annotation at sample 0: followed by the
    closing zero pair they read, with [extract_ann_data], as a single
    annotation with sample 0, store value 22 and the note
    [## time resolution: ] followed by the decimal text of [fs]; and
    [extract_ann_info] gets from that note the [fs] that the reader parses
    from the decimal text, and no custom labels.  A float [fs] that passes
    the test [round(fs, 8) == float(int(fs))] is written as the integer
    [int(fs)], and the attribute is left as that integer. *)
Theorem calc_fs_bytes_read_back (F : float_model) :
  (forall n,
      0 <= n ->
      (length (str_of_int n) <= 235)%nat ->
      extract_ann_data
        (pairs_of (snd (calc_fs_bytes (Some (@FsInt F n)))) ++ [(0, 0)]) None
      = Ok (mk_ann_data [0] [22] [0] [0] [0] [fs_note n])
      /\ @extract_ann_info F [0%nat] [fs_note n]
         = Ok (Some (fs_as_read F n), None))
  /\ (forall x,
         float_is_int8 F x = true ->
         calc_fs_bytes (Some (FsFloat x))
         = (Some (FsInt (int_of_float F x)),
            snd (calc_fs_bytes (Some (@FsInt F (int_of_float F x)))))).
Proof.
  split.
  - intros n Hn Hl. split.
    + rewrite (calc_fs_bytes_comment F n Hn Hl).
      assert (Hv : Forall valid_note [fs_note n])
        by (constructor; [apply fs_note_valid; assumption | constructor]).
      destruct (comments_read_back [fs_note n] Hv) as [Hp Hr].
      cbn [map flat_map concat] in Hp, Hr. rewrite !app_nil_r in Hp, Hr.
      rewrite Hp, app_nil_r. exact Hr.
    + apply (extract_ann_info_definitions F [0%nat] (Some n) None []).
      * reflexivity.
      * intros k E. injection E as <-. exact Hn.
      * discriminate.
  - intros x Hx. unfold calc_fs_bytes. rewrite Hx. reflexivity.
Qed.

Lemma calc_fs_bytes_read_back_witness :
  0 <= 360
  /\ (length (str_of_int 360) <= 235)%nat
  /\ extract_ann_data
       (pairs_of (snd (calc_fs_bytes (Some (@FsInt int_floats 360))))
          ++ [(0, 0)]) None
     = Ok (mk_ann_data [0] [22] [0] [0] [0] [str "## time resolution: 360"])
  /\ @extract_ann_info int_floats [0%nat] [str "## time resolution: 360"]
     = Ok (Some (FsInt 360), None).
Proof.
  assert (Hn : 0 <= 360) by lia.
  assert (Hl : (length (str_of_int 360) <= 235)%nat) by (cbn; lia).
  split; [exact Hn |]. split; [exact Hl |].
  exact (proj1 (calc_fs_bytes_read_back int_floats) 360 Hn Hl).
Defined.

Lemma custom_bytes_TypeError (r : custom_label) (rows : list custom_label) :
  length (row_symbol r) <> 1%nat ->
  custom_bytes (r :: rows) = Raise TypeError.
Proof.
  intros H. destruct r as [[st sym] desc]. cbn [row_symbol fst snd] in H.
  cbn [custom_bytes]. unfold custom_triplet_bytes.
  destruct sym as [| c [| c' sym]]; [reflexivity | | reflexivity].
  exfalso. apply H. reflexivity.
Qed.

(** X12.  The bytes that [calc_cl_bytes] makes for a table of custom
    labels are comment annotations at sample 0, one per line: the line
    that opens the definitions, one line [store symbol description] for
    each label, and the line that closes them.  For labels with a store
    value that is not negative, a symbol of one character that is not
    whitespace and a description that is not empty and has no newline,
    [extract_ann_data] reads the bytes back as these annotations and
    [extract_ann_info] recovers the labels as the triplets they were
    written from ([None] for an empty table), with no [fs].  A symbol of
    two or three characters, which the check of [custom_labels] accepts,
    makes [calc_cl_bytes] raise TypeError instead. *)
Theorem calc_cl_bytes_read_back :
  (forall rows,
      Forall label_fits rows ->
      exists cl_bytes,
        calc_cl_bytes (Some rows) = Ok cl_bytes
        /\ extract_ann_data (pairs_of cl_bytes ++ [(0, 0)]) None
           = Ok (comments_data (labels_notes rows))
        /\ forall (F : float_model) (potential_info_inds : set nat),
             length potential_info_inds = length (labels_notes rows) ->
             @extract_ann_info F potential_info_inds (labels_notes rows)
             = Ok (None, labels_as_read (Some rows)))
  /\ (forall r rows,
         length (row_symbol r) <> 1%nat ->
         calc_cl_bytes (Some (r :: rows)) = Raise TypeError).
Proof.
  split.
  - intros rows Hf. eexists. split; [apply calc_cl_bytes_comments; exact Hf |].
    destruct (comments_read_back _ (labels_notes_valid rows Hf)) as [Hp Hr].
    split; [rewrite Hp; exact Hr |].
    intros F p Hlen.
    pose proof (extract_ann_info_definitions F p None (Some rows) []) as H.
    cbn [definition_notes app option_map] in H. rewrite app_nil_r in H.
    apply H; [exact Hlen | discriminate |].
    intros rows' E. injection E as <-. exact Hf.
  - intros r rows H. unfold calc_cl_bytes.
    rewrite (custom_bytes_TypeError r rows H). reflexivity.
Qed.

Lemma calc_cl_bytes_read_back_witness :
  let rows := [(42, str "#", str "Custom beat")] in
  Forall label_fits rows
  /\ exists cl_bytes,
       calc_cl_bytes (Some rows) = Ok cl_bytes
       /\ extract_ann_data (pairs_of cl_bytes ++ [(0, 0)]) None
          = Ok (mk_ann_data [0; 0; 0] [22; 22; 22] [0; 0; 0] [0; 0; 0]
                  [0; 0; 0]
                  [str "## annotation type definitions";
                   str "42 # Custom beat"; str "## end of definitions"])
       /\ @extract_ann_info int_floats [0%nat; 1%nat; 2%nat]
            [str "## annotation type definitions"; str "42 # Custom beat";
             str "## end of definitions"]
          = Ok (None, Some rows).
Proof.
  intros rows.
  assert (Hrows : Forall label_fits rows).
  { unfold rows. constructor; [| constructor].
    unfold label_fits. cbn [row_label_store row_symbol row_description
                              fst snd].
    split; [lia |]. split.
    - exists 35. repeat split; lia.
    - split; [discriminate |]. split; [| cbn; lia].
      repeat constructor; cbn; lia. }
  split; [exact Hrows |].
  destruct (proj1 calc_cl_bytes_read_back rows Hrows)
    as [clb [Ecl [Hr Hi]]].
  exists clb. split; [exact Ecl |]. split; [exact Hr |].
  exact (Hi int_floats [0%nat; 1%nat; 2%nat] eq_refl).
Defined.


(** ** A symbol that is not in the standard table *)

Lemma pystr_eqb_refl (a : pystr) : pystr_eqb a a = true.
Proof.
  induction a as [| x a IH]; [reflexivity |].
  cbn [pystr_eqb]. rewrite Z.eqb_refl. exact IH.
Qed.

Lemma pystr_eqb_neq (a b : pystr) : a <> b -> pystr_eqb a b = false.
Proof.
  intros H. destruct (pystr_eqb a b) eqn:E; [| reflexivity].
  exfalso. apply H. apply pystr_eqb_eq. exact E.
Qed.

Lemma typecode_of_unknown (sym : pystr) :
  (forall r, In r ANN_LABELS -> row_symbol r <> sym) ->
  typecode_of sym = Raise IndexError.
Proof.
  intros H. unfold typecode_of.
  destruct (find (fun r => pystr_eqb (row_symbol r) sym) ANN_LABELS)
    as [r |] eqn:E; [| reflexivity].
  apply find_some in E. destruct E as [Hin He].
  apply pystr_eqb_eq in He. exfalso. exact (H r Hin He).
Qed.

Lemma typecode_of_raises (sym : pystr) (e : exn) :
  typecode_of sym = Raise e -> e = IndexError.
Proof.
  unfold typecode_of. destruct (find _ ANN_LABELS); [discriminate |].
  intros H. injection H as <-. reflexivity.
Qed.

Lemma core_loop_unknown (self : Annotation) (c : compact_fields)
    (j : nat) :
  _compact_fields self = Ok c ->
  lengths_agree self ->
  (j < length (ann_sample self))%nat ->
  typecode_of (nth j (symbols self) []) = Raise IndexError ->
  forall (sds : list Z) (i : nat),
    (i <= j)%nat ->
    (i + length sds = length (ann_sample self))%nat ->
    core_loop self c
      (filter (fun f => negb (extra_isblank c f))
         [x_num; x_subtype; x_chan; x_aux_note]) i sds
    = Raise IndexError.
Proof.
  intros Hc [Hsym [Hst [Hch [Hnum Haux]]]] Hj Hbad.
  induction sds as [| sd sds IH]; intros i Hij Hlen;
    [cbn [length] in Hlen; lia |].
  cbn [length] in Hlen.
  assert (Hi : (i < length (ann_sample self))%nat) by lia.
  cbn [core_loop].
  assert (Hitem : item (ann_symbol self) i = Ok (nth i (symbols self) [])).
  { unfold symbols in *. destruct (ann_symbol self) as [l |].
    - apply item_Some, nth_error_nth'. lia.
    - simpl in Hsym. lia. }
  rewrite Hitem. cbn [bind].
  destruct (typecode_of (nth i (symbols self) [])) as [tc | e] eqn:Htc.
  - assert (Hne : i <> j) by (intros ->; congruence).
    unfold field2bytes at 1. rewrite Htc. cbn [bind].
    assert (Hb : exists b,
               (if sd >? 1023
                then Ok [0; 236; Z.shiftr (Z.land sd 16711680) 16;
                         Z.shiftr (Z.land sd 4278190080) 24; Z.land sd 255;
                         Z.shiftr (Z.land sd 65280) 8; 0; 4 * tc]
                else Ok [Z.land sd 255; Z.shiftr (Z.land sd 768) 8 + 4 * tc])
               = Ok b)
      by (destruct (sd >? 1023); eexists; reflexivity).
    destruct Hb as [b Hb]. rewrite Hb. cbn [bind].
    rewrite (extra_bytes_filter c i (field_groups self i)).
    2:{ intros f Hf. destruct f.
        - apply num_group; assumption.
        - apply subtype_group; assumption.
        - apply chan_group; assumption.
        - apply aux_note_group; assumption. }
    cbn [bind]. rewrite (IH (S i)) by lia. reflexivity.
  - unfold field2bytes at 1. rewrite Htc. cbn [bind].
    rewrite (typecode_of_raises _ _ Htc). reflexivity.
Qed.

(** X14.  A symbol outside the standard table cannot be written.
    [field2bytes] looks the symbol of an annotation up in [ANN_LABELS]
    only, whatever [custom_labels] defines, and the lookup of a symbol
    that is not there is an IndexError (the first cell of an empty
    selection).  So for an object whose fields are as long as [sample],
    one symbol that is not a symbol of [ANN_LABELS] makes [wr_ann_file]
    raise IndexError, with or without definitions in front. *)
Theorem wr_ann_file_unknown_symbol (self : Annotation)
    (fs_bytes cl_bytes : list Z) (sym : pystr) :
  lengths_agree self ->
  In sym (symbols self) ->
  (forall r, In r ANN_LABELS -> row_symbol r <> sym) ->
  field2bytes (samptype 0 sym) = Raise IndexError
  /\ wr_ann_file self fs_bytes cl_bytes = Raise IndexError.
Proof.
  intros Hlen Hin Hunk. pose proof (typecode_of_unknown sym Hunk) as Ht.
  split; [unfold field2bytes; rewrite Ht; reflexivity |].
  destruct (In_nth _ _ [] Hin) as [j [Hj Hnth]].
  pose proof Hlen as [Hsym [_ [_ [_ Haux]]]]. rewrite Hsym in Hj.
  unfold wr_ann_file, calc_core_bytes, core_data_bytes.
  assert (Hsd : sampdiffs (ann_sample self)
                = Ok (diffs 0 (ann_sample self))).
  { unfold sampdiffs. destruct (ann_sample self); [simpl in Hj; lia |].
    reflexivity. }
  rewrite Hsd. cbn [bind].
  destruct (_compact_fields self) as [c | e] eqn:Hc.
  - cbn [bind].
    rewrite (core_loop_unknown self c j Hc Hlen Hj
               ltac:(rewrite Hnth; exact Ht)
               (diffs 0 (ann_sample self)) 0%nat ltac:(lia)
               ltac:(rewrite diffs_length; reflexivity)).
    reflexivity.
  - exfalso. unfold _compact_fields in Hc.
    destruct (ann_aux_note self) as [notes |]; [| discriminate].
    rewrite <- (Haux notes eq_refl) in Hc.
    rewrite (proj2 (Nat.ltb_ge _ _) (le_n _)) in Hc.
    match type of Hc with
    | bind (if ?b then _ else _) _ = _ => destruct b
    end; discriminate.
Qed.

Lemma wr_ann_file_unknown_symbol_witness :
  let self :=
    mk_Annotation [10; 20] (Some [str "N"; str "#"]) None None None None
      None in
  lengths_agree self
  /\ wr_ann_file self [] [] = Raise IndexError.
Proof.
  intros self.
  assert (Hlen : lengths_agree self).
  { unfold lengths_agree, self. cbn.
    repeat split; intros l E; discriminate. }
  assert (Hin : In (str "#") (symbols self)) by (right; left; reflexivity).
  assert (Hunk : forall r, In r ANN_LABELS -> row_symbol r <> str "#").
  { intros r Hr. unfold ANN_LABELS in Hr. cbn [In] in Hr.
    repeat (destruct Hr as [<- | Hr]; [discriminate |]). destruct Hr. }
  split; [exact Hlen |].
  exact (proj2 (wr_ann_file_unknown_symbol self [] [] (str "#")
                  Hlen Hin Hunk)).
Defined.

(** ** The check of the custom labels *)

Lemma has_duplicate_NoDup (l : list pystr) :
  has_duplicate l = false <-> NoDup l.
Proof.
  induction l as [| x l IH]; cbn [has_duplicate].
  - split; [constructor | reflexivity].
  - rewrite orb_false_iff, IH, existsb_false. split.
    + intros [Hx Hl]. constructor; [| exact Hl]. intros Hin.
      rewrite Forall_forall in Hx. specialize (Hx x Hin).
      rewrite pystr_eqb_refl in Hx. discriminate.
    + intros H. inversion H as [| ? ? Hx Hl]; subst. split; [| exact Hl].
      apply Forall_forall. intros y Hy. apply pystr_eqb_neq.
      intros ->. exact (Hx Hy).
Qed.

Lemma has_duplicate_Z_NoDup (l : list Z) :
  has_duplicate_Z l = false <-> NoDup l.
Proof.
  induction l as [| x l IH]; cbn [has_duplicate_Z].
  - split; [constructor | reflexivity].
  - rewrite orb_false_iff, IH, existsb_false. split.
    + intros [Hx Hl]. constructor; [| exact Hl]. intros Hin.
      rewrite Forall_forall in Hx. specialize (Hx x Hin).
      rewrite Z.eqb_refl in Hx. discriminate.
    + intros H. inversion H as [| ? ? Hx Hl]; subst. split; [| exact Hl].
      apply Forall_forall. intros y Hy. apply Z.eqb_neq.
      intros ->. exact (Hx Hy).
Qed.

Lemma check_symbols_iff (l : list pystr) :
  check_each check_symbol_element l = Ok tt <-> Forall symbol_ok l.
Proof.
  rewrite check_each_iff.
  split; apply Forall_impl; intros e; apply check_symbol_element_Ok.
Qed.

Lemma check_triplets_not_empty (l : list custom_label) :
  l <> [] ->
  check_field_custom_labels (cl_triplets l)
  = (if has_duplicate_Z (map row_label_store l) then Raise ValueError
     else
       _ <- check_range 1 49 (map row_label_store l) ;;
       if has_duplicate (map row_symbol l) then Raise ValueError
       else check_each check_symbol_element (map row_symbol l)).
Proof.
  destruct l as [| r l]; [congruence |]. intros _.
  unfold check_field_custom_labels, check_custom_labels_values.
  cbn [map].
  destruct (has_duplicate_Z (row_label_store r :: map row_label_store l));
    reflexivity.
Qed.

Lemma check_pairs_not_empty (l : list (pystr * pystr)) :
  l <> [] ->
  check_field_custom_labels (cl_pairs l)
  = (if has_duplicate (map fst l) then Raise ValueError
     else check_each check_symbol_element (map fst l)).
Proof.
  destruct l as [| r l]; [congruence |]. intros _. reflexivity.
Qed.

(** X15.  The check of [custom_labels] given as a list.  A list of
    triplets [(label_store, symbol, description)] is accepted exactly when
    it is not empty, its store values are distinct and within 1..49, and
    its symbols are distinct strings of one to three characters without
    whitespace; a list of pairs [(symbol, description)] that is not empty
    is accepted exactly when its symbols are so.  For a list that passes,
    [_custom_labels_to_df] makes the DataFrame of the same columns; called
    again on the DataFrame it has made, it raises ValueError, since it
    starts by taking the truth value of the attribute. *)
Theorem check_custom_labels_lists :
  (forall l,
      check_field_custom_labels (cl_triplets l) = Ok tt
      <-> l <> []
          /\ NoDup (map row_label_store l)
          /\ Forall (fun v => 1 <= v <= 49) (map row_label_store l)
          /\ NoDup (map row_symbol l)
          /\ Forall symbol_ok (map row_symbol l))
  /\ (forall l,
         l <> [] ->
         (check_field_custom_labels (cl_pairs l) = Ok tt
          <-> NoDup (map fst l) /\ Forall symbol_ok (map fst l)))
  /\ (forall l df,
         l <> [] ->
         check_field_custom_labels (cl_triplets l) = Ok tt ->
         df = cl_dataframe (Some (map row_label_store l)) (map row_symbol l)
                (map row_description l) ->
         _custom_labels_to_df (Some (cl_triplets l)) = Ok (Some df)
         /\ _custom_labels_to_df (Some df) = Raise ValueError).
Proof.
  split; [| split].
  - intros l. destruct l as [| r0 l0].
    { split; [discriminate | intros [H _]; congruence]. }
    assert (Hl0 : r0 :: l0 <> []) by discriminate.
    remember (r0 :: l0) as l eqn:El. clear El r0 l0.
    rewrite (check_triplets_not_empty l Hl0).
    destruct (has_duplicate_Z (map row_label_store l)) eqn:Ed.
    { split; [discriminate |]. intros [_ [H _]].
      apply has_duplicate_Z_NoDup in H. congruence. }
    apply has_duplicate_Z_NoDup in Ed.
    destruct (check_range 1 49 (map row_label_store l)) as [[] | e] eqn:Er;
      cbn [bind].
    + apply check_range_Ok in Er. destruct Er as [Hne Hr].
      assert (Hl : l <> []) by (intros ->; apply Hne; reflexivity).
      destruct (has_duplicate (map row_symbol l)) eqn:Es.
      { split; [discriminate |]. intros [_ [_ [_ [H _]]]].
        apply has_duplicate_NoDup in H. congruence. }
      apply has_duplicate_NoDup in Es. rewrite check_symbols_iff.
      split; [intros H; repeat split; assumption | intros H; apply H].
    + split; [discriminate |]. intros [Hl [_ [Hr _]]].
      assert (Hok : check_range 1 49 (map row_label_store l) = Ok tt).
      { apply check_range_Ok. split; [| exact Hr].
        destruct l; [congruence | discriminate]. }
      congruence.
  - intros l Hl0. rewrite (check_pairs_not_empty l Hl0).
    destruct (has_duplicate (map fst l)) eqn:Es.
    { split; [discriminate |]. intros [H _].
      apply has_duplicate_NoDup in H. congruence. }
    apply has_duplicate_NoDup in Es. rewrite check_symbols_iff.
    split; [intros H; split; assumption | intros H; apply H].
  - intros l df Hl Hc ->. split.
    + unfold _custom_labels_to_df.
      destruct l as [| r l]; [congruence |].
      cbn [custom_labels_truthy bind negb]. rewrite Hc. reflexivity.
    + reflexivity.
Qed.

Lemma check_custom_labels_lists_witness :
  let l := [(42, str "#", str "Custom beat"); (43, str "ab", str "Other")] in
  l <> []
  /\ check_field_custom_labels (cl_triplets l) = Ok tt
  /\ _custom_labels_to_df
       (Some (cl_dataframe (Some [42; 43]) [str "#"; str "ab"]
                [str "Custom beat"; str "Other"]))
     = Raise ValueError.
Proof.
  intros l.
  assert (Hl : l <> []) by discriminate.
  assert (Hc : check_field_custom_labels (cl_triplets l) = Ok tt)
    by reflexivity.
  split; [exact Hl |]. split; [exact Hc |].
  exact (proj2 (proj2 (proj2 check_custom_labels_lists) l _ Hl Hc eq_refl)).
Defined.


(** ** Reading a written file up to a sample *)

Lemma pop_snoc {A : Type} (l : list A) (x : A) : pop (l ++ [x]) = Ok l.
Proof.
  unfold pop. destruct (l ++ [x]) eqn:E.
  - destruct l; discriminate.
  - rewrite <- E, removelast_last. reflexivity.
Qed.

Lemma rm_last_read_emitted (d : ann_data) (total : Z) (e : emitted) :
  rm_last (fst (read_emitted (d, total) e)) = Ok d.
Proof.
  unfold read_emitted, rm_last.
  cbn [fst sample label_store subtype chan num aux_note].
  rewrite !pop_snoc. cbn [bind]. destruct d; reflexivity.
Qed.

Lemma ann_loop_emitted_sampto (b : Z) (es : list emitted) :
  b <> 0 ->
  forall (pre : byte_pairs) (d : ann_data) (total : Z) (fuel : nat),
    (length es <= fuel)%nat ->
    Forall valid_emitted es ->
    ann_loop fuel (pre ++ stream_of es) (Some b) total (length pre) d
    = Ok (read_upto b es (d, total)).
Proof.
  intros Hb.
  induction es as [| e es IH]; intros pre d total fuel Hfuel Hv.
  - assert (Hc : (Z.of_nat (length pre)
                  <? Z.of_nat (length (pre ++ stream_of [])) - 1) = false).
    { apply Z.ltb_ge. rewrite length_app. simpl. lia. }
    destruct fuel; cbn [ann_loop]; rewrite Hc; reflexivity.
  - inversion Hv as [| e' es' He Hes]; subst.
    destruct fuel as [| fuel]; [simpl in Hfuel; lia |].
    assert (Hc : (Z.of_nat (length pre)
                  <? Z.of_nat (length (pre ++ stream_of (e :: es))) - 1)
                 = true).
    { apply Z.ltb_lt. unfold stream_of. cbn [map concat].
      rewrite !length_app. pose proof (emitted_pairs_length e He).
      simpl. lia. }
    cbn [ann_loop]. rewrite Hc.
    assert (Hs : stream_of (e :: es) = emitted_pairs e ++ stream_of es).
    { unfold stream_of. cbn [map concat]. rewrite app_assoc. reflexivity. }
    rewrite Hs.
    destruct (stream_of_head_tag es Hes) as [Hne Htag].
    rewrite ann_body_emitted by assumption. cbn [bind].
    assert (Hp : past_sampto (Some b) (total + e_sd e)
                 = (b <? total + e_sd e)).
    { unfold past_sampto, sampto_truthy. apply Z.eqb_neq in Hb.
      rewrite Hb. reflexivity. }
    rewrite Hp. cbn [read_upto].
    assert (Hsnd : snd (read_emitted (d, total) e) = total + e_sd e)
      by reflexivity.
    rewrite Hsnd. destruct (b <? total + e_sd e).
    + apply rm_last_read_emitted.
    + rewrite (app_assoc pre), <- length_app.
      rewrite IH; [| simpl in Hfuel; lia | assumption].
      destruct (read_emitted (d, total) e) as [d1 t1] eqn:E.
      unfold read_emitted in E. injection E as <- <-. reflexivity.
Qed.

Lemma skipn_nth_cons {A : Type} (dflt : A) (l : list A) :
  forall i, (i < length l)%nat -> skipn i l = nth i l dflt :: skipn (S i) l.
Proof.
  induction l as [| x l IH]; intros i Hi; simpl in Hi; [lia |].
  destruct i as [| i]; [reflexivity |].
  cbn [skipn nth]. rewrite IH by lia. reflexivity.
Qed.

Lemma read_upto_from (self : Annotation) (b : Z) :
  lengths_agree self ->
  forall k i,
    (i + k <= length (ann_sample self))%nat ->
    read_upto b (map (emitted_at self) (seq i k))
      (first_annotations i (data_of self), nth i (0 :: ann_sample self) 0)
    = first_annotations
        (i + leading b (firstn k (skipn i (ann_sample self))))
        (data_of self).
Proof.
  intros Hlen. induction k as [| k IH]; intros i Hik.
  - cbn [seq map read_upto fst firstn leading]. rewrite Nat.add_0_r.
    reflexivity.
  - cbn [seq map read_upto].
    rewrite read_emitted_at by (assumption || lia).
    cbn [snd fst nth].
    rewrite (skipn_nth_cons 0 (ann_sample self) i) by lia.
    cbn [firstn leading].
    destruct (b <? nth i (ann_sample self) 0) eqn:Eb.
    + assert (E : (nth i (ann_sample self) 0 <=? b) = false)
        by (apply Z.leb_gt; apply Z.ltb_lt in Eb; lia).
      rewrite E, Nat.add_0_r. reflexivity.
    + assert (E : (nth i (ann_sample self) 0 <=? b) = true)
        by (apply Z.leb_le; apply Z.ltb_ge in Eb; lia).
      rewrite E.
      change (nth i (ann_sample self) 0)
        with (nth (S i) (0 :: ann_sample self) 0) at 1.
      rewrite IH by lia. rewrite Nat.add_succ_r. reflexivity.
Qed.

(** Reading the words of the object with a bound gives the annotations
    before the first one past the bound. *)
Lemma read_stream_sampto (self : Annotation) (b : Z) :
  lengths_agree self ->
  symbols_known self ->
  diffs_in_range self ->
  fields_in_range self ->
  b <> 0 ->
  extract_ann_data (stream_of (emitted_of self)) (Some b)
  = Ok (first_annotations (leading b (ann_sample self)) (data_of self)).
Proof.
  intros Hlen Hknown Hd Hr Hb.
  pose proof (emitted_of_valid self Hlen Hknown Hd Hr) as Hv.
  unfold extract_ann_data.
  pose proof (ann_loop_emitted_sampto b (emitted_of self) Hb [] no_data 0
                (length (stream_of (emitted_of self)))
                (stream_of_length _ Hv) Hv) as Hl.
  cbn [app length] in Hl. rewrite Hl. clear Hl.
  unfold emitted_of.
  pose proof (read_upto_from self b Hlen (length (ann_sample self)) 0%nat
                (le_n _)) as H.
  change (first_annotations 0 (data_of self)) with no_data in H.
  change (nth 0 (0 :: ann_sample self) 0) with 0 in H.
  rewrite H. cbn [skipn Nat.add]. rewrite firstn_all. reflexivity.
Qed.

Lemma read_stream_sampto_0 (self : Annotation) :
  lengths_agree self ->
  symbols_known self ->
  diffs_in_range self ->
  fields_in_range self ->
  extract_ann_data (stream_of (emitted_of self)) (Some 0)
  = Ok (data_of self).
Proof.
  intros Hlen Hknown Hd Hr.
  pose proof (emitted_of_valid self Hlen Hknown Hd Hr) as Hv.
  unfold extract_ann_data. rewrite ann_loop_sampto_0.
  fold (extract_ann_data (stream_of (emitted_of self)) None).
  rewrite (extract_ann_data_emitted _ Hv), (read_emitted_of self Hlen).
  reflexivity.
Qed.

(** X16.  Let [self] be as for writing and reading back: [sample],
    [symbol], [subtype], [chan], [num] and [aux_note] each pass
    [check_field], they are as long as [sample], the symbols are in the
    standard table, no sample difference is 2^31, and the notes have at
    most 255 characters, all with code points up to 255.  Reading
    the file written for it with a [sampto] that is not 0 gives its
    annotations before the first one whose sample is past [sampto], as
    many as there are samples at most [sampto] at the head of [sample];
    the annotations after that one are not read, whatever their samples.
    With a [sampto] of 0 every annotation is read. *)
Theorem write_then_read_sampto (self : Annotation) (sampto : Z) :
  Forall (fun field => check_field self field = Ok tt) written_fields ->
  lengths_agree self ->
  symbols_known self ->
  Forall (fun sd => sd <> 2147483648) (diffs 0 (ann_sample self)) ->
  (forall l, ann_aux_note self = Some l -> Forall valid_note l) ->
  exists bs fb,
    wr_ann_file self [] [] = Ok bs
    /\ reshape_pairs bs = Ok fb
    /\ extract_ann_data fb (Some sampto)
       = Ok (if sampto =? 0 then data_of self
             else first_annotations (leading sampto (ann_sample self))
                    (data_of self)).
Proof.
  intros Hc Hlen Hknown Hd Hnotes.
  destruct (checked_object self Hc Hd Hnotes) as [Hne [Hdr [Hr _]]].
  destruct (wr_ann_file_emitted self Hne Hlen Hknown Hdr Hr) as [bs [Hw Hp]].
  exists bs, (stream_of (emitted_of self)).
  split; [exact Hw |]. split; [exact Hp |].
  destruct (sampto =? 0) eqn:E.
  - apply Z.eqb_eq in E. subst sampto.
    apply read_stream_sampto_0; assumption.
  - apply Z.eqb_neq in E. apply read_stream_sampto; assumption.
Qed.

Lemma write_then_read_sampto_witness :
  let self :=
    mk_Annotation [0; 20; 2400] (Some [str "N"; str "N"; str "["])
      (Some [0; 1; 0]) (Some [3; 3; 0]) (Some [0; 0; 0])
      (Some [[]; str "a"; []]) None in
  Forall (fun field => check_field self field = Ok tt) written_fields
  /\ exists bs fb,
       wr_ann_file self [] [] = Ok bs
       /\ reshape_pairs bs = Ok fb
       /\ extract_ann_data fb (Some 100)
          = Ok (mk_ann_data [0; 20] [1; 1] [0; 1] [3; 3] [0; 0]
                  [[]; str "a"]).
Proof.
  intros self.
  assert (Hc : Forall (fun field => check_field self field = Ok tt)
                 written_fields) by (repeat constructor).
  assert (Hlen : lengths_agree self).
  { unfold lengths_agree, self. cbn.
    repeat split; intros l E; injection E as <-; reflexivity. }
  assert (Hknown : symbols_known self).
  { unfold symbols_known, self. cbn.
    repeat constructor; eexists; reflexivity. }
  assert (Hd : Forall (fun sd => sd <> 2147483648) (diffs 0 (ann_sample self))).
  { unfold self. cbn. repeat constructor; lia. }
  assert (Hn : forall l, ann_aux_note self = Some l -> Forall valid_note l).
  { unfold self. cbn. intros l E. injection E as <-.
    unfold valid_note. repeat constructor; cbn; lia. }
  split; [exact Hc |].
  exact (write_then_read_sampto self 100 Hc Hlen Hknown Hd Hn).
Defined.


(** ** The bound of the reader and the range of [apply_range] *)

Lemma flags_above (b : Z) (s : list Z) :
  forall x,
    Forall (fun sd => 0 <= sd) (diffs x s) ->
    b < x ->
    map (in_range 0 b) s = repeat false (length s).
Proof.
  induction s as [| y s IH]; intros x Hd Hx; [reflexivity |].
  cbn [diffs] in Hd. inversion Hd as [| ? ? Hy Hd']; subst.
  cbn [map length repeat]. f_equal.
  - unfold in_range. apply andb_false_iff. right. apply Z.leb_gt. lia.
  - apply (IH y); [exact Hd' | lia].
Qed.

Lemma flags_sorted (b : Z) (s : list Z) :
  forall p,
    0 <= p ->
    Forall (fun sd => 0 <= sd) (diffs p s) ->
    map (in_range 0 b) s
    = repeat true (leading b s)
        ++ repeat false (length s - leading b s).
Proof.
  induction s as [| x s IH]; intros p Hp Hd; [reflexivity |].
  cbn [diffs] in Hd. inversion Hd as [| ? ? Hx Hd']; subst.
  cbn [map leading length]. destruct (x <=? b) eqn:E.
  - cbn [repeat app Nat.sub]. f_equal.
    + unfold in_range. rewrite E. apply andb_true_iff. split; [| reflexivity].
      apply Z.leb_le. lia.
    + apply (IH x); [lia | exact Hd'].
  - cbn [repeat app Nat.sub]. f_equal.
    + unfold in_range. rewrite E. apply andb_false_r.
    + apply Z.leb_gt in E. apply (flags_above b s x); [exact Hd' | lia].
Qed.

Lemma last_cons_default (s : list Z) (x p : Z) : last (x :: s) p = last s x.
Proof.
  revert x p. induction s as [| y s IH]; intros x p; [reflexivity |].
  change (last (x :: y :: s) p) with (last (y :: s) p).
  rewrite !IH. reflexivity.
Qed.

Lemma sorted_le_last (s : list Z) :
  forall p,
    Forall (fun sd => 0 <= sd) (diffs p s) ->
    p <= last s p /\ Forall (fun x => p <= x <= last s p) s.
Proof.
  induction s as [| x s IH]; intros p Hd; [split; [simpl; lia | constructor] |].
  cbn [diffs] in Hd. inversion Hd as [| ? ? Hx Hd']; subst.
  destruct (IH x Hd') as [Hl Hall]. rewrite last_cons_default.
  split; [lia |]. constructor; [lia |].
  eapply Forall_impl; [| exact Hall]. intros y Hy; cbv beta in Hy; lia.
Qed.

Lemma leading_le (b : Z) (l : list Z) : (leading b l <= length l)%nat.
Proof.
  induction l as [| x l IH]; [apply le_n |].
  cbn [leading length]. destruct (x <=? b); lia.
Qed.

Lemma Forall_repeat {A : Type} (P : A -> Prop) (x : A) (n : nat) :
  P x -> Forall P (repeat x n).
Proof. intros H. induction n; constructor; assumption. Qed.

Lemma select_leading {A : Type} (l : list A) (k m : nat) :
  length l = (k + m)%nat ->
  select (repeat true k ++ repeat false m) l = firstn k l.
Proof.
  intros Hl. rewrite <- (firstn_skipn k l) at 1.
  rewrite select_app
    by (rewrite repeat_length, length_firstn; lia).
  rewrite select_all;
    [| rewrite repeat_length, length_firstn; lia
     | apply Forall_repeat; reflexivity].
  rewrite select_all_false by (apply Forall_repeat; reflexivity).
  apply app_nil_r.
Qed.

Lemma select_rows_leading (d : ann_data) (k : nat) :
  same_length d ->
  (k <= length (sample d))%nat ->
  select_rows (repeat true k ++ repeat false (length (sample d) - k)) d
  = first_annotations k d.
Proof.
  intros [Hl [Hst [Hc [Hn Ha]]]] Hk. unfold select_rows, first_annotations.
  rewrite !select_leading by lia. reflexivity.
Qed.

Lemma select_rows_all (keep : list bool) (d : ann_data) :
  same_length d ->
  length keep = length (sample d) ->
  Forall (fun b => b = true) keep ->
  select_rows keep d = d.
Proof.
  intros [Hl [Hst [Hc [Hn Ha]]]] Hk Hall. unfold select_rows.
  rewrite !select_all by (assumption || lia). destruct d; reflexivity.
Qed.

Lemma first_annotations_same_length (d : ann_data) (k : nat) :
  same_length d -> same_length (first_annotations k d).
Proof.
  intros [Hl [Hst [Hc [Hn Ha]]]]. unfold same_length, first_annotations.
  cbn [sample label_store subtype chan num aux_note].
  rewrite !length_firstn. repeat split; lia.
Qed.

(** On samples that do not decrease from 0, [apply_range] from 0 to a
    bound that is not 0 keeps the annotations at the head whose samples
    are at most the bound, and keeps all of these when applied again. *)
Lemma apply_range_sorted (d : ann_data) (b : Z) :
  same_length d ->
  Forall (fun sd => 0 <= sd) (diffs 0 (sample d)) ->
  b <> 0 ->
  let db := first_annotations (leading b (sample d)) d in
  apply_range d 0 (Some b) = Ok db /\ apply_range db 0 (Some b) = Ok db.
Proof.
  intros Hsl Hd Hb db.
  assert (Ht : sampto_truthy (Some b) = true).
  { unfold sampto_truthy. apply negb_true_iff, Z.eqb_neq. exact Hb. }
  assert (Hre : forall x, range_end x (Some b) = b).
  { intros x. unfold range_end. apply Z.eqb_neq in Hb. rewrite Hb.
    reflexivity. }
  pose proof (flags_sorted b (sample d) 0 (Z.le_refl 0) Hd) as Hf.
  pose proof (leading_le b (sample d)) as Hk.
  split.
  - rewrite apply_range_select by (assumption || (right; exact Ht)).
    rewrite Hre, Hf. rewrite select_rows_leading by assumption. reflexivity.
  - rewrite apply_range_select
      by (try (right; exact Ht);
          apply first_annotations_same_length; exact Hsl).
    rewrite Hre. f_equal. apply select_rows_all.
    + apply first_annotations_same_length. exact Hsl.
    + apply length_map.
    + unfold db, first_annotations. cbn [sample].
      rewrite <- firstn_map, Hf, firstn_app, repeat_length, Nat.sub_diag.
      cbn [firstn]. rewrite app_nil_r.
      rewrite firstn_all2 by (rewrite repeat_length; apply le_n).
      apply Forall_repeat. reflexivity.
Qed.

(** With a bound of 0, which stands for the last sample, [apply_range]
    from 0 keeps every annotation. *)
Lemma apply_range_sorted_0 (d : ann_data) :
  same_length d ->
  sample d <> [] ->
  Forall (fun sd => 0 <= sd) (diffs 0 (sample d)) ->
  apply_range d 0 (Some 0) = Ok d.
Proof.
  intros Hsl Hne Hd.
  rewrite apply_range_select by (assumption || (left; exact Hne)).
  f_equal. apply select_rows_all; [exact Hsl | apply length_map |].
  destruct (sorted_le_last (sample d) 0 Hd) as [_ Hall].
  change (range_end d (Some 0)) with (last (sample d) 0).
  rewrite Forall_forall in *. intros f Hf. apply in_map_iff in Hf.
  destruct Hf as [x [<- Hx]]. specialize (Hall x Hx). cbv beta in Hall.
  unfold in_range. apply andb_true_iff. split; apply Z.leb_le; lia.
Qed.

(** X17.  Let [self] be as for writing and reading back: [sample],
    [symbol], [subtype], [chan], [num] and [aux_note] each pass
    [check_field], they are as long as [sample], the symbols are in the
    standard table, no sample difference is 2^31, and the notes have at
    most 255 characters, all with code points up to 255.  On the
    file written for it, the bound of the reader and the range of
    [apply_range] agree: reading with [sampto] gives what [apply_range]
    from 0 to [sampto] makes of the whole file, and applying the same
    range to what was read with [sampto], as [rdann] does, changes
    nothing. *)
Theorem read_sampto_is_apply_range (self : Annotation) (sampto : Z) :
  Forall (fun field => check_field self field = Ok tt) written_fields ->
  lengths_agree self ->
  symbols_known self ->
  Forall (fun sd => sd <> 2147483648) (diffs 0 (ann_sample self)) ->
  (forall l, ann_aux_note self = Some l -> Forall valid_note l) ->
  exists bs fb d db,
    wr_ann_file self [] [] = Ok bs
    /\ reshape_pairs bs = Ok fb
    /\ extract_ann_data fb None = Ok d
    /\ extract_ann_data fb (Some sampto) = Ok db
    /\ apply_range d 0 (Some sampto) = Ok db
    /\ apply_range db 0 (Some sampto) = Ok db.
Proof.
  intros Hc Hlen Hknown Hd Hnotes.
  destruct (checked_object self Hc Hd Hnotes) as [Hne [Hdr [Hr [Hs _]]]].
  destruct (wr_ann_file_emitted self Hne Hlen Hknown Hdr Hr) as [bs [Hw Hp]].
  pose proof (emitted_of_valid self Hlen Hknown Hdr Hr) as Hv.
  pose proof (data_of_same_length self Hlen) as Hsl.
  assert (Hfull : extract_ann_data (stream_of (emitted_of self)) None
                  = Ok (data_of self)).
  { rewrite (extract_ann_data_emitted _ Hv), (read_emitted_of self Hlen).
    reflexivity. }
  destruct (Z.eq_dec sampto 0) as [E | E].
  - subst sampto.
    exists bs, (stream_of (emitted_of self)), (data_of self), (data_of self).
    split; [exact Hw |]. split; [exact Hp |]. split; [exact Hfull |].
    split; [apply read_stream_sampto_0; assumption |].
    split; apply apply_range_sorted_0; assumption.
  - exists bs, (stream_of (emitted_of self)), (data_of self),
      (first_annotations (leading sampto (ann_sample self)) (data_of self)).
    split; [exact Hw |]. split; [exact Hp |]. split; [exact Hfull |].
    split; [apply read_stream_sampto; assumption |].
    exact (apply_range_sorted (data_of self) sampto Hsl Hs E).
Qed.

Lemma read_sampto_is_apply_range_witness :
  let self :=
    mk_Annotation [0; 20; 2400] (Some [str "N"; str "N"; str "["])
      (Some [0; 1; 0]) (Some [3; 3; 0]) (Some [0; 0; 0])
      (Some [[]; str "a"; []]) None in
  Forall (fun field => check_field self field = Ok tt) written_fields
  /\ exists bs fb d db,
       wr_ann_file self [] [] = Ok bs
       /\ reshape_pairs bs = Ok fb
       /\ extract_ann_data fb None = Ok d
       /\ extract_ann_data fb (Some 20) = Ok db
       /\ apply_range d 0 (Some 20) = Ok db
       /\ apply_range db 0 (Some 20) = Ok db.
Proof.
  intros self.
  assert (Hc : Forall (fun field => check_field self field = Ok tt)
                 written_fields) by (repeat constructor).
  assert (Hlen : lengths_agree self).
  { unfold lengths_agree, self. cbn.
    repeat split; intros l E; injection E as <-; reflexivity. }
  assert (Hknown : symbols_known self).
  { unfold symbols_known, self. cbn.
    repeat constructor; eexists; reflexivity. }
  assert (Hd : Forall (fun sd => sd <> 2147483648) (diffs 0 (ann_sample self))).
  { unfold self. cbn. repeat constructor; lia. }
  assert (Hn : forall l, ann_aux_note self = Some l -> Forall valid_note l).
  { unfold self. cbn. intros l E. injection E as <-.
    unfold valid_note. repeat constructor; cbn; lia. }
  split; [exact Hc |].
  exact (read_sampto_is_apply_range self 20 Hc Hlen Hknown Hd Hn).
Defined.


(** ** From [check_fields] to the label map, as [wrann] goes *)

(** An object that [check_fields] accepts has custom labels, and they
    pass their check. *)
Lemma check_fields_custom_labels (o : outside_file) (F : float_model)
    (self : Annotation) (rest : Annotation_rest F) :
  check_fields o self rest = Ok tt ->
  exists cl,
    ann_custom_labels rest = Some cl
    /\ check_field_custom_labels cl = Ok tt.
Proof.
  intros H. unfold check_fields, ANN_FIELDS in H. apply check_each_Ok in H.
  rewrite Forall_forall in H.
  specialize (H (inr fld_custom_labels)). cbv beta iota in H.
  assert (Hin : In (inr fld_custom_labels)
                  [inl fld_sample; inl fld_symbol; inl fld_subtype;
                   inl fld_chan; inl fld_num; inl fld_aux_note;
                   inl fld_label_store; inr fld_description;
                   inr fld_record_name; inr fld_extension; inr fld_fs;
                   @inr ann_field rest_field fld_custom_labels])
    by (simpl; tauto).
  specialize (H Hin). cbn [check_field_rest] in H.
  destruct (ann_custom_labels rest) as [cl |]; [| discriminate].
  exists cl. split; [reflexivity | exact H].
Qed.

(** X18.  After [check_fields], [wrann] calls [_custom_labels_to_df] and
    [_create_label_map].  For every object that [check_fields] accepts
    these two steps raise ValueError: the object has custom labels, since
    [check_fields] takes none for a TypeError; a list of them is made into
    a DataFrame by the first step and the second takes the truth value of
    that DataFrame; custom labels that are a DataFrame from the start have
    their truth value taken by the first step.  So [wrann] does not get to
    [wr_ann_file]. *)
Theorem wrann_stops_at_label_map (o : outside_file) (F : float_model)
    (self : Annotation) (rest : Annotation_rest F) :
  check_fields o self rest = Ok tt ->
  (custom_labels <- _custom_labels_to_df (ann_custom_labels rest) ;;
   _create_label_map custom_labels)
  = Raise ValueError.
Proof.
  intros H.
  destruct (check_fields_custom_labels o F self rest H) as [cl [-> Hc]].
  destruct cl as [l | l | ls sym descr |].
  - destruct l as [| p l]; [discriminate |].
    unfold _custom_labels_to_df. cbn [custom_labels_truthy bind negb].
    rewrite Hc. reflexivity.
  - destruct l as [| r l]; [discriminate |].
    unfold _custom_labels_to_df. cbn [custom_labels_truthy bind negb].
    rewrite Hc. reflexivity.
  - reflexivity.
  - discriminate.
Qed.

Lemma wrann_stops_at_label_map_witness :
  let o := mk_outside_file true true (fun _ => false) in
  let self :=
    mk_Annotation [0; 20; 2400] (Some [str "N"; str "N"; str "["])
      (Some [0; 1; 0]) (Some [3; 3; 0]) (Some [0; 0; 0])
      (Some [[]; []; str "Serious Vfib!"]) (Some [1; 1; 32]) in
  let rest : Annotation_rest int_floats :=
    mk_Annotation_rest
      (Some [str "Normal beat"; str "Normal beat";
             str "Start of ventricular flutter/fibrillation"])
      (Some (str "rec1")) (Some (str "atr")) (Some (FsInt 360))
      (Some (cl_triplets [(42, str "#", str "Custom beat")])) in
  check_fields o self rest = Ok tt
  /\ (custom_labels <- _custom_labels_to_df (ann_custom_labels rest) ;;
      _create_label_map custom_labels)
     = Raise ValueError.
Proof.
  intros o self rest.
  assert (Hc : check_fields o self rest = Ok tt) by reflexivity.
  split; [exact Hc |].
  exact (wrann_stops_at_label_map o int_floats self rest Hc).
Defined.
